(** * Resource store, agent selection and I/O streams of virtcontainers

    A shallow embedding of [virtcontainers/filesystem.go],
    [virtcontainers/agent.go] and [virtcontainers/iostream.go], with the
    operating-system calls they make modelled on a finite map from cleaned
    absolute paths to nodes. *)

From Stdlib Require Import ZArith Ascii String.
From Ceres Require Import Ceres.
From stdpp Require Import base option list strings gmap fin_maps.

Local Open Scope string_scope.
Local Open Scope Z_scope.

(** ** Go values shared by the three files *)

Abbreviation bytes := (list Byte.byte).

(** [syscall.Errno] values the model can raise. *)
Inductive Errno := ENOENT | EEXIST | ENOTDIR | EISDIR | ENOSPC | EBUSY.

(** A Go [error].  The four sentinels are the package-level variables that
    filesystem.go returns; [errorString] is [errors.New] (and a [fmt.Errorf]
    without verbs); [wrapError] is [fmt.Errorf(prefix + "%s", err)];
    [PathError] is [*os.PathError]; [foreignError] stands for an error
    produced by a collaborator (encoding/json, the guest agent). *)
Inductive error :=
  | errNeedSandboxID
  | errNeedContainerID
  | errNeedFile
  | errInvalidResource
  | errorString (msg : string)
  | wrapError (prefix : string) (err : error)
  | PathError (op : string) (errno : Errno)
  | foreignError (origin : string) (code : nat).

(** A Go result pair [(T, error)] in which exactly one side is meaningful. *)
Inductive result (A : Type) :=
  | Ok (a : A)
  | Err (e : error).
Arguments Ok {A} a.
Arguments Err {A} e.

(** The [error] of a result pair, [None] for [nil]. *)
Definition result_error {A : Type} (r : result A) : option error :=
  match r with
  | Ok _ => None
  | Err e => Some e
  end.

(** The errors that creating and writing a file can end in: none of them is
    one of the two identifier errors. *)
Definition file_error (e : error) : Prop :=
  match e with
  | errNeedFile | PathError _ _ | wrapError _ _ | errorString _ => True
  | _ => False
  end.

(** The error of reading a path that does not exist. *)
Definition errNotExist : error := PathError "open" ENOENT.

(** The error of [fetchDeviceFile] on a tag it has no decoder for. *)
Definition errUnknownDevice : error :=
  errorString "Unknown device type, could not unmarshal".

(** ** Path names

    Every path filesystem.go builds starts at one of two absolute roots, so
    a path is kept as the list of its components below [/]; the empty Go
    string, which the URI functions return next to an error, is [None]. *)

Abbreviation pathname := (list string).
Abbreviation gopath := (option (list string)).

Module filepath.

(** The pieces of [s] between separators: [strings.Split(s, "/")]. *)
Fixpoint components (s : string) : list string :=
  match s with
  | EmptyString => [EmptyString]
  | String c s' =>
      if Ascii.eqb c "/" then EmptyString :: components s'
      else match components s' with
           | [] => [String c EmptyString]
           | x :: xs => String c x :: xs
           end
  end.

(** One step of the lexical processing of [filepath.Clean] on a rooted
    path: empty and [.] elements vanish, [..] drops the last component
    and is itself dropped at the root. *)
Definition clean_step (acc : pathname) (c : string) : pathname :=
  if decide (c = "") then acc
  else if decide (c = ".") then acc
  else if decide (c = "..") then removelast acc
  else acc ++ [c].

(** [filepath.Join(base, elem...)] for a cleaned absolute [base]. *)
Definition Join (base : pathname) (elem : list string) : pathname :=
  fold_left clean_step (concat (map components elem)) base.

(** [filepath.Join] on a path value: the store only ever joins to the
    directory [resourceDir] returned without error, which is never the empty
    string. *)
Definition JoinTo (dir : gopath) (elem : list string) : gopath :=
  option_map (fun base => Join base elem) dir.

(** [filepath.Dir] of a cleaned absolute path. *)
Definition Dir (p : pathname) : pathname := removelast p.

End filepath.

(** A string that is one path component: not empty, not [.] or [..], and
    without a separator. *)
Fixpoint has_separator (s : string) : bool :=
  match s with
  | EmptyString => false
  | String c s' => Ascii.eqb c "/" || has_separator s'
  end.

Definition plain (s : string) : Prop :=
  s <> "" /\ s <> "." /\ s <> ".." /\ has_separator s = false.

(** ** The file tree and the system calls *)

Inductive node :=
  | IsDir
  | IsFile (content : bytes).

(** The world the store runs in: the nodes below the root directory (the
    root itself always exists) and the number of bytes the device holds. *)
Record world := World {
  nodes : gmap (list string) node;
  capacity : nat;
}.

Definition node_size (n : node) : nat :=
  match n with
  | IsDir => 0
  | IsFile b => length b
  end.

Definition used (m : gmap (list string) node) : nat :=
  map_fold (fun _ n acc => (node_size n + acc)%nat) 0%nat m.

(** Bytes still free on the device. *)
Definition avail (w : world) : nat := (capacity w - used (nodes w))%nat.

Definition lstat (m : gmap (list string) node) (p : pathname) : option node :=
  match p with
  | [] => Some IsDir
  | _ => m !! p
  end.

(** The nodes form a tree: every node lies in a directory. *)
Definition tree (m : gmap (list string) node) : Prop :=
  forall (p : pathname) (n : node),
    m !! p = Some n -> p <> [] /\ lstat m (filepath.Dir p) = Some IsDir.

(** The error of resolving a path that leads to no node: the kernel walks
    the components [cs] below the directory [acc] and stops at the first
    that is not a directory, with [ENOTDIR] when it is a regular file and
    with [ENOENT] when it does not exist. *)
Fixpoint missing (m : gmap (list string) node) (acc : pathname)
    (cs : list string) : Errno :=
  match cs with
  | [] => ENOENT
  | c :: cs' =>
      match m !! (acc ++ [c])%list with
      | Some IsDir => missing m (acc ++ [c])%list cs'
      | Some (IsFile _) => ENOTDIR
      | None => ENOENT
      end
  end.



Module os.

(** [os.Stat]: only success or failure is observed by the callers. *)
Definition Stat (name : gopath) (w : world) : option error :=
  match name with
  | None => Some (PathError "stat" ENOENT)
  | Some p =>
      match lstat (nodes w) p with
      | Some _ => None
      | None => Some (PathError "stat" ENOENT)
      end
  end.

(** [os.Mkdir]: the parent must be a directory and the name free. *)
Definition Mkdir (p : pathname) (m : gmap (list string) node)
  : option error * gmap (list string) node :=
  match lstat m p with
  | Some _ => (Some (PathError "mkdir" EEXIST), m)
  | None =>
      match lstat m (filepath.Dir p) with
      | Some IsDir => (None, <[p := IsDir]> m)
      | Some (IsFile _) => (Some (PathError "mkdir" ENOTDIR), m)
      | None => (Some (PathError "mkdir" ENOENT), m)
      end
  end.

(** [os.MkdirAll] on the reversed component list [rp]: an existing
    directory is success, an existing file is [ENOTDIR], otherwise the
    parent is made first and then the directory itself. *)
Fixpoint mkdirAll (rp : list string) (m : gmap (list string) node)
  : option error * gmap (list string) node :=
  match lstat m (rev rp) with
  | Some IsDir => (None, m)
  | Some (IsFile _) => (Some (PathError "mkdir" ENOTDIR), m)
  | None =>
      match rp with
      | [] => (Some (PathError "mkdir" ENOENT), m)
      | _ :: rp' =>
          match mkdirAll rp' m with
          | (Some e, m') => (Some e, m')
          | (None, m') => Mkdir (rev rp) m'
          end
      end
  end.

Definition MkdirAll (path : gopath) (w : world) : option error * world :=
  match path with
  | None => (Some (PathError "mkdir" ENOENT), w)
  | Some p =>
      let '(e, m) := mkdirAll (rev p) (nodes w) in
      (e, World m (capacity w))
  end.

(** [os.Create]: open for writing, creating or truncating.  The file
    handle is the path it was opened at.  Where the directory of the file
    has no node the error is that of walking the path to it: [ENOTDIR]
    below a regular file, [ENOENT] otherwise. *)
Definition Create (name : gopath) (w : world) : result pathname * world :=
  match name with
  | None => (Err (PathError "open" ENOENT), w)
  | Some p =>
      match lstat (nodes w) p with
      | Some IsDir => (Err (PathError "open" EISDIR), w)
      | Some (IsFile _) =>
          (Ok p, World (<[p := IsFile []]> (nodes w)) (capacity w))
      | None =>
          match lstat (nodes w) (filepath.Dir p) with
          | Some IsDir =>
              (Ok p, World (<[p := IsFile []]> (nodes w)) (capacity w))
          | Some (IsFile _) => (Err (PathError "open" ENOTDIR), w)
          | None =>
              (Err (PathError "open" (missing (nodes w) [] (filepath.Dir p))),
               w)
          end
      end
  end.

(** [Write] on an [os.File]: appends what fits on the device; a short write
    returns the count together with [ENOSPC]. *)
Definition Write (f : pathname) (b : bytes) (w : world)
  : (nat * option error) * world :=
  match nodes w !! f with
  | Some (IsFile old) =>
      let room := avail w in
      let w' := World (<[f := IsFile (old ++ take room b)]> (nodes w))
                      (capacity w) in
      if decide (length b ≤ room)%nat
      then ((length b, None), w')
      else ((room, Some (PathError "write" ENOSPC)), w')
  | _ => ((0%nat, Some (PathError "write" ENOENT)), w)
  end.

(** [os.RemoveAll]: removes [path] and everything below it; a missing
    path is success.  The root directory is emptied but cannot itself be
    removed.  A path below a regular file has nothing to remove and counts
    as missing, as in the Go 1.11 that the repository is built with; later
    releases report [ENOTDIR] there, so what is proved of a successful
    removal below the storage roots assumes that these are [passable]. *)
Definition RemoveAll (path : gopath) (w : world) : option error * world :=
  match path with
  | None => (None, w)
  | Some p =>
      let m := filter (fun kv => ¬ p `prefix_of` kv.1) (nodes w) in
      (match p with
       | [] => Some (PathError "unlinkat" EBUSY)
       | _ => None
       end, World m (capacity w))
  end.

End os.

Module ioutil.

(** [ioutil.ReadFile].  Where the path has no node the error is that of
    walking it: [ENOTDIR] below a regular file, [ENOENT] otherwise. *)
Definition ReadFile (filename : gopath) (w : world) : result bytes :=
  match filename with
  | None => Err errNotExist
  | Some p =>
      match lstat (nodes w) p with
      | Some (IsFile b) => Ok b
      | Some IsDir => Err (PathError "read" EISDIR)
      | None => Err (PathError "open" (missing (nodes w) [] p))
      end
  end.

End ioutil.

(** ** filesystem.go: resource kinds and their locations *)

(** [type sandboxResource int], with the constants numbered by [iota]. *)
Definition sandboxResource := Z.

Definition configFileType : sandboxResource := 0.
Definition stateFileType : sandboxResource := 1.
Definition networkFileType : sandboxResource := 2.
Definition hypervisorFileType : sandboxResource := 3.
Definition agentFileType : sandboxResource := 4.
Definition processFileType : sandboxResource := 5.
Definition lockFileType : sandboxResource := 6.
Definition mountsFileType : sandboxResource := 7.
Definition devicesFileType : sandboxResource := 8.

Definition configFile := "config.json".
Definition stateFile := "state.json".
Definition networkFile := "network.json".
Definition hypervisorFile := "hypervisor.json".
Definition agentFile := "agent.json".
Definition processFile := "process.json".
Definition lockFileName := "lock".
Definition mountsFile := "mounts.json".
Definition devicesFile := "devices.json".

Definition storagePathSuffix := "/vc/sbs".

(** [filepath.Join("/var/lib", storagePathSuffix)] *)
Definition configStoragePath : pathname :=
  filepath.Join [] ["/var/lib"; storagePathSuffix].

(** [filepath.Join("/run", storagePathSuffix)] *)
Definition runStoragePath : pathname :=
  filepath.Join [] ["/run"; storagePathSuffix].

(** A [switch] case list: does [resource] equal one of [cases]? *)
Definition is_case (resource : sandboxResource) (cases : list sandboxResource)
  : bool :=
  existsb (Z.eqb resource) cases.

Definition resourceNeedsContainerID (sandboxSpecific : bool)
    (resource : sandboxResource) : bool :=
  if is_case resource
       [lockFileType; networkFileType; hypervisorFileType; agentFileType]
  then false
  else negb sandboxSpecific.

Definition resourceDir (sandboxSpecific : bool) (sandboxID containerID : string)
    (resource : sandboxResource) : gopath * option error :=
  if decide (sandboxID = "") then (None, Some errNeedSandboxID)
  else if resourceNeedsContainerID sandboxSpecific resource
          && bool_decide (containerID = "")
  then (None, Some errNeedContainerID)
  else
    let path :=
      if is_case resource [configFileType] then Some configStoragePath
      else if is_case resource
                [stateFileType; networkFileType; processFileType;
                 lockFileType; mountsFileType; devicesFileType;
                 hypervisorFileType; agentFileType]
      then Some runStoragePath
      else None in
    match path with
    | None => (None, Some errInvalidResource)
    | Some path =>
        (Some (filepath.Join path [sandboxID; containerID]), None)
    end.

(** The file name [resourceURI] picks for a kind; [None] is its [default]
    branch. *)
Definition resourceFilename (resource : sandboxResource) : option string :=
  if is_case resource [configFileType] then Some configFile
  else if is_case resource [stateFileType] then Some stateFile
  else if is_case resource [networkFileType] then Some networkFile
  else if is_case resource [hypervisorFileType] then Some hypervisorFile
  else if is_case resource [agentFileType] then Some agentFile
  else if is_case resource [processFileType] then Some processFile
  else if is_case resource [lockFileType] then Some lockFileName
  else if is_case resource [mountsFileType] then Some mountsFile
  else if is_case resource [devicesFileType] then Some devicesFile
  else None.

(** Returns the file path, the directory path and the error. *)
Definition resourceURI (sandboxSpecific : bool) (sandboxID containerID : string)
    (resource : sandboxResource) : gopath * gopath * option error :=
  if decide (sandboxID = "") then (None, None, Some errNeedSandboxID)
  else
    match resourceDir sandboxSpecific sandboxID containerID resource with
    | (_, Some err) => (None, None, Some err)
    | (dirPath, None) =>
        match resourceFilename resource with
        | None => (None, None, Some errInvalidResource)
        | Some filename =>
            (filepath.JoinTo dirPath [filename], dirPath, None)
        end
    end.

Definition containerURI (sandboxID containerID : string)
    (resource : sandboxResource) : gopath * gopath * option error :=
  if decide (sandboxID = "") then (None, None, Some errNeedSandboxID)
  else if decide (containerID = "") then (None, None, Some errNeedContainerID)
  else resourceURI false sandboxID containerID resource.

Definition sandboxURI (sandboxID : string) (resource : sandboxResource)
    : gopath * gopath * option error :=
  resourceURI true sandboxID "" resource.

Definition commonResourceChecks (sandboxSpecific : bool)
    (sandboxID containerID : string) (resource : sandboxResource)
    : option error :=
  if decide (sandboxID = "") then Some errNeedSandboxID
  else if resourceNeedsContainerID sandboxSpecific resource
          && bool_decide (containerID = "")
  then Some errNeedContainerID
  else if is_case resource
            [configFileType; stateFileType; networkFileType;
             hypervisorFileType; agentFileType; processFileType;
             mountsFileType; devicesFileType]
  then None
  else Some errInvalidResource.

(** ** filesystem.go: the values it stores

    The structs the store persists ([SandboxConfig], [State], ...), the
    [api.Device] interface with the three driver structs that
    [fetchDeviceFile] rebuilds, the [config.Device*] tags and the
    encoding/json functions at each of these types are declared outside
    filesystem.go: they are the fields of a [Package]. *)

Record Codec (T : Type) := {
  Marshal : T -> result bytes;
  Unmarshal : bytes -> result T;
}.
Arguments Marshal {T} _ _.
Arguments Unmarshal {T} _ _.

(** [TypedDevice]: the envelope a device is stored in. *)
Record TypedDevice := {
  Type_ : string;
  Data : bytes;
}.

Record Package := {
  SandboxConfig : Type;
  ContainerConfig : Type;
  State : Type;
  NetworkNamespace : Type;
  Process : Type;
  Mount : Type;
  (** any other Go value handed to the store (hypervisor or agent state) *)
  Opaque : Type;
  (** values of the interface [api.Device] *)
  Device : Type;
  DeviceType : Device -> string;
  VFIODevice : Type;
  BlockDevice : Type;
  GenericDevice : Type;
  (** [&device] used as an [api.Device] *)
  ofVFIODevice : VFIODevice -> Device;
  ofBlockDevice : BlockDevice -> Device;
  ofGenericDevice : GenericDevice -> Device;
  DeviceVFIO : string;
  DeviceBlock : string;
  DeviceGeneric : string;
  json_SandboxConfig : Codec SandboxConfig;
  json_ContainerConfig : Codec ContainerConfig;
  json_State : Codec State;
  json_NetworkNamespace : Codec NetworkNamespace;
  json_Process : Codec Process;
  json_Mounts : Codec (list Mount);
  json_Opaque : Codec Opaque;
  json_Device : Codec Device;
  json_Devices : Codec (list Device);
  json_VFIODevice : Codec VFIODevice;
  json_BlockDevice : Codec BlockDevice;
  json_GenericDevice : Codec GenericDevice;
  json_TypedDevices : Codec (list TypedDevice);
}.

(** The dynamic type and value of a [data interface{}] argument. *)
Inductive data (P : Package) :=
  | aSandboxConfig (v : SandboxConfig P)
  | aContainerConfig (v : ContainerConfig P)
  | aState (v : State P)
  | aNetworkNamespace (v : NetworkNamespace P)
  | aProcess (v : Process P)
  | aMounts (v : list (Mount P))
  | aDevices (v : list (Device P))
  | anOpaque (v : Opaque P).
Arguments aSandboxConfig {P} v.
Arguments aContainerConfig {P} v.
Arguments aState {P} v.
Arguments aNetworkNamespace {P} v.
Arguments aProcess {P} v.
Arguments aMounts {P} v.
Arguments aDevices {P} v.
Arguments anOpaque {P} v.

(** The dynamic type of the pointer a fetch decodes into. *)
Inductive target :=
  | toSandboxConfig
  | toContainerConfig
  | toState
  | toNetworkNamespace
  | toProcess
  | toMounts
  | toDevices
  | toOpaque.

Definition result_map {A B} (f : A -> B) (r : result A) : result B :=
  match r with
  | Ok a => Ok (f a)
  | Err e => Err e
  end.

Section Filesystem.

Variable P : Package.

(** [json.Marshal(data)], by the dynamic type of [data]. *)
Definition json_Marshal (v : data P) : result bytes :=
  match v with
  | aSandboxConfig c => Marshal (json_SandboxConfig P) c
  | aContainerConfig c => Marshal (json_ContainerConfig P) c
  | aState s => Marshal (json_State P) s
  | aNetworkNamespace n => Marshal (json_NetworkNamespace P) n
  | aProcess p => Marshal (json_Process P) p
  | aMounts l => Marshal (json_Mounts P) l
  | aDevices l => Marshal (json_Devices P) l
  | anOpaque o => Marshal (json_Opaque P) o
  end.

(** [json.Unmarshal(fileData, data)], by the type [data] points to. *)
Definition json_Unmarshal (fileData : bytes) (t : target) : result (data P) :=
  match t with
  | toSandboxConfig =>
      result_map aSandboxConfig (Unmarshal (json_SandboxConfig P) fileData)
  | toContainerConfig =>
      result_map aContainerConfig (Unmarshal (json_ContainerConfig P) fileData)
  | toState => result_map aState (Unmarshal (json_State P) fileData)
  | toNetworkNamespace =>
      result_map aNetworkNamespace (Unmarshal (json_NetworkNamespace P) fileData)
  | toProcess => result_map aProcess (Unmarshal (json_Process P) fileData)
  | toMounts => result_map aMounts (Unmarshal (json_Mounts P) fileData)
  | toDevices => result_map aDevices (Unmarshal (json_Devices P) fileData)
  | toOpaque => result_map anOpaque (Unmarshal (json_Opaque P) fileData)
  end.

Definition storeFile (file : gopath) (v : data P) (w : world)
  : option error * world :=
  match file with
  | None => (Some errNeedFile, w)
  | Some _ =>
      match os.Create file w with
      | (Err err, w1) => (Some err, w1)
      | (Ok f, w1) =>
          match json_Marshal v with
          | Err err => (Some (wrapError "Could not marshall data: " err), w1)
          | Ok jsonOut =>
              let '(_, w2) := os.Write f jsonOut w1 in
              (None, w2)
          end
      end
  end.

(** The envelope [storeDeviceFile] builds for one device; the error of
    marshalling the device is dropped and leaves [Data] empty. *)
Definition typedDevice (d : Device P) : TypedDevice :=
  {| Type_ := DeviceType P d;
     Data := match Marshal (json_Device P) d with
             | Ok tempJSON => tempJSON
             | Err _ => []
             end |}.

Definition storeDeviceFile (file : gopath) (v : data P) (w : world)
  : option error * world :=
  match file with
  | None => (Some errNeedFile, w)
  | Some _ =>
      match os.Create file w with
      | (Err err, w1) => (Some err, w1)
      | (Ok f, w1) =>
          match v with
          | aDevices devices =>
              let typedDevices := map typedDevice devices in
              match Marshal (json_TypedDevices P) typedDevices with
              | Err err =>
                  (Some (wrapError "Could not marshal devices: " err), w1)
              | Ok jsonOut =>
                  match os.Write f jsonOut w1 with
                  | ((_, Some err), w2) => (Some err, w2)
                  | ((_, None), w2) => (None, w2)
                  end
              end
          | _ =>
              (Some (errorString
                       "Incorrect data type received, Expected []Device"), w1)
          end
      end
  end.

(** The loop of [fetchDeviceFile] over the envelopes, [tempDevices] being
    the devices decoded so far. *)
Fixpoint decodeDevices (typedDevices : list TypedDevice)
    (tempDevices : list (Device P)) : result (list (Device P)) :=
  match typedDevices with
  | [] => Ok tempDevices
  | d :: rest =>
      if String.eqb (Type_ d) (DeviceVFIO P) then
        match Unmarshal (json_VFIODevice P) (Data d) with
        | Err err => Err err
        | Ok device =>
            decodeDevices rest (tempDevices ++ [ofVFIODevice P device])
        end
      else if String.eqb (Type_ d) (DeviceBlock P) then
        match Unmarshal (json_BlockDevice P) (Data d) with
        | Err err => Err err
        | Ok device =>
            decodeDevices rest (tempDevices ++ [ofBlockDevice P device])
        end
      else if String.eqb (Type_ d) (DeviceGeneric P) then
        match Unmarshal (json_GenericDevice P) (Data d) with
        | Err err => Err err
        | Ok device =>
            decodeDevices rest (tempDevices ++ [ofGenericDevice P device])
        end
      else Err errUnknownDevice
  end.

Definition fetchDeviceFile (fileData : bytes) : result (list (Device P)) :=
  match Unmarshal (json_TypedDevices P) fileData with
  | Err err => Err err
  | Ok typedDevices => decodeDevices typedDevices []
  end.

Definition fetchFile (file : gopath) (resource : sandboxResource)
    (t : target) (w : world) : result (data P) :=
  match file with
  | None => Err errNeedFile
  | Some _ =>
      match ioutil.ReadFile file w with
      | Err err => Err err
      | Ok fileData =>
          if is_case resource [devicesFileType] then
            match t with
            | toDevices => result_map aDevices (fetchDeviceFile fileData)
            | _ => Err (errorString "Could not cast data into *[]Device type")
            end
          else json_Unmarshal fileData t
      end
  end.

Definition storeSandboxAndContainerConfigResource (sandboxSpecific : bool)
    (sandboxID containerID : string) (resource : sandboxResource)
    (file : data P) (w : world) : option error * world :=
  if negb (resource =? configFileType) then (Some errInvalidResource, w)
  else
    let '(configFile, _, err) :=
      resourceURI sandboxSpecific sandboxID containerID configFileType in
    match err with
    | Some err => (Some err, w)
    | None => storeFile configFile file w
    end.

Definition storeStateResource (sandboxSpecific : bool)
    (sandboxID containerID : string) (resource : sandboxResource)
    (file : data P) (w : world) : option error * world :=
  if negb (resource =? stateFileType) then (Some errInvalidResource, w)
  else
    let '(stateFile, _, err) :=
      resourceURI sandboxSpecific sandboxID containerID stateFileType in
    match err with
    | Some err => (Some err, w)
    | None => storeFile stateFile file w
    end.

(** The network file is a sandbox-only resource: the URI is resolved
    with [true] whatever [sandboxSpecific] is. *)
Definition storeNetworkResource (sandboxSpecific : bool)
    (sandboxID containerID : string) (resource : sandboxResource)
    (file : data P) (w : world) : option error * world :=
  if negb (resource =? networkFileType) then (Some errInvalidResource, w)
  else
    let '(networkFile, _, err) :=
      resourceURI true sandboxID containerID networkFileType in
    match err with
    | Some err => (Some err, w)
    | None => storeFile networkFile file w
    end.

Definition storeProcessResource (sandboxSpecific : bool)
    (sandboxID containerID : string) (resource : sandboxResource)
    (file : data P) (w : world) : option error * world :=
  if negb (resource =? processFileType) then (Some errInvalidResource, w)
  else
    let '(processFile, _, err) :=
      resourceURI sandboxSpecific sandboxID containerID processFileType in
    match err with
    | Some err => (Some err, w)
    | None => storeFile processFile file w
    end.

Definition storeMountResource (sandboxSpecific : bool)
    (sandboxID containerID : string) (resource : sandboxResource)
    (file : data P) (w : world) : option error * world :=
  if negb (resource =? mountsFileType) then (Some errInvalidResource, w)
  else
    let '(mountsFile, _, err) :=
      resourceURI sandboxSpecific sandboxID containerID mountsFileType in
    match err with
    | Some err => (Some err, w)
    | None => storeFile mountsFile file w
    end.

Definition storeDeviceResource (sandboxSpecific : bool)
    (sandboxID containerID : string) (resource : sandboxResource)
    (file : data P) (w : world) : option error * world :=
  if negb (resource =? devicesFileType) then (Some errInvalidResource, w)
  else
    let '(devicesFile, _, err) :=
      resourceURI sandboxSpecific sandboxID containerID devicesFileType in
    match err with
    | Some err => (Some err, w)
    | None => storeDeviceFile devicesFile file w
    end.

(** The type switch of [storeResource] on the dynamic type of [data]. *)
Definition storeResource (sandboxSpecific : bool)
    (sandboxID containerID : string) (resource : sandboxResource)
    (v : data P) (w : world) : option error * world :=
  match commonResourceChecks sandboxSpecific sandboxID containerID resource with
  | Some err => (Some err, w)
  | None =>
      match v with
      | aSandboxConfig _ | aContainerConfig _ =>
          storeSandboxAndContainerConfigResource
            sandboxSpecific sandboxID containerID resource v w
      | aState _ =>
          storeStateResource sandboxSpecific sandboxID containerID resource v w
      | aNetworkNamespace _ =>
          storeNetworkResource sandboxSpecific sandboxID containerID resource v w
      | aProcess _ =>
          storeProcessResource sandboxSpecific sandboxID containerID resource v w
      | aMounts _ =>
          storeMountResource sandboxSpecific sandboxID containerID resource v w
      | aDevices _ =>
          storeDeviceResource sandboxSpecific sandboxID containerID resource v w
      | anOpaque _ => (Some (errorString "Invalid resource data type"), w)
      end
  end.

Definition fetchResource (sandboxSpecific : bool)
    (sandboxID containerID : string) (resource : sandboxResource)
    (t : target) (w : world) : result (data P) :=
  match commonResourceChecks sandboxSpecific sandboxID containerID resource with
  | Some err => Err err
  | None =>
      let '(path, _, err) :=
        resourceURI sandboxSpecific sandboxID containerID resource in
      match err with
      | Some err => Err err
      | None => fetchFile path resource t w
      end
  end.

Definition storeSandboxResource (sandboxID : string)
    (resource : sandboxResource) (v : data P) (w : world)
  : option error * world :=
  storeResource true sandboxID "" resource v w.

Definition storeContainerResource (sandboxID containerID : string)
    (resource : sandboxResource) (v : data P) (w : world)
  : option error * world :=
  if decide (sandboxID = "") then (Some errNeedSandboxID, w)
  else if decide (containerID = "") then (Some errNeedContainerID, w)
  else storeResource false sandboxID containerID resource v w.

Definition fetchSandboxConfig (sandboxID : string) (w : world)
  : result (data P) :=
  fetchResource true sandboxID "" configFileType toSandboxConfig w.

Definition fetchSandboxState (sandboxID : string) (w : world)
  : result (data P) :=
  fetchResource true sandboxID "" stateFileType toState w.

Definition fetchSandboxNetwork (sandboxID : string) (w : world)
  : result (data P) :=
  fetchResource true sandboxID "" networkFileType toNetworkNamespace w.

Definition fetchHypervisorState (sandboxID : string) (state : target)
    (w : world) : result (data P) :=
  fetchResource true sandboxID "" hypervisorFileType state w.

Definition fetchAgentState (sandboxID : string) (state : target)
    (w : world) : result (data P) :=
  fetchResource true sandboxID "" agentFileType state w.

Definition storeSandboxNetwork (sandboxID : string)
    (networkNS : NetworkNamespace P) (w : world) : option error * world :=
  storeSandboxResource sandboxID networkFileType (aNetworkNamespace networkNS) w.

Definition storeHypervisorState (sandboxID : string) (state : data P)
    (w : world) : option error * world :=
  let '(hypervisorFile, _, err) :=
    resourceURI true sandboxID "" hypervisorFileType in
  match err with
  | Some err => (Some err, w)
  | None => storeFile hypervisorFile state w
  end.

Definition storeAgentState (sandboxID : string) (state : data P)
    (w : world) : option error * world :=
  let '(agentFile, _, err) := resourceURI true sandboxID "" agentFileType in
  match err with
  | Some err => (Some err, w)
  | None => storeFile agentFile state w
  end.

Definition fetchContainerConfig (sandboxID containerID : string) (w : world)
  : result (data P) :=
  fetchResource false sandboxID containerID configFileType toContainerConfig w.

Definition fetchContainerState (sandboxID containerID : string) (w : world)
  : result (data P) :=
  fetchResource false sandboxID containerID stateFileType toState w.

Definition fetchContainerProcess (sandboxID containerID : string) (w : world)
  : result (data P) :=
  fetchResource false sandboxID containerID processFileType toProcess w.

Definition storeContainerProcess (sandboxID containerID : string)
    (process : Process P) (w : world) : option error * world :=
  storeContainerResource sandboxID containerID processFileType
    (aProcess process) w.

Definition fetchContainerMounts (sandboxID containerID : string) (w : world)
  : result (data P) :=
  fetchResource false sandboxID containerID mountsFileType toMounts w.

Definition fetchContainerDevices (sandboxID containerID : string) (w : world)
  : result (data P) :=
  fetchResource false sandboxID containerID devicesFileType toDevices w.

Definition storeContainerMounts (sandboxID containerID : string)
    (mounts : list (Mount P)) (w : world) : option error * world :=
  storeContainerResource sandboxID containerID mountsFileType (aMounts mounts) w.

Definition storeContainerDevices (sandboxID containerID : string)
    (devices : list (Device P)) (w : world) : option error * world :=
  storeContainerResource sandboxID containerID devicesFileType
    (aDevices devices) w.

End Filesystem.

Arguments json_Marshal {P} v.
Arguments json_Unmarshal {P} fileData t.
Arguments storeFile {P} file v w.
Arguments typedDevice {P} d.
Arguments storeDeviceFile {P} file v w.
Arguments decodeDevices {P} typedDevices tempDevices.
Arguments fetchDeviceFile {P} fileData.
Arguments fetchFile {P} file resource t w.
Arguments storeResource {P} sandboxSpecific sandboxID containerID resource v w.
Arguments fetchResource {P} sandboxSpecific sandboxID containerID resource t w.
Arguments storeSandboxResource {P} sandboxID resource v w.
Arguments storeContainerResource {P} sandboxID containerID resource v w.

(** ** What a round trip through the store needs of the codec *)

Definition target_of {P : Package} (v : data P) : target :=
  match v with
  | aSandboxConfig _ => toSandboxConfig
  | aContainerConfig _ => toContainerConfig
  | aState _ => toState
  | aNetworkNamespace _ => toNetworkNamespace
  | aProcess _ => toProcess
  | aMounts _ => toMounts
  | aDevices _ => toDevices
  | anOpaque _ => toOpaque
  end.

(** The bytes the store writes for [v]: the envelopes for a device
    collection, the value itself otherwise. *)
Definition serialized {P : Package} (v : data P) : result bytes :=
  match v with
  | aDevices devices => Marshal (json_TypedDevices P) (map typedDevice devices)
  | _ => json_Marshal v
  end.

(** The codec reads back what it wrote for [v]. *)
Definition lossless {P : Package} (v : data P) : Prop :=
  forall b : bytes,
    serialized v = Ok b ->
    match v with
    | aDevices devices =>
        Unmarshal (json_TypedDevices P) b = Ok (map typedDevice devices)
    | _ => json_Unmarshal b (target_of v) = Ok v
    end.

(** Has [fetchDeviceFile] a decoder for the tag? *)
Definition recognised (P : Package) (tag : string) : bool :=
  String.eqb tag (DeviceVFIO P) || String.eqb tag (DeviceBlock P)
  || String.eqb tag (DeviceGeneric P).

(** The decoder that the tag of [d] selects turns [Data d] into [device]. *)
Definition decoded_by (P : Package) (d : TypedDevice) (device : Device P)
  : Prop :=
  if String.eqb (Type_ d) (DeviceVFIO P) then
    exists x, Unmarshal (json_VFIODevice P) (Data d) = Ok x
              /\ device = ofVFIODevice P x
  else if String.eqb (Type_ d) (DeviceBlock P) then
    exists x, Unmarshal (json_BlockDevice P) (Data d) = Ok x
              /\ device = ofBlockDevice P x
  else if String.eqb (Type_ d) (DeviceGeneric P) then
    exists x, Unmarshal (json_GenericDevice P) (Data d) = Ok x
              /\ device = ofGenericDevice P x
  else False.

(** The decoder that the tag of [d] selects rejects [Data d] with [err]. *)
Definition rejected_by (P : Package) (d : TypedDevice) (err : error) : Prop :=
  if String.eqb (Type_ d) (DeviceVFIO P) then
    Unmarshal (json_VFIODevice P) (Data d) = Err err
  else if String.eqb (Type_ d) (DeviceBlock P) then
    Unmarshal (json_BlockDevice P) (Data d) = Err err
  else if String.eqb (Type_ d) (DeviceGeneric P) then
    Unmarshal (json_GenericDevice P) (Data d) = Err err
  else False.

(** Every device of a collection carries a tag with a decoder, and that
    decoder restores the device from the bytes stored for it. *)
Definition restorable {P : Package} (v : data P) : Prop :=
  match v with
  | aDevices devices =>
      Forall (fun d => decoded_by P (typedDevice d) d) devices
  | _ => True
  end.

(** ** filesystem.go: deleting and creating a sandbox's directories *)

(** The loop of [deleteSandboxResources]. *)
Fixpoint removeSandboxDirs (sandboxID : string)
    (resources : list sandboxResource) (w : world) : option error * world :=
  match resources with
  | [] => (None, w)
  | resource :: rest =>
      let '(_, dir, err) := sandboxURI sandboxID resource in
      match err with
      | Some err => (Some err, w)
      | None =>
          match os.RemoveAll dir w with
          | (Some err, w') => (Some err, w')
          | (None, w') => removeSandboxDirs sandboxID rest w'
          end
      end
  end.

(** [resources] is a Go slice: [None] is the [nil] slice, [Some []] an
    empty slice that is not [nil]. *)
Definition deleteSandboxResources (sandboxID : string)
    (resources : option (list sandboxResource)) (w : world)
  : option error * world :=
  let resources :=
    match resources with
    | None => [configFileType; stateFileType]
    | Some l => l
    end in
  removeSandboxDirs sandboxID resources w.

(** The loop of [deleteContainerResources]. *)
Fixpoint removeContainerDirs (sandboxID containerID : string)
    (resources : list sandboxResource) (w : world) : option error * world :=
  match resources with
  | [] => (None, w)
  | resource :: rest =>
      let '(_, dir, err) := sandboxURI sandboxID resource in
      match err with
      | Some err => (Some err, w)
      | None =>
          let containerDir := filepath.JoinTo dir [containerID; "/"] in
          match os.RemoveAll containerDir w with
          | (Some err, w') => (Some err, w')
          | (None, w') => removeContainerDirs sandboxID containerID rest w'
          end
      end
  end.

Definition deleteContainerResources (sandboxID containerID : string)
    (resources : option (list sandboxResource)) (w : world)
  : option error * world :=
  let resources :=
    match resources with
    | None => [configFileType; stateFileType]
    | Some l => l
    end in
  removeContainerDirs sandboxID containerID resources w.

(** Modelled from the spec: the [Container] struct, declared outside the
    sources at hand; a container has an identity [id], unique within its
    sandbox, which is all that the store reads of it. *)
Record Container := {
  Container_id : string;
}.

(** Modelled from the spec: the [Sandbox] struct, declared outside the
    sources at hand; a sandbox has an identity [id] and a collection of
    containers, which [createAllResources] ranges over. *)
Record Sandbox := {
  Sandbox_id : string;
  containers : list Container;
}.

(** First loop of [createAllResources]: the sandbox's own directories.
    The error of [sandboxURI] is dropped; the empty path it leaves makes
    [os.MkdirAll] fail. *)
Fixpoint createSandboxDirs (sandbox : Sandbox)
    (resources : list sandboxResource) (w : world) : option error * world :=
  match resources with
  | [] => (None, w)
  | resource :: rest =>
      let '(_, path, _) := sandboxURI (Sandbox_id sandbox) resource in
      match os.MkdirAll path w with
      | (Some err, w') => (Some err, w')
      | (None, w') => createSandboxDirs sandbox rest w'
      end
  end.

(** Inner loop of the second loop: one container's directories, with the
    removal of the sandbox's resources when one cannot be made. *)
Fixpoint createContainerDirs (sandbox : Sandbox) (container : Container)
    (resources : list sandboxResource) (w : world) : option error * world :=
  match resources with
  | [] => (None, w)
  | resource :: rest =>
      let '(_, path, _) :=
        containerURI (Sandbox_id sandbox) (Container_id container) resource in
      match os.MkdirAll path w with
      | (Some err, w') =>
          let '(_, w'') := deleteSandboxResources (Sandbox_id sandbox) None w' in
          (Some err, w'')
      | (None, w') => createContainerDirs sandbox container rest w'
      end
  end.

Fixpoint createAllContainerDirs (sandbox : Sandbox) (cs : list Container)
    (w : world) : option error * world :=
  match cs with
  | [] => (None, w)
  | container :: rest =>
      match createContainerDirs sandbox container
              [stateFileType; configFileType] w with
      | (Some err, w') => (Some err, w')
      | (None, w') => createAllContainerDirs sandbox rest w'
      end
  end.

Definition createAllResources (sandbox : Sandbox) (w : world)
  : option error * world :=
  match createSandboxDirs sandbox [stateFileType; configFileType] w with
  | (Some err, w1) => (Some err, w1)
  | (None, w1) =>
      match createAllContainerDirs sandbox (containers sandbox) w1 with
      | (Some err, w2) => (Some err, w2)
      | (None, w2) =>
          let '(sandboxlockFile, _, err) :=
            sandboxURI (Sandbox_id sandbox) lockFileType in
          match err with
          | Some err =>
              let '(_, w3) :=
                deleteSandboxResources (Sandbox_id sandbox) None w2 in
              (Some err, w3)
          | None =>
              match os.Stat sandboxlockFile w2 with
              | Some _ =>
                  match os.Create sandboxlockFile w2 with
                  | (Err err, w3) =>
                      let '(_, w4) :=
                        deleteSandboxResources (Sandbox_id sandbox) None w3 in
                      (Some err, w4)
                  | (Ok lockFile, w3) => (None, w3)
                  end
              | None => (None, w2)
              end
          end
      end
  end.

(** ** agent.go *)

Definition AgentType := string.

Definition NoopAgentType : AgentType := "noop".
Definition HyperstartAgent : AgentType := "hyperstart".
Definition KataContainersAgent : AgentType := "kata".

(** [AgentType.Set], on a pointer receiver: the new value of the receiver
    and the error. *)
Definition AgentType_Set (agentType : AgentType) (value : string)
  : AgentType * option error :=
  if String.eqb value "noop" then (NoopAgentType, None)
  else if String.eqb value "hyperstart" then (HyperstartAgent, None)
  else if String.eqb value "kata" then (KataContainersAgent, None)
  else (agentType, Some (errorString ("Unknown agent type " ++ value))).

(** [AgentType.String] *)
Definition AgentType_String (agentType : AgentType) : string :=
  if String.eqb agentType NoopAgentType then NoopAgentType
  else if String.eqb agentType HyperstartAgent then HyperstartAgent
  else if String.eqb agentType KataContainersAgent then KataContainersAgent
  else "".

(** A call of one of the methods of the [agent] interface whose only
    result is an [error]. *)
Inductive agentCall :=
  | init
  | check
  | disconnect
  | createSandbox
  | startSandbox
  | stopSandbox
  | cleanupSandbox
  | startContainer (c : Container)
  | stopContainer (c : Container)
  | signalProcess (c : Container) (processID : string) (signal : Z) (all : bool)
  | winsizeProcess (c : Container) (processID : string) (height width : Z)
  | updateContainer (c : Container)
  | onlineCPUMem (cpus : Z)
  | pauseContainer (c : Container)
  | resumeContainer (c : Container).

(** An implementation of the [agent] interface acting on a guest of state
    [G]: the error-only methods, and the four stream primitives that
    iostream.go calls.  A read receives the buffer and returns the buffer
    as it is left and the count. *)
Record agent (G : Type) := {
  lifecycle : agentCall -> G -> option error * G;
  writeProcessStdin :
    Container -> string -> bytes -> G -> (nat * option error) * G;
  closeProcessStdin : Container -> string -> G -> option error * G;
  readProcessStdout :
    Container -> string -> bytes -> G -> (bytes * nat * option error) * G;
  readProcessStderr :
    Container -> string -> bytes -> G -> (bytes * nat * option error) * G;
}.
Arguments lifecycle {G} _ _ _.
Arguments writeProcessStdin {G} _ _ _ _ _.
Arguments closeProcessStdin {G} _ _ _ _.
Arguments readProcessStdout {G} _ _ _ _ _.
Arguments readProcessStderr {G} _ _ _ _ _.

(** Modelled from the spec: the methods of [noopAgent], whose file is not
    among the sources; the spec calls it the no-op agent used for testing:
    every method returns success and leaves the guest as it is. *)
Definition noopAgent {G : Type} : agent G := {|
  lifecycle := fun _ g => (None, g);
  writeProcessStdin := fun _ _ _ g => ((0%nat, None), g);
  closeProcessStdin := fun _ _ g => (None, g);
  readProcessStdout := fun _ _ data g => ((data, 0%nat, None), g);
  readProcessStderr := fun _ _ data g => ((data, 0%nat, None), g);
|}.

Section Agent.

Variable G : Type.
(** [&hyper{}] and [&kataAgent{}], implemented outside agent.go *)
Variables hyper kataAgent : agent G.

Definition newAgent (agentType : AgentType) : agent G :=
  if String.eqb agentType NoopAgentType then noopAgent
  else if String.eqb agentType HyperstartAgent then hyper
  else if String.eqb agentType KataContainersAgent then kataAgent
  else noopAgent.

(** [config.AgentConfig], the two agent configuration structs and
    [mapstructure.Decode] into each of them *)
Variables AgentConfig HyperConfig KataAgentConfig : Type.
Variable mapstructure_Decode_Hyper : AgentConfig -> result HyperConfig.
Variable mapstructure_Decode_Kata : AgentConfig -> result KataAgentConfig.

(** The [interface{}] that [newAgentConfig] returns. *)
Inductive agentConfig :=
  | nilConfig
  | errorAsConfig (err : error)
  | aHyperConfig (c : HyperConfig)
  | aKataAgentConfig (c : KataAgentConfig).

Definition newAgentConfig (config_AgentType : AgentType)
    (config_AgentConfig : AgentConfig) : agentConfig :=
  if String.eqb config_AgentType NoopAgentType then nilConfig
  else if String.eqb config_AgentType HyperstartAgent then
    match mapstructure_Decode_Hyper config_AgentConfig with
    | Err err => errorAsConfig err
    | Ok hyperConfig => aHyperConfig hyperConfig
    end
  else if String.eqb config_AgentType KataContainersAgent then
    match mapstructure_Decode_Kata config_AgentConfig with
    | Err err => errorAsConfig err
    | Ok kataAgentConfig => aKataAgentConfig kataAgentConfig
    end
  else nilConfig.

End Agent.

Arguments newAgent {G} hyper kataAgent agentType.

(** ** iostream.go

    The three stream types embed a pointer to one [iostream]; the
    [iostream] objects live in a heap indexed by address, next to the state
    of the guest that the agents drive. *)

Record iostream := {
  sandbox : Sandbox;
  container : Container;
  process : string;
  closed : bool;
}.

Record stdinStream := { stdin_iostream : positive }.
Record stdoutStream := { stdout_iostream : positive }.
Record stderrStream := { stderr_iostream : positive }.

Record streams (G : Type) := Streams {
  heap : gmap positive iostream;
  guest : G;
}.
Arguments Streams {G} heap guest.
Arguments heap {G} _.
Arguments guest {G} _.

Definition errStreamClosed : error := errorString "stream closed".

Section IOStream.

Variable G : Type.
(** [sandbox.agent] *)
Variable agent_of : Sandbox -> agent G.

(** Allocates the [iostream] and returns its address. *)
Definition newIOStream (s : Sandbox) (c : Container) (proc : string)
    (st : streams G) : positive * streams G :=
  let l := fresh (dom (heap st)) in
  (l, Streams (<[l := {| sandbox := s; container := c; process := proc;
                         closed := false |}]> (heap st)) (guest st)).

Definition stdin (s : positive) : stdinStream := {| stdin_iostream := s |}.
Definition stdout (s : positive) : stdoutStream := {| stdout_iostream := s |}.
Definition stderr (s : positive) : stderrStream := {| stderr_iostream := s |}.

(** The methods return [None] when the embedded pointer refers to no
    [iostream] (a nil dereference). *)
Definition stdinStream_Write (s : stdinStream) (data : bytes)
    (st : streams G) : option ((nat * option error) * streams G) :=
  match heap st !! stdin_iostream s with
  | None => None
  | Some io =>
      if closed io then Some ((0%nat, Some errStreamClosed), st)
      else
        let '(r, g) :=
          writeProcessStdin (agent_of (sandbox io)) (container io)
            (process io) data (guest st) in
        Some (r, Streams (heap st) g)
  end.

Definition stdinStream_Close (s : stdinStream) (st : streams G)
  : option (option error * streams G) :=
  match heap st !! stdin_iostream s with
  | None => None
  | Some io =>
      if closed io then Some (Some errStreamClosed, st)
      else
        let '(err, g) :=
          closeProcessStdin (agent_of (sandbox io)) (container io)
            (process io) (guest st) in
        match err with
        | None =>
            Some (None,
                  Streams (<[stdin_iostream s :=
                               {| sandbox := sandbox io;
                                  container := container io;
                                  process := process io;
                                  closed := true |}]> (heap st)) g)
        | Some _ => Some (err, Streams (heap st) g)
        end
  end.

Definition stdoutStream_Read (s : stdoutStream) (data : bytes)
    (st : streams G) : option ((bytes * nat * option error) * streams G) :=
  match heap st !! stdout_iostream s with
  | None => None
  | Some io =>
      if closed io then Some ((data, 0%nat, Some errStreamClosed), st)
      else
        let '(r, g) :=
          readProcessStdout (agent_of (sandbox io)) (container io)
            (process io) data (guest st) in
        Some (r, Streams (heap st) g)
  end.

Definition stderrStream_Read (s : stderrStream) (data : bytes)
    (st : streams G) : option ((bytes * nat * option error) * streams G) :=
  match heap st !! stderr_iostream s with
  | None => None
  | Some io =>
      if closed io then Some ((data, 0%nat, Some errStreamClosed), st)
      else
        let '(r, g) :=
          readProcessStderr (agent_of (sandbox io)) (container io)
            (process io) data (guest st) in
        Some (r, Streams (heap st) g)
  end.

(** The stream object at [l] exists and is closed. *)
Definition closed_at (l : positive) (st : streams G) : Prop :=
  exists io, heap st !! l = Some io /\ closed io = true.

(** A call a client of iostream.go can make. *)
Inductive streamCall :=
  | callNew (s : Sandbox) (c : Container) (proc : string)
  | callWrite (s : stdinStream) (data : bytes)
  | callClose (s : stdinStream)
  | callReadStdout (s : stdoutStream) (data : bytes)
  | callReadStderr (s : stderrStream) (data : bytes).

(** The state a call leaves; [None] when it panics. *)
Definition call_state (c : streamCall) (st : streams G)
  : option (streams G) :=
  match c with
  | callNew s c proc => Some (newIOStream s c proc st).2
  | callWrite s data => snd <$> stdinStream_Write s data st
  | callClose s => snd <$> stdinStream_Close s st
  | callReadStdout s data => snd <$> stdoutStream_Read s data st
  | callReadStderr s data => snd <$> stderrStream_Read s data st
  end.

Fixpoint calls_state (cs : list streamCall) (st : streams G)
  : option (streams G) :=
  match cs with
  | [] => Some st
  | c :: cs' =>
      match call_state c st with
      | None => None
      | Some st' => calls_state cs' st'
      end
  end.

End IOStream.

Arguments newIOStream {G} s c proc st.
Arguments stdinStream_Write {G} agent_of s data st.
Arguments stdinStream_Close {G} agent_of s st.
Arguments stdoutStream_Read {G} agent_of s data st.
Arguments stderrStream_Read {G} agent_of s data st.
Arguments closed_at {G} l st.
Arguments call_state {G} agent_of c st.
Arguments calls_state {G} agent_of cs st.

(** ** A concrete package to run the model on

    The structs are small stand-ins, and the codec is a real printer and
    parser of S-expression text, used where the program uses encoding/json. *)

Module Demo.

Definition text_codec (A : Type) `{Serialize A} `{Deserialize A} : Codec A :=
  {| Marshal := fun a => Ok (list_byte_of_string (to_string a));
     Unmarshal := fun b =>
       match from_string (string_of_list_byte b) with
       | inr a => Ok a
       | inl _ => Err (foreignError "json" 1)
       end |}.
Arguments text_codec A {_ _}.

(** Devices: three driver structs of one field each, and a fourth
    implementation of the interface with a tag of its own. *)
Inductive device :=
  | vfio (bdf : string)
  | block (path : string)
  | generic (path : string)
  | vhostuser (socket : string).

Definition deviceType (d : device) : string :=
  match d with
  | vfio _ => "vfio"
  | block _ => "block"
  | generic _ => "generic"
  | vhostuser _ => "vhost-user-net"
  end.

Definition device_field (d : device) : string :=
  match d with
  | vfio s | block s | generic s | vhostuser s => s
  end.

#[local] Instance Serialize_device : Serialize device :=
  fun d => to_sexp (device_field d).

#[local] Instance Deserialize_device : Deserialize device :=
  fun l e => match _from_sexp l e with
             | inr s => inr (generic s)
             | inl err => inl err
             end.

#[local] Instance Serialize_TypedDevice : Serialize TypedDevice :=
  fun d => to_sexp (Type_ d, string_of_list_byte (Data d)).

#[local] Instance Deserialize_TypedDevice : Deserialize TypedDevice :=
  fun l e => match _from_sexp l e with
             | inr (t, d) => inr {| Type_ := t; Data := list_byte_of_string d |}
             | inl err => inl err
             end.

Definition package : Package := {|
  SandboxConfig := string;
  ContainerConfig := string;
  State := string;
  NetworkNamespace := string;
  Process := Z;
  Mount := string * string;
  Opaque := Z;
  Device := device;
  DeviceType := deviceType;
  VFIODevice := string;
  BlockDevice := string;
  GenericDevice := string;
  ofVFIODevice := vfio;
  ofBlockDevice := block;
  ofGenericDevice := generic;
  DeviceVFIO := "vfio";
  DeviceBlock := "block";
  DeviceGeneric := "generic";
  json_SandboxConfig := text_codec string;
  json_ContainerConfig := text_codec string;
  json_State := text_codec string;
  json_NetworkNamespace := text_codec string;
  json_Process := text_codec Z;
  json_Mounts := text_codec (list (string * string));
  json_Opaque := text_codec Z;
  json_Device := text_codec device;
  json_Devices := text_codec (list device);
  json_VFIODevice := text_codec string;
  json_BlockDevice := text_codec string;
  json_GenericDevice := text_codec string;
  json_TypedDevices := text_codec (list TypedDevice);
|}.

(** A sandbox with one container, and the world after its directories
    were created on an empty device of 4096 bytes. *)
Definition s1 : Sandbox :=
  {| Sandbox_id := "s1"; containers := [ {| Container_id := "c1" |} ] |}.

Definition empty_world (capacity : nat) : world := World ∅ capacity.

Definition w1 : world := (createAllResources s1 (empty_world 4096)).2.

(** The same tree on a device that is full. *)
Definition w1_full : world := World (nodes w1) 0.

(** A device collection with one device of each driver, and one with a
    device of the fourth implementation. *)
Definition three_devices : list device :=
  [vfio "0000:01:00.0"; block "/dev/vda"; generic "/dev/null"].

Definition four_devices : list device :=
  three_devices ++ [vhostuser "/run/vhost.sock"].

(** The values stored in the examples. *)
Definition running : data package := @aState package "running".

Definition devices3 : data package := @aDevices package three_devices.

Definition devices4 : data package := @aDevices package four_devices.

(** [w1] after the three devices were stored for [c1]. *)
Definition w_three : world :=
  (storeContainerResource "s1" "c1" devicesFileType devices3 w1).2.

(** The envelopes of the three devices and the text of their file. *)
Definition three_envelopes : list TypedDevice :=
  map (typedDevice (P:=package)) three_devices.

Definition three_fileData : bytes :=
  list_byte_of_string (to_string three_envelopes).

(** A world in which a regular file sits where the configuration
    directory of [s1] belongs. *)
Definition w_blocked : world :=
  (os.Create (Some ["var"; "lib"; "vc"; "sbs"; "s1"])
     (os.MkdirAll (Some ["var"; "lib"; "vc"; "sbs"]) (empty_world 4096)).2).2.

(** The text of a devices file of two envelopes: a [vfio] envelope whose
    data is a number, which the decoder of that driver rejects, followed by
    an envelope with a tag that has no decoder. *)
Definition odd_envelopes : list TypedDevice :=
  [ {| Type_ := "vfio"; Data := list_byte_of_string "12" |};
    {| Type_ := "nvme"; Data := list_byte_of_string "0" |} ].

Definition odd_fileData : bytes :=
  list_byte_of_string (to_string odd_envelopes).

(** [w1] with that text as the devices file of [c1]. *)
Definition w_odd : world :=
  World (<[ ["run"; "vc"; "sbs"; "s1"; "c1"; "devices.json"]
            := IsFile odd_fileData ]> (nodes w1)) 4096.

(** Streams: the guest has no state of its own and every sandbox runs the
    no-op agent. *)
Definition agent_of (s : Sandbox) : agent unit := noopAgent.

Definition no_streams : streams unit := Streams ∅ tt.

Definition c1 : Container := {| Container_id := "c1" |}.

(** The stream object of the process [init] of [c1], and the state once
    it is allocated. *)
Definition init_stream : positive := (newIOStream s1 c1 "init" no_streams).1.

Definition streams_open : streams unit :=
  (newIOStream s1 c1 "init" no_streams).2.

(** The state after [stdin] of that process was closed. *)
Definition streams_closed : streams unit :=
  match stdinStream_Close agent_of (stdin init_stream) streams_open with
  | Some (_, st) => st
  | None => streams_open
  end.

(** An agent whose guest refuses to close a stdin as many times as its
    state says, and accepts afterwards. *)
Definition flaky : agent nat := {|
  lifecycle := fun _ g => (None, g);
  writeProcessStdin := fun _ _ data g => ((length data, None), g);
  closeProcessStdin := fun _ _ g =>
    match g with
    | O => (None, O)
    | S g' => (Some (foreignError "agent" 1), g')
    end;
  readProcessStdout := fun _ _ data g => ((data, 0%nat, None), g);
  readProcessStderr := fun _ _ data g => ((data, 0%nat, None), g);
|}.

Definition flaky_of (s : Sandbox) : agent nat := flaky.

(** The stream of [init] allocated next to a guest that refuses once. *)
Definition streams_flaky : streams nat :=
  (newIOStream s1 c1 "init" (Streams ∅ 1%nat)).2.

End Demo.

(** ** Values and inputs of the further properties *)

(** The kind under which [storeResource] writes a value of each dynamic
    type: the one that the writer its type switch selects lets through.
    A value of any other type has none. *)
Definition kind_of {P : Package} (v : data P) : option sandboxResource :=
  match v with
  | aSandboxConfig _ | aContainerConfig _ => Some configFileType
  | aState _ => Some stateFileType
  | aNetworkNamespace _ => Some networkFileType
  | aProcess _ => Some processFileType
  | aMounts _ => Some mountsFileType
  | aDevices _ => Some devicesFileType
  | anOpaque _ => None
  end.

(** ** agent.go: the options of a process listing, and cli/ps.go *)

(** [ProcessListOptions] of agent.go. *)
Record ProcessListOptions := {
  Format : string;
  Args : list string;
}.

Section PS.

(** What the virtcontainers API acts on, and the values of
    [vc.ContainerStatus], declared outside the sources at hand, with the
    two fields [ps] reads: [status.ID] and [status.State.State]. *)
Variables V ContainerStatus : Type.
Variable status_ID : ContainerStatus -> string.
Variable status_State : ContainerStatus -> string.
(** [vc.StateRunning] *)
Variable StateRunning : string.
(** [getExistingContainerInfo] and [vci.ProcessListContainer] *)
Variable getExistingContainerInfo :
  string -> V -> result (ContainerStatus * string) * V.
Variable ProcessListContainer :
  string -> string -> ProcessListOptions -> V -> result bytes * V.

(** The state [ps] runs in: the API's and what was printed so far. *)
Record console := Console {
  api : V;
  printed : list bytes;
}.

Definition ps (containerID format : string) (args : list string)
    (st : console) : option error * console :=
  if decide (containerID = "") then
    (Some (errorString "Missing container ID"), st)
  else
    match getExistingContainerInfo containerID (api st) with
    | (Err err, v1) => (Some err, Console v1 (printed st))
    | (Ok (status, sandboxID), v1) =>
        let containerID := status_ID status in
        if negb (String.eqb (status_State status) StateRunning) then
          (Some (errorString
                   ("Container " ++ containerID ++ " is not running")),
           Console v1 (printed st))
        else
          let options_Args :=
            if decide (length args = 0%nat) then ["-ef"] else args in
          let options := {| Format := format; Args := options_Args |} in
          match ProcessListContainer containerID sandboxID options v1 with
          | (Err err, v2) => (Some err, Console v2 (printed st))
          | (Ok msg, v2) => (None, Console v2 (printed st ++ [msg]))
          end
    end.

(** The [Action] of [psCLICommand], on the arguments of the command line
    and the value of the [format] flag. *)
Definition psCLICommand_Action (context_Args : list string)
    (context_format : string) (st : console) : option error * console :=
  match context_Args with
  | [] =>
      (Some (errorString "Missing container ID, should at least provide one"),
       st)
  | first :: rest => ps first context_format rest st
  end.

End PS.

(** ** More inputs to run the model on *)

Module Cases.

(** A sandbox whose only container has no identifier. *)
Definition s_nameless : Sandbox :=
  {| Sandbox_id := "s2"; containers := [ {| Container_id := "" |} ] |}.


(** A hypervisor state, of a type the store has no kind for, and the tree
    of the examples after it was stored for the sandbox. *)
Definition vm_state : data Demo.package := @anOpaque Demo.package 42.

Definition w_hypervisor : world :=
  (storeHypervisorState Demo.package "s1" vm_state Demo.w1).2.

(** The streams of the examples after the stream of [init] was closed and
    a stream was made for the process [sh] of the same container. *)
Definition streams_later : streams unit :=
  default Demo.streams_open
    (calls_state Demo.agent_of
       [callClose (stdin Demo.init_stream); callNew Demo.s1 Demo.c1 "sh"]
       Demo.streams_open).

End Cases.

(** ** A package whose encoder can fail *)

Module Strict.

(** The package of the examples, with an encoder of states that fails on
    every value, as encoding/json does on a value it does not support. *)
Definition package : Package := {|
  SandboxConfig := SandboxConfig Demo.package;
  ContainerConfig := ContainerConfig Demo.package;
  State := State Demo.package;
  NetworkNamespace := NetworkNamespace Demo.package;
  Process := Process Demo.package;
  Mount := Mount Demo.package;
  Opaque := Opaque Demo.package;
  Device := Device Demo.package;
  DeviceType := DeviceType Demo.package;
  VFIODevice := VFIODevice Demo.package;
  BlockDevice := BlockDevice Demo.package;
  GenericDevice := GenericDevice Demo.package;
  ofVFIODevice := ofVFIODevice Demo.package;
  ofBlockDevice := ofBlockDevice Demo.package;
  ofGenericDevice := ofGenericDevice Demo.package;
  DeviceVFIO := DeviceVFIO Demo.package;
  DeviceBlock := DeviceBlock Demo.package;
  DeviceGeneric := DeviceGeneric Demo.package;
  json_SandboxConfig := json_SandboxConfig Demo.package;
  json_ContainerConfig := json_ContainerConfig Demo.package;
  json_State :=
    {| Marshal := fun _ => Err (foreignError "json" 2);
       Unmarshal := Unmarshal (json_State Demo.package) |};
  json_NetworkNamespace := json_NetworkNamespace Demo.package;
  json_Process := json_Process Demo.package;
  json_Mounts := json_Mounts Demo.package;
  json_Opaque := json_Opaque Demo.package;
  json_Device := json_Device Demo.package;
  json_Devices := json_Devices Demo.package;
  json_VFIODevice := json_VFIODevice Demo.package;
  json_BlockDevice := json_BlockDevice Demo.package;
  json_GenericDevice := json_GenericDevice Demo.package;
  json_TypedDevices := json_TypedDevices Demo.package;
|}.

(** The tree of the examples after the state [running] was stored for the
    container, and a state this package cannot encode. *)
Definition w_running : world :=
  (storeContainerResource "s1" "c1" stateFileType Demo.running Demo.w1).2.

Definition stopped : data package := @aState package "stopped".

End Strict.

(** ** A container to list the processes of *)

Module PsDemo.

(** A status is an identifier and a state.  The lookup resolves any
    prefix of the one identifier it knows, as the runtime does for
    shortened identifiers, and the listing answers with the command line
    it was asked to run. *)
Definition lookup (containerID : string) (v : unit)
  : result ((string * string) * string) * unit :=
  if String.prefix containerID "c1-4f2a"
  then (Ok (("c1-4f2a", "running"), "s1"), v)
  else (Err (errorString "container not found"), v).

Definition list_processes (containerID sandboxID : string)
    (options : ProcessListOptions) (v : unit) : result bytes * unit :=
  (Ok (list_byte_of_string (String.concat " " ("ps" :: Args options))), v).

Definition ps : string -> string -> list string -> console unit ->
                option error * console unit :=
  ps unit (string * string) fst snd "running" lookup list_processes.

End PsDemo.

(** * Properties *)

Local Open Scope list_scope.

(** ** The model on concrete inputs *)

Example configStoragePath_eq : configStoragePath = ["var"; "lib"; "vc"; "sbs"].
Proof. reflexivity. Qed.

Example runStoragePath_eq : runStoragePath = ["run"; "vc"; "sbs"].
Proof. reflexivity. Qed.

Example Join_cleans :
  filepath.Join runStoragePath ["a/./b//c"; "../d"]
  = ["run"; "vc"; "sbs"; "a"; "b"; "d"].
Proof. reflexivity. Qed.

Example Join_stops_at_root :
  filepath.Join runStoragePath ["../../../.."; ""] = [].
Proof. reflexivity. Qed.

Example sandboxURI_state_s1 :
  sandboxURI "s1" stateFileType
  = (Some ["run"; "vc"; "sbs"; "s1"; "state.json"],
     Some ["run"; "vc"; "sbs"; "s1"], None).
Proof. reflexivity. Qed.

Example containerURI_config_c1 :
  containerURI "s1" "c1" configFileType
  = (Some ["var"; "lib"; "vc"; "sbs"; "s1"; "c1"; "config.json"],
     Some ["var"; "lib"; "vc"; "sbs"; "s1"; "c1"], None).
Proof. reflexivity. Qed.

Example sandboxURI_no_id :
  sandboxURI "" lockFileType = (None, None, Some errNeedSandboxID).
Proof. reflexivity. Qed.

Example resourceURI_unknown_kind :
  resourceURI true "s1" "" 9 = (None, None, Some errInvalidResource).
Proof. reflexivity. Qed.

Example createAllResources_s1 :
  createAllResources Demo.s1 (Demo.empty_world 4096)
  = (None,
     World (list_to_map
              [ (["run"], IsDir); (["run"; "vc"], IsDir);
                (["run"; "vc"; "sbs"], IsDir);
                (["run"; "vc"; "sbs"; "s1"], IsDir);
                (["run"; "vc"; "sbs"; "s1"; "c1"], IsDir);
                (["run"; "vc"; "sbs"; "s1"; "lock"], IsFile []);
                (["var"], IsDir); (["var"; "lib"], IsDir);
                (["var"; "lib"; "vc"], IsDir);
                (["var"; "lib"; "vc"; "sbs"], IsDir);
                (["var"; "lib"; "vc"; "sbs"; "s1"], IsDir);
                (["var"; "lib"; "vc"; "sbs"; "s1"; "c1"], IsDir) ]) 4096).
Proof. vm_compute. reflexivity. Qed.

Example createAllResources_twice :
  createAllResources Demo.s1 Demo.w1 = (None, Demo.w1).
Proof. vm_compute. reflexivity. Qed.

Example store_fetch_state :
  (storeContainerResource "s1" "c1" stateFileType Demo.running Demo.w1).1 = None
  /\ result_error
       (fetchContainerState Demo.package "s1" "c1"
          (storeContainerResource "s1" "c1" stateFileType Demo.running
             Demo.w1).2) = None.
Proof. vm_compute. by split. Qed.

Example store_state_as_config :
  storeContainerResource "s1" "c1" configFileType Demo.running Demo.w1
  = (Some errInvalidResource, Demo.w1).
Proof. vm_compute. reflexivity. Qed.

Example store_without_directories :
  (storeContainerResource "s2" "c1" stateFileType Demo.running Demo.w1).1
  = Some (PathError "open" ENOENT).
Proof. vm_compute. reflexivity. Qed.

Example fetch_never_stored :
  result_error (fetchContainerState Demo.package "s1" "c1" Demo.w1)
  = Some errNotExist.
Proof. vm_compute. reflexivity. Qed.

(** ** Switch cases *)

Lemma is_case_In (resource : sandboxResource) (cases : list sandboxResource) :
  is_case resource cases = true <-> In resource cases.
Proof.
  unfold is_case. rewrite existsb_exists. split.
  - intros (x & Hx & Heq). apply Z.eqb_eq in Heq. by subst.
  - intros H. exists resource. split; [done | apply Z.eqb_refl].
Qed.

Arguments is_case : simpl never.

(** Splits on which of the nine constants [r] is, if any. *)
Ltac case_resource r :=
  let go k := destruct (Z.eqb_spec r k); [subst r |] in
  go configFileType; [| go stateFileType; [| go networkFileType;
  [| go hypervisorFileType; [| go agentFileType; [| go processFileType;
  [| go lockFileType; [| go mountsFileType; [| go devicesFileType ]]]]]]]].

Ltac other_resource :=
  repeat match goal with
         | H : ?r <> ?k |- context [Z.eqb ?r ?k] =>
             rewrite (proj2 (Z.eqb_neq r k) H)
         end.

Lemma resourceNeedsContainerID_table (sandboxSpecific : bool)
    (resource : sandboxResource) :
  resourceNeedsContainerID sandboxSpecific resource =
  negb (is_case resource
          [lockFileType; networkFileType; hypervisorFileType; agentFileType])
  && negb sandboxSpecific.
Proof. unfold resourceNeedsContainerID. by destruct (is_case _ _). Qed.

(** The root a kind is stored under. *)
Lemma resourceDir_root (sandboxSpecific : bool) (sandboxID containerID : string)
    (resource : sandboxResource) (dir : pathname) :
  resourceDir sandboxSpecific sandboxID containerID resource = (Some dir, None) ->
  dir = filepath.Join
          (if resource =? configFileType then configStoragePath
           else runStoragePath) [sandboxID; containerID].
Proof.
  unfold resourceDir. destruct (decide _); [done |].
  destruct (_ && _); [done |].
  unfold is_case.
  case_resource resource; simpl; try congruence.
  other_resource. simpl. congruence.
Qed.

Lemma resourceDir_needs (sandboxSpecific : bool) (sandboxID : string)
    (resource : sandboxResource) :
  sandboxID <> "" ->
  resourceNeedsContainerID sandboxSpecific resource = true ->
  resourceDir sandboxSpecific sandboxID "" resource
  = (None, Some errNeedContainerID).
Proof.
  intros HS Hneed. unfold resourceDir.
  destruct (decide _); [done |]. by rewrite Hneed.
Qed.

Lemma resourceDir_error (sandboxSpecific : bool) (sandboxID containerID : string)
    (resource : sandboxResource) :
  (resourceDir sandboxSpecific sandboxID containerID resource).2
  = Some errNeedContainerID ->
  resourceNeedsContainerID sandboxSpecific resource = true /\ containerID = "".
Proof.
  unfold resourceDir. destruct (decide _); [done |].
  destruct (resourceNeedsContainerID _ _); simpl.
  - case_bool_decide; [by auto |]. simpl.
    repeat (destruct (is_case _ _); simpl; try done).
  - repeat (destruct (is_case _ _); simpl; try done).
Qed.

Lemma resourceURI_error (sandboxSpecific : bool) (sandboxID containerID : string)
    (resource : sandboxResource) :
  (resourceURI sandboxSpecific sandboxID containerID resource).2
  = Some errNeedContainerID ->
  resourceNeedsContainerID sandboxSpecific resource = true /\ containerID = "".
Proof.
  unfold resourceURI. destruct (decide _); [done |].
  pose proof (resourceDir_error sandboxSpecific sandboxID containerID resource) as H.
  destruct (resourceDir _ _ _ _) as [dir [err|]]; simpl in *;
    [by intros [= ->]; apply H |].
  by destruct (resourceFilename _).
Qed.

Lemma commonResourceChecks_error (sandboxSpecific : bool)
    (sandboxID containerID : string) (resource : sandboxResource) :
  commonResourceChecks sandboxSpecific sandboxID containerID resource
  = Some errNeedContainerID ->
  resourceNeedsContainerID sandboxSpecific resource = true /\ containerID = "".
Proof.
  unfold commonResourceChecks. destruct (decide _); [done |].
  destruct (resourceNeedsContainerID _ _); simpl.
  - case_bool_decide; [by auto |]. simpl. by destruct (is_case _ _).
  - by destruct (is_case _ _).
Qed.

(** Once the common checks pass, the URI of the kind resolves. *)
Lemma commonResourceChecks_URI (sandboxSpecific : bool)
    (sandboxID containerID : string) (resource : sandboxResource) :
  commonResourceChecks sandboxSpecific sandboxID containerID resource = None ->
  exists filename,
    resourceFilename resource = Some filename /\
    resourceURI sandboxSpecific sandboxID containerID resource =
    (Some (filepath.Join
             (filepath.Join
                (if resource =? configFileType then configStoragePath
                 else runStoragePath) [sandboxID; containerID]) [filename]),
     Some (filepath.Join
             (if resource =? configFileType then configStoragePath
              else runStoragePath) [sandboxID; containerID]), None).
Proof.
  unfold commonResourceChecks, resourceURI, resourceDir.
  destruct (decide _); [done |].
  destruct (_ && _); [done |].
  unfold resourceFilename, is_case.
  case_resource resource; simpl; try (intros _; eexists; split; reflexivity).
  other_resource. done.
Qed.

(** ** Errors of the file writers *)

Lemma Create_error (name : gopath) (w w1 : world) (err : error) :
  os.Create name w = (Err err, w1) -> file_error err /\ w1 = w.
Proof.
  unfold os.Create. destruct name as [p|]; [| by intros [= <- <-]].
  repeat case_match; intros [= <- <-]; done.
Qed.

Lemma Write_error (f : pathname) (b : bytes) (w w2 : world) (n : nat)
    (err : error) :
  os.Write f b w = ((n, Some err), w2) -> file_error err.
Proof.
  unfold os.Write. repeat case_match; intros [= <- <- <-]; done.
Qed.

Lemma storeFile_error (P : Package) (file : gopath) (v : data P)
    (w w' : world) (err : error) :
  storeFile file v w = (Some err, w') -> file_error err.
Proof.
  unfold storeFile. destruct file as [p|]; [| by intros [= <- <-]].
  destruct (os.Create _ _) as [[f|e] w1] eqn:HC.
  - destruct (json_Marshal v); [| by intros [= <- <-]].
    by destruct (os.Write _ _ _).
  - intros [= <- <-]. by apply Create_error in HC as [? _].
Qed.

Lemma storeDeviceFile_error (P : Package) (file : gopath) (v : data P)
    (w w' : world) (err : error) :
  storeDeviceFile file v w = (Some err, w') -> file_error err.
Proof.
  unfold storeDeviceFile. destruct file as [p|]; [| by intros [= <- <-]].
  destruct (os.Create _ _) as [[f|e] w1] eqn:HC.
  - destruct v; try by intros [= <- <-].
    destruct (Marshal _ _); [| by intros [= <- <-]].
    destruct (os.Write _ _ _) as [[n [e|]] w2] eqn:HW; [| done].
    intros [= <- <-]. by apply Write_error in HW.
  - intros [= <- <-]. by apply Create_error in HC as [? _].
Qed.

(** [storeResource] asks for a container id only through the common checks. *)
Lemma storeResource_error (P : Package) (sandboxSpecific : bool)
    (sandboxID containerID : string) (resource : sandboxResource)
    (v : data P) (w w' : world) :
  storeResource sandboxSpecific sandboxID containerID resource v w
  = (Some errNeedContainerID, w') ->
  resourceNeedsContainerID sandboxSpecific resource = true /\ containerID = "".
Proof.
  unfold storeResource.
  destruct (commonResourceChecks _ _ _ _) as [err|] eqn:Hchk.
  { intros [= -> <-]. by apply commonResourceChecks_error in Hchk. }
  assert (forall file, storeFile file v w <> (Some errNeedContainerID, w')) as HF.
  { intros file H. by apply storeFile_error in H. }
  assert (forall file, storeDeviceFile file v w <> (Some errNeedContainerID, w')) as HD.
  { intros file H. by apply storeDeviceFile_error in H. }
  destruct v; try done;
    unfold storeSandboxAndContainerConfigResource, storeStateResource,
      storeNetworkResource, storeProcessResource, storeMountResource,
      storeDeviceResource;
    match goal with
    | |- context [negb (?r =? ?k)] =>
        destruct (Z.eqb_spec r k) as [->|]; simpl; [| done]
    end;
    match goal with
    | |- context [resourceURI ?b ?s ?c ?r] =>
        pose proof (resourceURI_error b s c r) as HU;
        destruct (resourceURI b s c r) as [[file dir] [e|]]; simpl in HU
    end;
    try (intros H; by apply HF in H); try (intros H; by apply HD in H);
    intros [= -> <-]; destruct (HU eq_refl) as [Hn ->];
    try done;
    by (unfold commonResourceChecks in Hchk; destruct (decide _); [done |];
        rewrite Hn in Hchk).
Qed.

(** ** Which kinds need a container id *)

(** C7 (as amended).  With a sandbox id and no container id: the table
    [resourceNeedsContainerID] never asks for a container id for the lock,
    network, hypervisor and agent kinds and asks for one for every other
    kind unless the operation is sandbox-level; [resourceDir],
    [resourceURI], the common checks and [storeResource] fail with
    [errNeedContainerID] exactly when the table says so, and so does
    [fetchResource], which otherwise goes on to the other checks and to
    the file; the container-level entry points [containerURI] and
    [storeContainerResource] reject the empty container id for every kind;
    and the root a kind is stored under depends on the kind alone. *)
Theorem container_id_rule (sandboxSpecific : bool) (sandboxID : string)
    (resource : sandboxResource) :
  sandboxID <> "" ->
  resourceNeedsContainerID sandboxSpecific resource
  = negb (is_case resource
            [lockFileType; networkFileType; hypervisorFileType; agentFileType])
    && negb sandboxSpecific
  /\ (if resourceNeedsContainerID sandboxSpecific resource then
        resourceDir sandboxSpecific sandboxID "" resource
        = (None, Some errNeedContainerID)
        /\ resourceURI sandboxSpecific sandboxID "" resource
           = (None, None, Some errNeedContainerID)
        /\ commonResourceChecks sandboxSpecific sandboxID "" resource
           = Some errNeedContainerID
        /\ (forall (P : Package) (v : data P) (w : world),
              storeResource sandboxSpecific sandboxID "" resource v w
              = (Some errNeedContainerID, w))
        /\ (forall (P : Package) (t : target) (w : world),
              fetchResource (P:=P) sandboxSpecific sandboxID "" resource t w
              = Err errNeedContainerID)
      else
        (resourceDir sandboxSpecific sandboxID "" resource).2
        <> Some errNeedContainerID
        /\ (resourceURI sandboxSpecific sandboxID "" resource).2
           <> Some errNeedContainerID
        /\ commonResourceChecks sandboxSpecific sandboxID "" resource
           <> Some errNeedContainerID
        /\ (forall (P : Package) (v : data P) (w : world),
              (storeResource sandboxSpecific sandboxID "" resource v w).1
              <> Some errNeedContainerID)
        /\ (forall (P : Package) (t : target) (w : world),
              fetchResource (P:=P) sandboxSpecific sandboxID "" resource t w
              = match commonResourceChecks
                        sandboxSpecific sandboxID "" resource with
                | Some err => Err err
                | None =>
                    fetchFile
                      (resourceURI sandboxSpecific sandboxID "" resource).1.1
                      resource t w
                end))
  /\ containerURI sandboxID "" resource = (None, None, Some errNeedContainerID)
  /\ (forall (P : Package) (v : data P) (w : world),
        storeContainerResource sandboxID "" resource v w
        = (Some errNeedContainerID, w))
  /\ (forall (containerID : string) (dir : pathname),
        resourceDir sandboxSpecific sandboxID containerID resource
        = (Some dir, None) ->
        dir = filepath.Join
                (if resource =? configFileType then configStoragePath
                 else runStoragePath) [sandboxID; containerID]).
Proof.
  intros HS. split; [apply resourceNeedsContainerID_table |].
  split; [| split; [| split]].
  - destruct (resourceNeedsContainerID sandboxSpecific resource) eqn:Hneed.
    + assert (resourceDir sandboxSpecific sandboxID "" resource
              = (None, Some errNeedContainerID)) as HD
        by by apply resourceDir_needs.
      assert (commonResourceChecks sandboxSpecific sandboxID "" resource
              = Some errNeedContainerID) as HC.
      { unfold commonResourceChecks. destruct (decide _); [done |].
        by rewrite Hneed. }
      split; [done |]. split.
      { unfold resourceURI. destruct (decide _); [done |]. by rewrite HD. }
      split; [done |]. split.
      * intros P v w. unfold storeResource. by rewrite HC.
      * intros P t w. unfold fetchResource. by rewrite HC.
    + split.
      { intros H. apply resourceDir_error in H as [H _]. congruence. }
      split.
      { intros H. apply resourceURI_error in H as [H _]. congruence. }
      split.
      { intros H. apply commonResourceChecks_error in H as [H _]. congruence. }
      split.
      * intros P v w H.
        destruct (storeResource _ _ _ _ _ _) as [e w'] eqn:Hst.
        simpl in H. subst e.
        apply storeResource_error in Hst as [Hst _]. congruence.
      * intros P t w. unfold fetchResource.
        destruct (commonResourceChecks _ _ _ _) eqn:Hchk; [done |].
        apply commonResourceChecks_URI in Hchk as (filename & _ & ->). done.
  - unfold containerURI. destruct (decide _); [done |].
    by destruct (decide _).
  - intros P v w. unfold storeContainerResource. destruct (decide _); [done |].
    by destruct (decide _).
  - intros containerID dir. apply resourceDir_root.
Qed.

(** The rule at a sandbox-only kind of a container-level operation: no
    container id is asked for by the table, yet [containerURI] asks. *)
Lemma container_id_rule_witness :
  resourceNeedsContainerID false lockFileType = false
  /\ containerURI "s1" "" lockFileType = (None, None, Some errNeedContainerID).
Proof.
  pose proof (container_id_rule false "s1" lockFileType) as H.
  destruct H as (H1 & _ & H3 & _); [discriminate |].
  split; [exact H1 | exact H3].
Defined.

(** C7 (as stated) fails: resolving the URI of the lock file, a kind said
    never to need a container id, through [containerURI] fails with
    [errNeedContainerID] when the container id is empty. *)
Lemma containerURI_lock_needs_container :
  ~ (forall (sandboxID : string) (resource : sandboxResource),
       sandboxID <> "" ->
       In resource
          [lockFileType; networkFileType; hypervisorFileType; agentFileType] ->
       (containerURI sandboxID "" resource).2 <> Some errNeedContainerID).
Proof.
  intros H. apply (H "s1" lockFileType); [discriminate | simpl; auto |].
  reflexivity.
Qed.

(** ** Agent selection *)

Lemma eqb_other (a b : string) : a <> b -> String.eqb a b = false.
Proof. apply String.eqb_neq. Qed.

(** C9.  For an agent type that is none of noop, hyperstart and kata,
    [newAgent] returns the no-op agent, on which every lifecycle call
    succeeds and leaves the guest as it is; [String] and [newAgentConfig]
    do not fail either, and [Set] alone rejects the string with an error,
    keeping the receiver. *)
Theorem newAgent_unknown (G : Type) (hyper kataAgent : agent G)
    (agentType : AgentType) :
  agentType <> NoopAgentType ->
  agentType <> HyperstartAgent ->
  agentType <> KataContainersAgent ->
  newAgent hyper kataAgent agentType = noopAgent
  /\ (forall (call : agentCall) (g : G),
        lifecycle (newAgent hyper kataAgent agentType) call g = (None, g))
  /\ AgentType_String agentType = ""
  /\ (forall (AgentConfig HyperConfig KataAgentConfig : Type)
        (decodeHyper : AgentConfig -> result HyperConfig)
        (decodeKata : AgentConfig -> result KataAgentConfig)
        (config : AgentConfig),
        newAgentConfig AgentConfig HyperConfig KataAgentConfig
          decodeHyper decodeKata agentType config
        = nilConfig HyperConfig KataAgentConfig)
  /\ (forall receiver : AgentType,
        AgentType_Set receiver agentType
        = (receiver,
           Some (errorString ("Unknown agent type " ++ agentType)%string))).
Proof.
  intros H1 H2 H3.
  assert (newAgent hyper kataAgent agentType = noopAgent) as HN.
  { unfold newAgent. by rewrite !eqb_other. }
  split; [done |]. split; [by rewrite HN |]. split.
  { unfold AgentType_String. by rewrite !eqb_other. }
  split.
  - intros. unfold newAgentConfig. by rewrite !eqb_other.
  - intros receiver. unfold AgentType_Set. by rewrite !eqb_other.
Qed.

Lemma newAgent_unknown_witness :
  newAgent (G:=unit) noopAgent noopAgent "qemu-ga" = noopAgent
  /\ AgentType_Set NoopAgentType "qemu-ga"
     = (NoopAgentType, Some (errorString "Unknown agent type qemu-ga")).
Proof.
  destruct (newAgent_unknown unit noopAgent noopAgent "qemu-ga")
    as (H1 & _ & _ & _ & H5); [discriminate | discriminate | discriminate |].
  split; [exact H1 | exact (H5 NoopAgentType)].
Defined.

(** The three known strings are accepted by [Set] and select their agent. *)
Lemma known_agent_types (G : Type) (hyper kataAgent : agent G)
    (receiver : AgentType) :
  AgentType_Set receiver "noop" = (NoopAgentType, None)
  /\ AgentType_Set receiver "hyperstart" = (HyperstartAgent, None)
  /\ AgentType_Set receiver "kata" = (KataContainersAgent, None)
  /\ newAgent hyper kataAgent NoopAgentType = noopAgent
  /\ newAgent hyper kataAgent HyperstartAgent = hyper
  /\ newAgent hyper kataAgent KataContainersAgent = kataAgent.
Proof. repeat split. Qed.

(** ** I/O streams *)

Section IOStreamFacts.

Context {G : Type}.
Variable agent_of : Sandbox -> agent G.

(** What a successful [Close] did. *)
Lemma Close_success (s : stdinStream) (st st1 : streams G) :
  stdinStream_Close agent_of s st = Some (None, st1) ->
  exists io g,
    heap st !! stdin_iostream s = Some io
    /\ closed io = false
    /\ closeProcessStdin (agent_of (sandbox io)) (container io) (process io)
         (guest st) = (None, g)
    /\ st1 = Streams (<[stdin_iostream s :=
                          {| sandbox := sandbox io; container := container io;
                             process := process io; closed := true |}]>
                        (heap st)) g.
Proof.
  unfold stdinStream_Close.
  destruct (heap st !! stdin_iostream s) as [io|] eqn:Hio; [| done].
  destruct (closed io) eqn:Hc; [done |].
  destruct (closeProcessStdin _ _ _ _) as [[e|] g] eqn:Hag; [done |].
  intros [= <-]. by exists io, g.
Qed.

Lemma Close_closes (s : stdinStream) (st st1 : streams G) :
  stdinStream_Close agent_of s st = Some (None, st1) ->
  closed_at (stdin_iostream s) st1.
Proof.
  intros (io & g & _ & _ & _ & ->)%Close_success.
  eexists. split; [apply lookup_insert_eq | done].
Qed.

(** On a closed stream object the four methods answer [errStreamClosed]
    and leave every state as it is. *)
Lemma closed_Write (s : stdinStream) (data : bytes) (st : streams G) :
  closed_at (stdin_iostream s) st ->
  stdinStream_Write agent_of s data st
  = Some ((0%nat, Some errStreamClosed), st).
Proof.
  intros (io & Hio & Hc). unfold stdinStream_Write. by rewrite Hio, Hc.
Qed.

Lemma closed_Close (s : stdinStream) (st : streams G) :
  closed_at (stdin_iostream s) st ->
  stdinStream_Close agent_of s st = Some (Some errStreamClosed, st).
Proof.
  intros (io & Hio & Hc). unfold stdinStream_Close. by rewrite Hio, Hc.
Qed.

Lemma closed_Read_stdout (s : stdoutStream) (data : bytes) (st : streams G) :
  closed_at (stdout_iostream s) st ->
  stdoutStream_Read agent_of s data st
  = Some ((data, 0%nat, Some errStreamClosed), st).
Proof.
  intros (io & Hio & Hc). unfold stdoutStream_Read. by rewrite Hio, Hc.
Qed.

Lemma closed_Read_stderr (s : stderrStream) (data : bytes) (st : streams G) :
  closed_at (stderr_iostream s) st ->
  stderrStream_Read agent_of s data st
  = Some ((data, 0%nat, Some errStreamClosed), st).
Proof.
  intros (io & Hio & Hc). unfold stderrStream_Read. by rewrite Hio, Hc.
Qed.

(** No call reopens a stream object: nothing assigns [false] to [closed]
    after [newIOStream], and [newIOStream] takes a fresh address. *)
Lemma call_keeps_closed (l : positive) (c : streamCall) (st st' : streams G) :
  closed_at l st -> call_state agent_of c st = Some st' -> closed_at l st'.
Proof.
  intros (io & Hio & Hc). destruct c as [s c proc|s data|s|s data|s data]; simpl.
  - intros ?; simplify_eq/=. exists io. split; [| done]. simpl.
    rewrite lookup_insert_ne; [done |].
    intros Heq. pose proof (is_fresh (dom (heap st))) as Hfresh.
    rewrite Heq in Hfresh. apply Hfresh, elem_of_dom. eauto.
  - unfold stdinStream_Write.
    destruct (heap st !! stdin_iostream s) as [io'|]; [| done].
    destruct (closed io'); [intros ?; simplify_eq/=; by exists io |].
    destruct (writeProcessStdin _ _ _ _ _). intros ?; simplify_eq/=.
    by exists io.
  - unfold stdinStream_Close.
    destruct (heap st !! stdin_iostream s) as [io'|] eqn:Hio'; [| done].
    destruct (closed io') eqn:Hc'; [intros ?; simplify_eq/=; by exists io |].
    destruct (closeProcessStdin _ _ _ _) as [[e|] g];
      intros ?; simplify_eq/=; [by exists io |].
    destruct (decide (stdin_iostream s = l)) as [Heq|Hne].
    + rewrite Heq in Hio'. congruence.
    + exists io. split; [| done]. simpl. by rewrite lookup_insert_ne.
  - unfold stdoutStream_Read.
    destruct (heap st !! stdout_iostream s) as [io'|]; [| done].
    destruct (closed io'); [intros ?; simplify_eq/=; by exists io |].
    destruct (readProcessStdout _ _ _ _ _). intros ?; simplify_eq/=.
    by exists io.
  - unfold stderrStream_Read.
    destruct (heap st !! stderr_iostream s) as [io'|]; [| done].
    destruct (closed io'); [intros ?; simplify_eq/=; by exists io |].
    destruct (readProcessStderr _ _ _ _ _). intros ?; simplify_eq/=.
    by exists io.
Qed.

Lemma calls_keep_closed (l : positive) (cs : list streamCall)
    (st st' : streams G) :
  closed_at l st -> calls_state agent_of cs st = Some st' -> closed_at l st'.
Proof.
  revert st. induction cs as [|c cs IH]; intros st Hcl; simpl.
  - by intros [= <-].
  - destruct (call_state agent_of c st) as [st1|] eqn:Hc; [| done].
    apply IH. by eapply call_keeps_closed.
Qed.

(** C6.  After a successful [Close] of a stdin handle, and whatever calls
    are made on any handle in between, [Close] and [Write] on that handle
    fail with [errStreamClosed] and change nothing. *)
Theorem stdin_closed_stays_closed (s : stdinStream) (st st1 st2 : streams G)
    (cs : list streamCall) :
  stdinStream_Close agent_of s st = Some (None, st1) ->
  calls_state agent_of cs st1 = Some st2 ->
  stdinStream_Close agent_of s st2 = Some (Some errStreamClosed, st2)
  /\ forall data : bytes,
       stdinStream_Write agent_of s data st2
       = Some ((0%nat, Some errStreamClosed), st2).
Proof.
  intros Hclose Hcalls.
  assert (closed_at (stdin_iostream s) st2) as Hcl.
  { eapply calls_keep_closed; [| done]. by eapply Close_closes. }
  split; [by apply closed_Close |]. intros data. by apply closed_Write.
Qed.

(** C2 (as amended).  The three handles of one process embed the same
    [iostream] and share its [closed] flag: after a successful [Close] of
    the stdin handle, [Read] on the stdout and stderr handles of that
    process fails with [errStreamClosed] without reaching the agent, while
    the stream objects of all other processes are as they were. *)
Theorem stdin_close_closes_all (l : positive) (st st1 : streams G) :
  stdinStream_Close agent_of (stdin l) st = Some (None, st1) ->
  (forall data : bytes,
     stdoutStream_Read agent_of (stdout l) data st1
     = Some ((data, 0%nat, Some errStreamClosed), st1))
  /\ (forall data : bytes,
        stderrStream_Read agent_of (stderr l) data st1
        = Some ((data, 0%nat, Some errStreamClosed), st1))
  /\ (forall l' : positive, l' <> l -> heap st1 !! l' = heap st !! l').
Proof.
  intros Hclose.
  pose proof (Close_closes _ _ _ Hclose) as Hcl.
  split; [intros; by apply closed_Read_stdout |].
  split; [intros; by apply closed_Read_stderr |].
  intros l' Hne.
  apply Close_success in Hclose as (io & g & _ & _ & _ & ->). simpl.
  by rewrite lookup_insert_ne.
Qed.

(** C10.  When the agent refuses to close the stdin of an open stream,
    [Close] returns the agent's error and leaves the heap, hence the
    [closed] flag, as it was: a later [Write] or [Close] on the handle is
    passed to the agent again, and such a [Close] closes the stream if the
    agent accepts then. *)
Theorem stdin_close_failure_keeps_open (s : stdinStream) (st : streams G)
    (io : iostream) (e : error) (g : G) :
  heap st !! stdin_iostream s = Some io ->
  closed io = false ->
  closeProcessStdin (agent_of (sandbox io)) (container io) (process io)
    (guest st) = (Some e, g) ->
  let st1 := Streams (heap st) g in
  stdinStream_Close agent_of s st = Some (Some e, st1)
  /\ heap st1 !! stdin_iostream s = Some io
  /\ (forall data : bytes,
        stdinStream_Write agent_of s data st1
        = Some (let '(r, g') :=
                  writeProcessStdin (agent_of (sandbox io)) (container io)
                    (process io) data g in
                (r, Streams (heap st) g')))
  /\ (forall g' : G,
        closeProcessStdin (agent_of (sandbox io)) (container io) (process io) g
        = (None, g') ->
        exists st2,
          stdinStream_Close agent_of s st1 = Some (None, st2)
          /\ closed_at (stdin_iostream s) st2)
  /\ (forall (e' : error) (g' : G),
        closeProcessStdin (agent_of (sandbox io)) (container io) (process io) g
        = (Some e', g') ->
        stdinStream_Close agent_of s st1
        = Some (Some e', Streams (heap st) g')).
Proof.
  intros Hio Hc Hag st1. split.
  { unfold stdinStream_Close. by rewrite Hio, Hc, Hag. }
  split; [done |]. split.
  { intros data. unfold stdinStream_Write. simpl. rewrite Hio, Hc.
    by destruct (writeProcessStdin _ _ _ _ _). }
  split.
  - intros g' Hag'. eexists. split.
    + unfold stdinStream_Close. simpl. by rewrite Hio, Hc, Hag'.
    + eexists. split; [apply lookup_insert_eq | done].
  - intros e' g' Hag'. unfold stdinStream_Close. simpl.
    by rewrite Hio, Hc, Hag'.
Qed.

End IOStreamFacts.

Lemma stdin_closed_stays_closed_witness :
  stdinStream_Close Demo.agent_of (stdin Demo.init_stream)
    (Streams (<[2%positive := {| sandbox := Demo.s1; container := Demo.c1;
                                 process := "sh"; closed := false |}]>
                (heap Demo.streams_closed)) tt)
  = Some (Some errStreamClosed,
          Streams (<[2%positive := {| sandbox := Demo.s1; container := Demo.c1;
                                      process := "sh"; closed := false |}]>
                     (heap Demo.streams_closed)) tt).
Proof.
  refine (proj1 (stdin_closed_stays_closed Demo.agent_of
                   (stdin Demo.init_stream) Demo.streams_open
                   Demo.streams_closed _
                   [callWrite (stdin Demo.init_stream) [Byte.x68];
                    callReadStdout (stdout Demo.init_stream) [];
                    callNew Demo.s1 Demo.c1 "sh";
                    callClose (stdin Demo.init_stream)] _ _)).
  - vm_compute. reflexivity.
  - vm_compute. reflexivity.
Defined.

Lemma stdin_close_closes_all_witness :
  stdoutStream_Read Demo.agent_of (stdout Demo.init_stream) [Byte.x00]
    Demo.streams_closed
  = Some (([Byte.x00], 0%nat, Some errStreamClosed), Demo.streams_closed).
Proof.
  refine (proj1 (stdin_close_closes_all Demo.agent_of Demo.init_stream
                   Demo.streams_open Demo.streams_closed _) [Byte.x00]).
  vm_compute. reflexivity.
Defined.

(** C2 (as stated) fails: with the no-op agent, a successful [Close] of
    the stdin handle of a process makes [Read] on the stdout handle of the
    same process fail with [errStreamClosed]. *)
Lemma stdin_close_breaks_stdout :
  ~ (forall (G : Type) (agent_of : Sandbox -> agent G) (l : positive)
       (st st1 st2 : streams G) (data : bytes)
       (r : bytes * nat * option error),
       stdinStream_Close agent_of (stdin l) st = Some (None, st1) ->
       stdoutStream_Read agent_of (stdout l) data st1 = Some (r, st2) ->
       r.2 <> Some errStreamClosed).
Proof.
  intros H.
  apply (H unit Demo.agent_of Demo.init_stream Demo.streams_open
           Demo.streams_closed Demo.streams_closed []
           ([], 0%nat, Some errStreamClosed)).
  - vm_compute. reflexivity.
  - vm_compute. reflexivity.
  - reflexivity.
Qed.

Lemma stdin_close_failure_keeps_open_witness :
  stdinStream_Close Demo.flaky_of (stdin Demo.init_stream) Demo.streams_flaky
  = Some (Some (foreignError "agent" 1),
          Streams (heap Demo.streams_flaky) 0%nat)
  /\ exists st2,
       stdinStream_Close Demo.flaky_of (stdin Demo.init_stream)
         (Streams (heap Demo.streams_flaky) 0%nat) = Some (None, st2)
       /\ closed_at Demo.init_stream st2.
Proof.
  destruct (stdin_close_failure_keeps_open Demo.flaky_of
              (stdin Demo.init_stream) Demo.streams_flaky
              {| sandbox := Demo.s1; container := Demo.c1; process := "init";
                 closed := false |}
              (foreignError "agent" 1) 0%nat)
    as (H1 & _ & _ & H4 & _).
  - vm_compute. reflexivity.
  - reflexivity.
  - reflexivity.
  - split; [exact H1 |]. apply (H4 0%nat). reflexivity.
Defined.

(** ** The system calls *)

Lemma used_insert (m : gmap (list string) node) (p : pathname) (n : node) :
  used (<[p := n]> m) = (node_size n + used (delete p m))%nat.
Proof.
  unfold used. rewrite <- insert_delete_eq.
  rewrite map_fold_insert_L; [done | intros; lia |].
  apply lookup_delete_eq.
Qed.

Lemma used_delete_le (m : gmap (list string) node) (p : pathname) :
  (used (delete p m) <= used m)%nat.
Proof.
  destruct (m !! p) as [n|] eqn:Hp.
  - rewrite <- (insert_id m p n Hp) at 2. rewrite used_insert. lia.
  - by rewrite delete_id.
Qed.

(** What a successful [os.Create] did. *)
Lemma Create_success (name : gopath) (w w1 : world) (f : pathname) :
  os.Create name w = (Ok f, w1) ->
  name = Some f /\ f <> []
  /\ w1 = World (<[f := IsFile []]> (nodes w)) (capacity w).
Proof.
  unfold os.Create. destruct name as [p|]; [| done].
  destruct p as [|c p]; [done |].
  repeat case_match; intros ?; by simplify_eq.
Qed.

(** Truncating a file frees room, it never takes any. *)
Lemma Create_avail (name : gopath) (w w1 : world) (f : pathname) :
  os.Create name w = (Ok f, w1) -> (avail w <= avail w1)%nat.
Proof.
  intros (_ & _ & ->)%Create_success. unfold avail. simpl.
  rewrite used_insert. simpl. pose proof (used_delete_le (nodes w) f). lia.
Qed.

(** A write that fits in the room left stores all the bytes; one that
    does not is cut short and reports it. *)
Lemma Write_spec (f : pathname) (b old : bytes) (w : world) :
  nodes w !! f = Some (IsFile old) ->
  os.Write f b w
  = ((if decide (length b <= avail w)%nat then (length b, None)
      else (avail w, Some (PathError "write" ENOSPC))),
     World (<[f := IsFile (old ++ take (avail w) b)]> (nodes w)) (capacity w)).
Proof.
  intros Hf. unfold os.Write. rewrite Hf. by destruct (decide _).
Qed.

Lemma ReadFile_insert (f : pathname) (b : bytes)
    (m : gmap (list string) node) (c : nat) :
  f <> [] ->
  ioutil.ReadFile (Some f) (World (<[f := IsFile b]> m) c) = Ok b.
Proof.
  intros Hf. unfold ioutil.ReadFile, lstat. simpl.
  destruct f; [done |]. by rewrite lookup_insert_eq.
Qed.

(** Creating a file, writing [b] in full and reading the file gives [b]. *)
Lemma Create_Write_ReadFile (name : gopath) (w w1 w2 : world) (f : pathname)
    (b : bytes) (n : nat) :
  os.Create name w = (Ok f, w1) ->
  os.Write f b w1 = ((n, None), w2) ->
  ioutil.ReadFile name w2 = Ok b.
Proof.
  intros (-> & Hf & ->)%Create_success.
  rewrite (Write_spec f b []); [| apply lookup_insert_eq].
  destruct (decide _) as [Hfit|]; [| done]. intros ?; simplify_eq/=.
  rewrite insert_insert_eq, firstn_all2; [| done].
  by apply (ReadFile_insert f b (nodes w) (capacity w)).
Qed.

(** [os.RemoveAll] leaves nothing at or below the path and touches nothing
    else. *)
Lemma RemoveAll_below (dir p : pathname) (w : world) :
  dir `prefix_of` p -> nodes (os.RemoveAll (Some dir) w).2 !! p = None.
Proof.
  intros Hpre. simpl. apply map_lookup_filter_None. right. intros n _. simpl.
  by intros H.
Qed.

Lemma RemoveAll_only_removes (path : gopath) (p : pathname) (w : world) :
  nodes w !! p = None -> nodes (os.RemoveAll path w).2 !! p = None.
Proof.
  intros Hp. destruct path as [dir|]; [| done]. simpl.
  apply map_lookup_filter_None. by left.
Qed.

Lemma RemoveAll_error (dir : pathname) (w : world) :
  (os.RemoveAll (Some dir) w).1 = None <-> dir <> [].
Proof. simpl. by destruct dir. Qed.





(** The walk reads the nodes on the path only. *)
Lemma missing_same (m m' : gmap (list string) node) (acc : pathname)
    (cs : list string) :
  (forall k, k `prefix_of` cs -> m' !! (acc ++ k) = m !! (acc ++ k)) ->
  missing m' acc cs = missing m acc cs.
Proof.
  revert acc. induction cs as [|c cs IH]; intros acc Hsame; simpl; [done |].
  rewrite (Hsame [c]) by by apply prefix_cons, prefix_nil.
  destruct (m !! (acc ++ [c])) as [[|b]|]; [| done | done].
  apply IH. intros k Hk. rewrite <- !app_assoc. apply Hsame.
  by apply prefix_cons.
Qed.




(** ** Joining path components *)

Lemma components_plain (s : string) :
  has_separator s = false -> filepath.components s = [s].
Proof.
  induction s as [|c s IH]; [done |]. simpl.
  destruct (Ascii.eqb c "/"); [done |]. simpl. intros H. by rewrite IH.
Qed.

Lemma clean_step_plain (acc : pathname) (c : string) :
  plain c -> filepath.clean_step acc c = acc ++ [c].
Proof.
  intros (H1 & H2 & H3 & _). unfold filepath.clean_step.
  by repeat (destruct (decide _); [done |]).
Qed.

(** Joining one plain component appends it. *)
Lemma Join_plain (base : pathname) (c : string) :
  plain c -> filepath.Join base [c] = base ++ [c].
Proof.
  intros Hc. unfold filepath.Join. simpl.
  rewrite components_plain, app_nil_r by apply Hc. simpl.
  by apply clean_step_plain.
Qed.

(** The directory of a container lies directly in that of its sandbox. *)
Lemma Join_sandbox_container (base : pathname) (sandboxID containerID : string) :
  plain containerID ->
  filepath.Join base [sandboxID; containerID]
  = filepath.Join base [sandboxID; ""] ++ [containerID].
Proof.
  intros Hc. unfold filepath.Join. simpl.
  rewrite (components_plain containerID), !app_nil_r by apply Hc.
  rewrite !fold_left_app. simpl. by apply clean_step_plain.
Qed.

Lemma resourceFilename_plain (resource : sandboxResource) (filename : string) :
  resourceFilename resource = Some filename -> plain filename.
Proof.
  unfold resourceFilename, is_case.
  case_resource resource; simpl; try (intros [= <-]; by repeat split).
  other_resource. done.
Qed.

(** ** The file tree stays a tree *)


Lemma Dir_neq (p : pathname) : p <> [] -> filepath.Dir p <> p.
Proof.
  intros Hp Heq. apply (f_equal length) in Heq.
  unfold filepath.Dir in Heq.
  rewrite (app_removelast_last "" Hp) in Heq at 2.
  rewrite length_app in Heq. simpl in Heq. lia.
Qed.

Lemma lstat_insert_ne (m : gmap (list string) node) (p q : pathname)
    (n : node) :
  p <> q -> lstat (<[p := n]> m) q = lstat m q.
Proof. intros Hne. destruct q; [done |]. simpl. by rewrite lookup_insert_ne. Qed.

Lemma lstat_Some (m : gmap (list string) node) (p : pathname) (n : node) :
  tree m -> m !! p = Some n -> lstat m p = Some n.
Proof. intros Ht Hp. destruct (Ht p n Hp) as [Hne _]. by destruct p. Qed.


(** A new node in an existing directory. *)
Lemma tree_insert_new (m : gmap (list string) node) (p : pathname) (n : node) :
  tree m -> lstat m p = None -> lstat m (filepath.Dir p) = Some IsDir ->
  tree (<[p := n]> m).
Proof.
  intros Ht Hp Hdir q n' Hq.
  assert (p <> []) as Hne by by intros ->.
  destruct (decide (p = q)) as [<-|Hpq].
  - split; [done |]. rewrite lstat_insert_ne; [done |].
    intros Heq. by apply (Dir_neq p).
  - rewrite lookup_insert_ne in Hq by done.
    destruct (Ht q n' Hq) as [Hq0 Hqd]. split; [done |].
    rewrite lstat_insert_ne; [done |]. intros ->. congruence.
Qed.

(** New content for an existing file. *)
Lemma tree_insert_file (m : gmap (list string) node) (p : pathname)
    (old b : bytes) :
  tree m -> m !! p = Some (IsFile old) -> tree (<[p := IsFile b]> m).
Proof.
  intros Ht Hp q n' Hq.
  destruct (Ht p _ Hp) as [Hne Hdir].
  destruct (decide (p = q)) as [<-|Hpq].
  - split; [done |]. rewrite lstat_insert_ne; [done |].
    intros Heq. by apply (Dir_neq p).
  - rewrite lookup_insert_ne in Hq by done.
    destruct (Ht q n' Hq) as [Hq0 Hqd]. split; [done |].
    rewrite lstat_insert_ne; [done |]. intros ->.
    rewrite (lstat_Some m _ _ Ht Hp) in Hqd. congruence.
Qed.




Lemma Create_tree (name : gopath) (w w' : world) (r : result pathname) :
  tree (nodes w) -> os.Create name w = (r, w') -> tree (nodes w').
Proof.
  intros Ht. unfold os.Create. destruct name as [p|]; [| by intros [= _ <-]].
  destruct (lstat (nodes w) p) as [[|old]|] eqn:Hp.
  - by intros [= _ <-].
  - intros [= _ <-]. simpl. apply (tree_insert_file _ _ old); [done |].
    by destruct p.
  - destruct (lstat (nodes w) (filepath.Dir p)) as [[|b]|] eqn:Hd;
      intros [= _ <-]; [| done | done].
    simpl. by apply tree_insert_new.
Qed.

Lemma Write_tree (f : pathname) (b : bytes) (w w' : world)
    (r : nat * option error) :
  tree (nodes w) -> os.Write f b w = (r, w') -> tree (nodes w').
Proof.
  intros Ht. unfold os.Write.
  destruct (nodes w !! f) as [[|old]|] eqn:Hf; try by intros [= _ <-].
  destruct (decide _); intros [= _ <-]; simpl;
    by apply (tree_insert_file _ _ old).
Qed.


(** The operations of the store keep the tree a tree. *)
Lemma storeResource_tree (P : Package) (sandboxSpecific : bool)
    (sandboxID containerID : string) (resource : sandboxResource)
    (v : data P) (w w' : world) (e : option error) :
  tree (nodes w) ->
  storeResource sandboxSpecific sandboxID containerID resource v w = (e, w') ->
  tree (nodes w').
Proof.
  intros Ht.
  assert (forall file e' w'',
            storeFile file v w = (e', w'') -> tree (nodes w'')) as HF.
  { intros file e' w''. unfold storeFile.
    destruct file as [p|]; [| by intros [= _ <-]].
    destruct (os.Create (Some p) w) as [[f|err] w1] eqn:HC;
      pose proof (Create_tree _ _ _ _ Ht HC) as Ht1; [| by intros [= _ <-]].
    destruct (json_Marshal v); [| by intros [= _ <-]].
    destruct (os.Write f a w1) as [r w2] eqn:HW. intros [= _ <-].
    by eapply Write_tree. }
  assert (forall file e' w'',
            storeDeviceFile file v w = (e', w'') -> tree (nodes w'')) as HD.
  { intros file e' w''. unfold storeDeviceFile.
    destruct file as [p|]; [| by intros [= _ <-]].
    destruct (os.Create (Some p) w) as [[f|err] w1] eqn:HC;
      pose proof (Create_tree _ _ _ _ Ht HC) as Ht1; [| by intros [= _ <-]].
    destruct v; try by intros [= _ <-].
    destruct (Marshal _ _); [| by intros [= _ <-]].
    destruct (os.Write f a w1) as [[n err] w2] eqn:HW.
    pose proof (Write_tree _ _ _ _ _ Ht1 HW).
    by destruct err; intros [= _ <-]. }
  unfold storeResource.
  destruct (commonResourceChecks _ _ _ _); [by intros [= _ <-] |].
  destruct v; try (by intros [= _ <-]);
    unfold storeSandboxAndContainerConfigResource, storeStateResource,
      storeNetworkResource, storeProcessResource, storeMountResource,
      storeDeviceResource;
    (destruct (negb _); [by intros [= _ <-] |]);
    match goal with
    | |- context [resourceURI ?b ?s ?c ?r] =>
        destruct (resourceURI b s c r) as [[file dir] [err|]];
          [by intros [= _ <-] |]
    end;
    first [apply HF | apply HD].
Qed.







(** ** Decoding the device envelopes *)

Section Devices.

Variable P : Package.

(** One turn of the loop of [fetchDeviceFile], by the tag of the envelope. *)
Lemma decodeDevices_step (d : TypedDevice) (rest : list TypedDevice)
    (tempDevices : list (Device P)) (device : Device P) :
  decoded_by P d device ->
  decodeDevices (d :: rest) tempDevices
  = decodeDevices rest (tempDevices ++ [device]).
Proof.
  unfold decoded_by. simpl.
  repeat (destruct (String.eqb _ _);
          [by intros (x & -> & ->) |]).
  done.
Qed.

Lemma decoded_by_recognised (d : TypedDevice) (device : Device P) :
  decoded_by P d device -> recognised P (Type_ d) = true.
Proof.
  unfold decoded_by, recognised.
  by repeat (destruct (String.eqb _ _); [done |]).
Qed.

Lemma decodeDevices_unrecognised (d : TypedDevice) (rest : list TypedDevice)
    (tempDevices : list (Device P)) :
  recognised P (Type_ d) = false ->
  decodeDevices (d :: rest) tempDevices = Err errUnknownDevice.
Proof.
  unfold recognised. simpl.
  by repeat (destruct (String.eqb _ _); [done |]).
Qed.

(** Envelopes that all decode give the devices, in order. *)
Lemma decodeDevices_all (typedDevices : list TypedDevice)
    (devices tempDevices : list (Device P)) :
  Forall2 (decoded_by P) typedDevices devices ->
  decodeDevices typedDevices tempDevices = Ok (tempDevices ++ devices).
Proof.
  intros H. revert tempDevices.
  induction H as [|d device rest devices Hd _ IH]; intros tempDevices.
  - by rewrite app_nil_r.
  - rewrite (decodeDevices_step _ _ _ _ Hd), IH. by rewrite <- app_assoc.
Qed.

(** The first envelope without a decoder ends the loop with
    [errUnknownDevice] when the envelopes before it decode. *)
Lemma decodeDevices_first_unknown (pre post : list TypedDevice)
    (d : TypedDevice) (devices tempDevices : list (Device P)) :
  Forall2 (decoded_by P) pre devices ->
  recognised P (Type_ d) = false ->
  decodeDevices (pre ++ d :: post) tempDevices = Err errUnknownDevice.
Proof.
  intros H Hd. revert tempDevices.
  induction H as [|d' device rest devices Hd' _ IH]; intros tempDevices.
  - by apply decodeDevices_unrecognised.
  - simpl app. by rewrite (decodeDevices_step _ _ _ _ Hd'), IH.
Qed.

(** The first envelope that its decoder rejects ends the loop with the
    error of that decoder. *)
Lemma decodeDevices_first_rejected (pre post : list TypedDevice)
    (d : TypedDevice) (devices tempDevices : list (Device P)) (err : error) :
  Forall2 (decoded_by P) pre devices ->
  rejected_by P d err ->
  decodeDevices (pre ++ d :: post) tempDevices = Err err.
Proof.
  intros H Hd. revert tempDevices.
  induction H as [|d' device rest devices Hd' _ IH]; intros tempDevices.
  - unfold rejected_by in Hd. simpl.
    repeat (destruct (String.eqb _ _); [by rewrite Hd |]). done.
  - simpl app. by rewrite (decodeDevices_step _ _ _ _ Hd'), IH.
Qed.

(** An envelope without a decoder anywhere makes the loop fail. *)
Lemma decodeDevices_some_unknown (typedDevices : list TypedDevice)
    (tempDevices : list (Device P)) :
  Exists (fun d => recognised P (Type_ d) = false) typedDevices ->
  exists err, decodeDevices typedDevices tempDevices = Err err.
Proof.
  intros H. revert tempDevices.
  induction typedDevices as [|d rest IH]; intros tempDevices.
  { by apply Exists_nil in H. }
  destruct (recognised P (Type_ d)) eqn:Hrec.
  - apply Exists_cons in H as [H|H]; [congruence |].
    simpl.
    repeat (destruct (String.eqb _ _);
            [destruct (Unmarshal _ _); [by apply IH | by eexists] |]).
    by eexists.
  - eexists. by apply decodeDevices_unrecognised.
Qed.

Lemma restorable_decoded (devices : list (Device P)) :
  Forall (fun d => decoded_by P (typedDevice d) d) devices ->
  Forall2 (decoded_by P) (map typedDevice devices) devices.
Proof.
  induction 1 as [|d devices Hd _ IH]; simpl; by constructor.
Qed.

(** ** Storing and fetching a file *)

(** A successful [storeFile] on a device with room for the bytes leaves
    the marshalled value in the file. *)
Lemma storeFile_success (file : gopath) (v : data P) (w w' : world) :
  storeFile file v w = (None, w') ->
  (forall b, json_Marshal v = Ok b -> (length b <= avail w)%nat) ->
  exists b, json_Marshal v = Ok b /\ ioutil.ReadFile file w' = Ok b.
Proof.
  unfold storeFile. destruct file as [p|]; [| done].
  destruct (os.Create _ _) as [[f|e] w1] eqn:HC; [| done].
  destruct (json_Marshal v) as [b|e] eqn:HM; [| done].
  destruct (os.Write f b w1) as [[n e] w2] eqn:HW.
  intros [= <-] Hroom. exists b. split; [done |].
  pose proof (Create_avail _ _ _ _ HC) as Havail.
  pose proof HC as (_ & _ & Hw1)%Create_success.
  rewrite (Write_spec f b []) in HW; [| subst w1; apply lookup_insert_eq].
  destruct (decide _) as [|Hshort]; [| specialize (Hroom b eq_refl); lia].
  eapply Create_Write_ReadFile; [done |].
  rewrite (Write_spec f b []); [| subst w1; apply lookup_insert_eq].
  destruct (decide _); [| done]. by simplify_eq.
Qed.

(** [storeFile] answers success whatever the outcome of the write. *)
Lemma storeFile_drops_write_error (file : gopath) (v : data P)
    (w w1 : world) (f : pathname) (b : bytes) :
  os.Create file w = (Ok f, w1) ->
  json_Marshal v = Ok b ->
  storeFile file v w = (None, (os.Write f b w1).2).
Proof.
  intros HC HM. unfold storeFile.
  pose proof HC as (-> & _)%Create_success. rewrite HC, HM.
  by destruct (os.Write _ _ _).
Qed.

(** A successful [storeDeviceFile] leaves the marshalled envelopes in the
    file: its write is checked. *)
Lemma storeDeviceFile_success (file : gopath) (v : data P) (w w' : world) :
  storeDeviceFile file v w = (None, w') ->
  exists devices b,
    v = aDevices devices
    /\ Marshal (json_TypedDevices P) (map typedDevice devices) = Ok b
    /\ ioutil.ReadFile file w' = Ok b.
Proof.
  unfold storeDeviceFile. destruct file as [p|]; [| done].
  destruct (os.Create _ _) as [[f|e] w1] eqn:HC; [| done].
  destruct v as [| | | | | |devices|]; try done.
  destruct (Marshal _ _) as [b|e] eqn:HM; [| done].
  destruct (os.Write f b w1) as [[n [e|]] w2] eqn:HW; [done |].
  intros [= <-]. exists devices, b. repeat split; [done |].
  by eapply Create_Write_ReadFile.
Qed.

(** [storeDeviceFile] reports a failed write. *)
Lemma storeDeviceFile_reports_write_error (file : gopath)
    (devices : list (Device P)) (w w1 w2 : world) (f : pathname) (b : bytes)
    (n : nat) (err : error) :
  os.Create file w = (Ok f, w1) ->
  Marshal (json_TypedDevices P) (map typedDevice devices) = Ok b ->
  os.Write f b w1 = ((n, Some err), w2) ->
  storeDeviceFile file (aDevices devices) w = (Some err, w2).
Proof.
  intros HC HM HW. unfold storeDeviceFile.
  pose proof HC as (-> & _)%Create_success. by rewrite HC, HM, HW.
Qed.

(** What [storeResource] does once the common checks pass: the value goes,
    with the writer of its type, to the file of [resource]. *)
Lemma storeResource_success (sandboxSpecific : bool)
    (sandboxID containerID : string) (resource : sandboxResource)
    (v : data P) (w w' : world) :
  storeResource sandboxSpecific sandboxID containerID resource v w = (None, w') ->
  commonResourceChecks sandboxSpecific sandboxID containerID resource = None
  /\ is_case resource [devicesFileType]
     = (match v with aDevices _ => true | _ => false end)
  /\ (match v with
      | aDevices _ => storeDeviceFile
      | _ => storeFile
      end) (resourceURI sandboxSpecific sandboxID containerID resource).1.1 v w
     = (None, w').
Proof.
  unfold storeResource.
  destruct (commonResourceChecks _ _ _ _) eqn:Hchk; [done |].
  assert (resourceURI true sandboxID containerID networkFileType
          = resourceURI sandboxSpecific sandboxID containerID networkFileType)
    as Hnet by by destruct sandboxSpecific.
  destruct v; try done;
    unfold storeSandboxAndContainerConfigResource, storeStateResource,
      storeNetworkResource, storeProcessResource, storeMountResource,
      storeDeviceResource;
    match goal with
    | |- context [negb (?r =? ?k)] =>
        destruct (Z.eqb_spec r k) as [->|]; simpl; [| done]
    end;
    rewrite ?Hnet;
    match goal with
    | |- context [resourceURI ?b ?s ?c ?r] =>
        destruct (resourceURI b s c r) as [[file dir] [e|]]; [done |]
    end;
    simpl; intros H; repeat split; done.
Qed.

End Devices.

(** ** Round trip through the store *)

(** C1 (as amended).  After a successful store of [v] under a sandbox, a
    container and a kind, a fetch of the same kind under the same
    identifiers returns [v], provided the codec reads back what it wrote
    for [v], every device of a device collection carries one of the three
    tags [fetchDeviceFile] has a decoder for (and that decoder restores
    it), and the device had room for the bytes. *)
Theorem store_fetch_roundtrip (P : Package) (sandboxSpecific : bool)
    (sandboxID containerID : string) (resource : sandboxResource)
    (v : data P) (w w' : world) :
  storeResource sandboxSpecific sandboxID containerID resource v w = (None, w') ->
  lossless v ->
  restorable v ->
  (forall b, serialized v = Ok b -> (length b <= avail w)%nat) ->
  fetchResource sandboxSpecific sandboxID containerID resource (target_of v) w'
  = Ok v.
Proof.
  intros (Hchk & Hcase & Hstore)%storeResource_success Hloss Hrest Hroom.
  unfold fetchResource. rewrite Hchk.
  pose proof Hchk as (filename & _ & HURI)%commonResourceChecks_URI.
  rewrite HURI in Hstore |- *. simpl in Hstore.
  unfold fetchFile. rewrite Hcase.
  destruct v as [c|c|s|n|p|l|devices|o];
    try (apply storeFile_success in Hstore as (b & HM & ->); [| done];
         by apply Hloss).
  apply storeDeviceFile_success in Hstore as (devices' & b & [= <-] & HM & ->).
  unfold fetchDeviceFile. rewrite (Hloss b HM).
  by rewrite (decodeDevices_all P _ devices []) by by apply restorable_decoded.
Qed.

Lemma store_fetch_roundtrip_witness :
  fetchResource false "s1" "c1" devicesFileType (target_of Demo.devices3)
    Demo.w_three
  = Ok Demo.devices3.
Proof.
  apply (store_fetch_roundtrip Demo.package false "s1" "c1" devicesFileType
           Demo.devices3 Demo.w1 Demo.w_three).
  - vm_compute. reflexivity.
  - intros b Hb. vm_compute in Hb. injection Hb as <-. vm_compute. reflexivity.
  - repeat constructor; vm_compute; eexists; split; reflexivity.
  - intros b Hb. vm_compute in Hb. injection Hb as <-. vm_compute. lia.
Defined.

(** C1 (as stated) fails: a device collection holding a device whose tag
    is none of the three is stored with success, its envelopes are read
    back by the codec as they were written, and the fetch fails. *)
Lemma unknown_tag_breaks_roundtrip :
  ~ (forall (P : Package) (sandboxSpecific : bool)
       (sandboxID containerID : string) (resource : sandboxResource)
       (v : data P) (w w' : world),
       storeResource sandboxSpecific sandboxID containerID resource v w
       = (None, w') ->
       lossless v ->
       (forall b, serialized v = Ok b -> (length b <= avail w)%nat) ->
       fetchResource sandboxSpecific sandboxID containerID resource
         (target_of v) w' = Ok v).
Proof.
  intros H.
  assert (fetchResource false "s1" "c1" devicesFileType
            (target_of Demo.devices4)
            (storeResource false "s1" "c1" devicesFileType Demo.devices4
               Demo.w1).2 = Ok Demo.devices4) as Hok.
  { apply (H Demo.package false "s1" "c1" devicesFileType Demo.devices4
             Demo.w1).
    - vm_compute. reflexivity.
    - intros b Hb. vm_compute in Hb. injection Hb as <-.
      vm_compute. reflexivity.
    - intros b Hb. vm_compute in Hb. injection Hb as <-. vm_compute. lia. }
  apply (f_equal result_error) in Hok. vm_compute in Hok. discriminate.
Qed.

(** C8, at the failing input.  On a full device the write of the state
    file of [c1] is cut short with [ENOSPC], yet the store of the state
    answers success and the fetch that follows cannot decode the empty
    file; the store of a device collection on the same device reports the
    failed write. *)
Theorem store_on_full_device :
  let file := ["run"; "vc"; "sbs"; "s1"; "c1"; "state.json"] in
  let after := storeContainerResource "s1" "c1" stateFileType Demo.running
                 Demo.w1_full in
  json_Marshal Demo.running
  = Ok (list_byte_of_string (to_string ("running" : string)))
  /\ (os.Write file (list_byte_of_string (to_string ("running" : string)))
        (os.Create (Some file) Demo.w1_full).2).1
     = (0%nat, Some (PathError "write" ENOSPC))
  /\ after.1 = None
  /\ nodes after.2 !! file = Some (IsFile [])
  /\ result_error (fetchContainerState Demo.package "s1" "c1" after.2)
     = Some (foreignError "json" 1)
  /\ (storeContainerResource "s1" "c1" devicesFileType Demo.devices3
        Demo.w1_full).1
     = Some (PathError "write" ENOSPC).
Proof. vm_compute. repeat split. Qed.

(** ** Fetching a device collection *)

(** C5 (as amended).  With valid identifiers and a devices file that
    parses into envelopes: if every envelope is turned into a device by
    the decoder its tag selects, the fetch returns those devices in order;
    if some envelope has a tag without a decoder, the fetch fails and
    returns no collection; the error is [errUnknownDevice] when the
    envelopes before the first such envelope all decode, and it is the
    error of the decoder when an envelope with a recognised tag is the
    first that does not decode. *)
Theorem fetch_devices_by_tag (P : Package) (sandboxSpecific : bool)
    (sandboxID containerID : string) (w : world) (fileData : bytes)
    (typedDevices : list TypedDevice) :
  commonResourceChecks sandboxSpecific sandboxID containerID devicesFileType
  = None ->
  ioutil.ReadFile
    (resourceURI sandboxSpecific sandboxID containerID devicesFileType).1.1 w
  = Ok fileData ->
  Unmarshal (json_TypedDevices P) fileData = Ok typedDevices ->
  (forall devices : list (Device P),
     Forall2 (decoded_by P) typedDevices devices ->
     fetchResource sandboxSpecific sandboxID containerID devicesFileType
       toDevices w = Ok (aDevices devices))
  /\ (Exists (fun d => recognised P (Type_ d) = false) typedDevices ->
      exists err,
        fetchResource (P:=P) sandboxSpecific sandboxID containerID
          devicesFileType toDevices w = Err err)
  /\ (forall (pre post : list TypedDevice) (d : TypedDevice)
        (devices : list (Device P)),
        typedDevices = pre ++ d :: post ->
        Forall2 (decoded_by P) pre devices ->
        recognised P (Type_ d) = false ->
        fetchResource (P:=P) sandboxSpecific sandboxID containerID
          devicesFileType toDevices w = Err errUnknownDevice)
  /\ (forall (pre post : list TypedDevice) (d : TypedDevice)
        (devices : list (Device P)) (err : error),
        typedDevices = pre ++ d :: post ->
        Forall2 (decoded_by P) pre devices ->
        rejected_by P d err ->
        fetchResource (P:=P) sandboxSpecific sandboxID containerID
          devicesFileType toDevices w = Err err).
Proof.
  intros Hchk Hread Hparse.
  assert (fetchResource (P:=P) sandboxSpecific sandboxID containerID
            devicesFileType toDevices w
          = result_map aDevices (decodeDevices typedDevices [])) as ->.
  { unfold fetchResource. rewrite Hchk.
    pose proof Hchk as (filename & _ & HURI)%commonResourceChecks_URI.
    rewrite HURI in Hread |- *. cbn [fst] in Hread.
    unfold fetchFile. rewrite Hread. unfold fetchDeviceFile.
    by rewrite Hparse. }
  split; [| split; [| split]].
  - intros devices Hall. by rewrite (decodeDevices_all P _ devices []).
  - intros Hex.
    destruct (decodeDevices_some_unknown P typedDevices [] Hex) as [err ->].
    by exists err.
  - intros pre post d devices -> Hpre Hd.
    by rewrite (decodeDevices_first_unknown P pre post d devices []).
  - intros pre post d devices err -> Hpre Hd.
    by rewrite (decodeDevices_first_rejected P pre post d devices [] err).
Qed.

Lemma fetch_devices_by_tag_witness :
  fetchResource false "s1" "c1" devicesFileType toDevices Demo.w_three
  = Ok (@aDevices Demo.package Demo.three_devices).
Proof.
  refine (proj1 (fetch_devices_by_tag Demo.package false "s1" "c1"
                   Demo.w_three Demo.three_fileData Demo.three_envelopes
                   _ _ _) Demo.three_devices _).
  - vm_compute. reflexivity.
  - vm_compute. reflexivity.
  - vm_compute. reflexivity.
  - repeat constructor; vm_compute; eexists; split; reflexivity.
Defined.

(** C5 (as stated) fails: in a devices file whose first envelope has the
    tag [vfio] and data that the decoder of that driver rejects, and whose
    second envelope has a tag without a decoder, the fetch fails with the
    error of the decoder, not with [errUnknownDevice]. *)
Lemma unknown_tag_after_corrupt_envelope :
  ~ (forall (P : Package) (sandboxSpecific : bool)
       (sandboxID containerID : string) (w : world) (fileData : bytes)
       (typedDevices : list TypedDevice),
       commonResourceChecks sandboxSpecific sandboxID containerID
         devicesFileType = None ->
       ioutil.ReadFile
         (resourceURI sandboxSpecific sandboxID containerID
            devicesFileType).1.1 w = Ok fileData ->
       Unmarshal (json_TypedDevices P) fileData = Ok typedDevices ->
       Exists (fun d => recognised P (Type_ d) = false) typedDevices ->
       fetchResource (P:=P) sandboxSpecific sandboxID containerID
         devicesFileType toDevices w = Err errUnknownDevice).
Proof.
  intros H.
  assert (fetchResource (P:=Demo.package) false "s1" "c1" devicesFileType
            toDevices Demo.w_odd = Err errUnknownDevice) as Hunknown.
  { apply (H Demo.package false "s1" "c1" Demo.w_odd Demo.odd_fileData
             Demo.odd_envelopes).
    - vm_compute. reflexivity.
    - vm_compute. reflexivity.
    - vm_compute. reflexivity.
    - apply Exists_cons_tl, Exists_cons_hd. vm_compute. reflexivity. }
  apply (f_equal result_error) in Hunknown. vm_compute in Hunknown.
  discriminate.
Qed.

(** ** Deleting the resources of a sandbox *)

Lemma Join_empty (base : pathname) (sandboxID : string) :
  filepath.Join base [sandboxID; ""] = filepath.Join base [sandboxID].
Proof.
  unfold filepath.Join. simpl. by rewrite app_nil_r, fold_left_app.
Qed.

(** The directories [deleteSandboxResources] removes for [nil]. *)
Lemma sandboxURI_config (sandboxID : string) :
  sandboxID <> "" ->
  sandboxURI sandboxID configFileType
  = (Some (filepath.Join (filepath.Join configStoragePath [sandboxID; ""])
             [configFile]),
     Some (filepath.Join configStoragePath [sandboxID; ""]), None).
Proof.
  intros HS. unfold sandboxURI, resourceURI, resourceDir.
  by destruct (decide _).
Qed.

Lemma sandboxURI_state (sandboxID : string) :
  sandboxID <> "" ->
  sandboxURI sandboxID stateFileType
  = (Some (filepath.Join (filepath.Join runStoragePath [sandboxID; ""])
             [stateFile]),
     Some (filepath.Join runStoragePath [sandboxID; ""]), None).
Proof.
  intros HS. unfold sandboxURI, resourceURI, resourceDir.
  by destruct (decide _).
Qed.


(** With [nil], whether the removal succeeds or not, nothing is left in
    the two directories of the sandbox. *)
Lemma deleteSandboxResources_nil_clears (sandboxID : string) (w : world)
    (p : pathname) :
  sandboxID <> "" ->
  filepath.Join configStoragePath [sandboxID] `prefix_of` p
  \/ filepath.Join runStoragePath [sandboxID] `prefix_of` p ->
  nodes (deleteSandboxResources sandboxID None w).2 !! p = None.
Proof.
  intros HS Hp. rewrite <- !Join_empty in Hp.
  unfold deleteSandboxResources, removeSandboxDirs.
  rewrite sandboxURI_config, sandboxURI_state by done.
  set (cfg := filepath.Join configStoragePath [sandboxID; ""]) in *.
  set (run := filepath.Join runStoragePath [sandboxID; ""]) in *.
  pose proof (RemoveAll_below cfg p w) as Hcfg.
  destruct (os.RemoveAll (Some cfg) w) as [e1 w1] eqn:H1.
  assert (e1 = None -> cfg `prefix_of` p \/ run `prefix_of` p ->
          nodes (os.RemoveAll (Some run) w1).2 !! p = None) as Hrun.
  { intros _ [Hc|Hr]; [| by apply RemoveAll_below].
    apply RemoveAll_only_removes. by apply Hcfg. }
  destruct e1 as [e1|].
  - (* the configuration directory is the root: everything was removed *)
    simpl. pose proof (proj2 (RemoveAll_error cfg w)) as Hroot.
    rewrite H1 in Hroot. simpl in Hroot.
    destruct (decide (cfg = [])) as [Hnil|Hne]; [| by specialize (Hroot Hne)].
    unfold os.RemoveAll in H1. injection H1 as _ <-. simpl.
    apply map_lookup_filter_None. right.
    intros n _ Hnot. apply Hnot. rewrite Hnil. apply prefix_nil.
  - specialize (Hrun eq_refl Hp).
    by destruct (os.RemoveAll (Some run) w1) as [[e2|] w2].
Qed.

Lemma fetchable_checks (sandboxSpecific : bool) (sandboxID containerID : string)
    (resource : sandboxResource) :
  sandboxID <> "" ->
  (sandboxSpecific = true /\ containerID = "") \/ containerID <> "" ->
  is_case resource
    [configFileType; stateFileType; networkFileType; hypervisorFileType;
     agentFileType; processFileType; mountsFileType; devicesFileType] = true ->
  commonResourceChecks sandboxSpecific sandboxID containerID resource = None.
Proof.
  intros HS HC Hr. unfold commonResourceChecks.
  destruct (decide _); [done |]. rewrite Hr.
  destruct HC as [[-> ->]|HC].
  - unfold resourceNeedsContainerID.
    by destruct (is_case resource [lockFileType; _; _; _]).
  - rewrite bool_decide_eq_false_2 by done. by rewrite andb_false_r.
Qed.








(** The lock kind is not among the kinds a fetch accepts: after the
    removal its fetch fails in the common checks, not with
    [errNotExist]. *)
Lemma fetch_lock_after_delete :
  result_error
    (fetchResource (P:=Demo.package) true "s1" "" lockFileType toState
       (deleteSandboxResources "s1" None Demo.w1).2)
  = Some errInvalidResource.
Proof. vm_compute. reflexivity. Qed.

(** ** Creating the resources of a sandbox *)

(** C4, at the failing input.  A regular file sits where the configuration
    directory of the sandbox belongs: [createAllResources] makes the state
    directory, fails on the configuration directory and returns the error
    without removing the state directory it made. *)
Theorem createAllResources_leaves_state_dir :
  nodes Demo.w_blocked !! ["run"; "vc"; "sbs"; "s1"] = None
  /\ (createAllResources Demo.s1 Demo.w_blocked).1
     = Some (PathError "mkdir" ENOTDIR)
  /\ nodes (createAllResources Demo.s1 Demo.w_blocked).2
       !! ["run"; "vc"; "sbs"; "s1"] = Some IsDir.
Proof. vm_compute. repeat split. Qed.

Lemma MkdirAll_no_path (w w' : world) : os.MkdirAll None w <> (None, w').
Proof. done. Qed.

Lemma createContainerDirs_failure (sandbox : Sandbox) (container : Container)
    (resources : list sandboxResource) (w w' : world) (err : error) :
  createContainerDirs sandbox container resources w = (Some err, w') ->
  exists w0, w' = (deleteSandboxResources (Sandbox_id sandbox) None w0).2.
Proof.
  revert w. induction resources as [|r rs IH]; intros w; simpl; [done |].
  destruct (containerURI _ _ _) as [[file path] e].
  destruct (os.MkdirAll path w) as [[e1|] w1]; [| by apply IH].
  destruct (deleteSandboxResources _ _ _) as [e2 w2] eqn:Hdel.
  intros ?; simplify_eq. exists w1. by rewrite Hdel.
Qed.

Lemma createAllContainerDirs_failure (sandbox : Sandbox) (cs : list Container)
    (w w' : world) (err : error) :
  createAllContainerDirs sandbox cs w = (Some err, w') ->
  exists w0, w' = (deleteSandboxResources (Sandbox_id sandbox) None w0).2.
Proof.
  revert w. induction cs as [|c cs IH]; intros w; [done |].
  cbn [createAllContainerDirs].
  destruct (createContainerDirs _ _ _ _) as [[e1|] w1] eqn:Hc; [| by apply IH].
  intros ?; simplify_eq. by eapply createContainerDirs_failure.
Qed.

(** The failures after the first loop do remove what was made: once the
    directories of the sandbox itself exist, a failing [createAllResources]
    leaves nothing in the two directories of the sandbox. *)
Lemma createAllResources_rollback (sandbox : Sandbox) (w w1 w' : world)
    (err : error) (p : pathname) :
  createSandboxDirs sandbox [stateFileType; configFileType] w = (None, w1) ->
  createAllResources sandbox w = (Some err, w') ->
  filepath.Join configStoragePath [Sandbox_id sandbox] `prefix_of` p
  \/ filepath.Join runStoragePath [Sandbox_id sandbox] `prefix_of` p ->
  nodes w' !! p = None.
Proof.
  intros Hdirs Hcreate Hp.
  assert (Sandbox_id sandbox <> "") as HS.
  { intros Heq. simpl in Hdirs. rewrite Heq in Hdirs. by simpl in Hdirs. }
  enough (exists w0, w' = (deleteSandboxResources (Sandbox_id sandbox) None w0).2)
    as [w0 ->] by by apply deleteSandboxResources_nil_clears.
  unfold createAllResources in Hcreate. rewrite Hdirs in Hcreate.
  destruct (createAllContainerDirs _ _ _) as [[e2|] w2] eqn:Hcs.
  { simplify_eq. by eapply createAllContainerDirs_failure. }
  destruct (sandboxURI _ _) as [[lock dir] [e3|]].
  { destruct (deleteSandboxResources _ _ _) as [e4 w4] eqn:Hdel.
    simplify_eq. exists w2. by rewrite Hdel. }
  destruct (os.Stat lock w2); [| done].
  destruct (os.Create lock w2) as [[f|e5] w5]; [done |].
  destruct (deleteSandboxResources _ _ _) as [e6 w6] eqn:Hdel.
  simplify_eq. exists w5. by rewrite Hdel.
Qed.

(** * Further properties of the store *)

(** ** Making directories *)

Lemma lstat_weaken (m m' : gmap (list string) node) (p : pathname) (n : node) :
  m ⊆ m' -> lstat m p = Some n -> lstat m' p = Some n.
Proof.
  intros Hsub. destruct p; [done |]. simpl. intros H.
  by eapply lookup_weaken.
Qed.

Lemma Mkdir_grows (p : pathname) (m m' : gmap (list string) node)
    (e : option error) :
  os.Mkdir p m = (e, m') -> m ⊆ m'.
Proof.
  unfold os.Mkdir. destruct (lstat m p) eqn:Hp; [by intros [= _ <-] |].
  destruct (lstat m (filepath.Dir p)) as [[|b]|];
    intros [= _ <-]; [| done | done].
  apply insert_subseteq. by destruct p.
Qed.

Lemma mkdirAll_grows (rp : list string) (m m' : gmap (list string) node)
    (e : option error) :
  os.mkdirAll rp m = (e, m') -> m ⊆ m'.
Proof.
  revert m m' e. induction rp as [|c rp IH]; intros m m' e.
  - simpl. by intros [= _ <-].
  - cbn [os.mkdirAll].
    destruct (lstat m (rev (c :: rp))) as [[|b]|]; try by intros [= _ <-].
    destruct (os.mkdirAll rp m) as [[e1|] m1] eqn:Hrec.
    + intros [= _ <-]. by eapply IH.
    + intros HM. etrans; [by eapply IH | by eapply Mkdir_grows].
Qed.

Lemma mkdirAll_success (rp : list string) (m m' : gmap (list string) node) :
  os.mkdirAll rp m = (None, m') -> lstat m' (rev rp) = Some IsDir.
Proof.
  destruct rp as [|c rp]; [done |]. cbn [os.mkdirAll].
  generalize (rev (c :: rp)). intros p.
  destruct (lstat m p) as [[|b]|] eqn:Hp; [by intros [= <-] | done |].
  destruct (os.mkdirAll rp m) as [[e1|] m1]; [done |].
  unfold os.Mkdir. destruct (lstat m1 p) eqn:Hp1; [done |].
  destruct (lstat m1 (filepath.Dir p)) as [[|b]|]; [| done | done].
  intros [= <-]. destruct p; [done |]. simpl. apply lookup_insert_eq.
Qed.

Lemma mkdirAll_existing (rp : list string) (m : gmap (list string) node) :
  lstat m (rev rp) = Some IsDir -> os.mkdirAll rp m = (None, m).
Proof.
  intros H. destruct rp as [|c rp]; [done |]. cbn [os.mkdirAll]. by rewrite H.
Qed.

(** [os.MkdirAll] never removes or changes a node; when it succeeds the
    path is a directory, and on a directory it does nothing. *)
Lemma MkdirAll_grows (path : gopath) (w w' : world) (e : option error) :
  os.MkdirAll path w = (e, w') ->
  nodes w ⊆ nodes w' /\ capacity w' = capacity w.
Proof.
  unfold os.MkdirAll. destruct path as [p|]; [| by intros [= _ <-]].
  destruct (os.mkdirAll (rev p) (nodes w)) as [e1 m1] eqn:HM.
  intros [= _ <-]. split; [| done]. by eapply mkdirAll_grows.
Qed.

Lemma MkdirAll_success (path : gopath) (w w' : world) :
  os.MkdirAll path w = (None, w') ->
  exists p, path = Some p /\ lstat (nodes w') p = Some IsDir.
Proof.
  unfold os.MkdirAll. destruct path as [p|]; [| done].
  destruct (os.mkdirAll (rev p) (nodes w)) as [e1 m1] eqn:HM.
  intros [= -> <-]. exists p. split; [done |].
  apply mkdirAll_success in HM. by rewrite rev_involutive in HM.
Qed.

Lemma MkdirAll_existing (p : pathname) (w : world) :
  lstat (nodes w) p = Some IsDir -> os.MkdirAll (Some p) w = (None, w).
Proof.
  intros H. unfold os.MkdirAll.
  rewrite mkdirAll_existing by by rewrite rev_involutive. by destruct w.
Qed.

(** ** Creating the resources of a sandbox: what a run leaves *)

Lemma sandboxURI_lock (sandboxID : string) :
  sandboxID <> "" ->
  sandboxURI sandboxID lockFileType
  = (Some (filepath.Join (filepath.Join runStoragePath [sandboxID; ""])
             [lockFileName]),
     Some (filepath.Join runStoragePath [sandboxID; ""]), None).
Proof.
  intros HS. unfold sandboxURI, resourceURI, resourceDir.
  by destruct (decide _).
Qed.

Lemma containerURI_config (sandboxID containerID : string) :
  sandboxID <> "" -> containerID <> "" ->
  containerURI sandboxID containerID configFileType
  = (Some (filepath.Join
             (filepath.Join configStoragePath [sandboxID; containerID])
             [configFile]),
     Some (filepath.Join configStoragePath [sandboxID; containerID]), None).
Proof.
  intros HS HC. unfold containerURI, resourceURI, resourceDir.
  repeat (destruct (decide _); [done |]).
  by rewrite bool_decide_eq_false_2.
Qed.

Lemma containerURI_state (sandboxID containerID : string) :
  sandboxID <> "" -> containerID <> "" ->
  containerURI sandboxID containerID stateFileType
  = (Some (filepath.Join
             (filepath.Join runStoragePath [sandboxID; containerID])
             [stateFile]),
     Some (filepath.Join runStoragePath [sandboxID; containerID]), None).
Proof.
  intros HS HC. unfold containerURI, resourceURI, resourceDir.
  repeat (destruct (decide _); [done |]).
  by rewrite bool_decide_eq_false_2.
Qed.

(** Without an identifier the URI functions return no path. *)
Lemma sandboxURI_no_sandbox (resource : sandboxResource) :
  sandboxURI "" resource = (None, None, Some errNeedSandboxID).
Proof. done. Qed.

Lemma containerURI_no_container (sandboxID : string)
    (resource : sandboxResource) :
  (containerURI sandboxID "" resource).1.2 = None.
Proof. unfold containerURI. by repeat destruct (decide _). Qed.

Lemma createSandboxDirs_success (sandbox : Sandbox) (w w' : world) :
  createSandboxDirs sandbox [stateFileType; configFileType] w = (None, w') ->
  Sandbox_id sandbox <> ""
  /\ nodes w ⊆ nodes w' /\ capacity w' = capacity w
  /\ lstat (nodes w')
       (filepath.Join runStoragePath [Sandbox_id sandbox; ""]) = Some IsDir
  /\ lstat (nodes w')
       (filepath.Join configStoragePath [Sandbox_id sandbox; ""]) = Some IsDir.
Proof.
  cbn [createSandboxDirs].
  destruct (decide (Sandbox_id sandbox = "")) as [->|HS];
    [by rewrite sandboxURI_no_sandbox |].
  rewrite sandboxURI_state, sandboxURI_config by done.
  destruct (os.MkdirAll _ w) as [[e1|] w1] eqn:H1; [done |].
  destruct (os.MkdirAll _ w1) as [[e2|] w2] eqn:H2; [done |].
  intros [= <-].
  pose proof (MkdirAll_grows _ _ _ _ H1) as [Hs1 Hc1].
  pose proof (MkdirAll_grows _ _ _ _ H2) as [Hs2 Hc2].
  apply MkdirAll_success in H1 as (p1 & [= <-] & Hd1).
  apply MkdirAll_success in H2 as (p2 & [= <-] & Hd2).
  repeat split; [done | by etrans | congruence | | done].
  by eapply lstat_weaken.
Qed.

Lemma createContainerDirs_success (sandbox : Sandbox) (container : Container)
    (w w' : world) :
  Sandbox_id sandbox <> "" ->
  createContainerDirs sandbox container [stateFileType; configFileType] w
  = (None, w') ->
  Container_id container <> ""
  /\ nodes w ⊆ nodes w' /\ capacity w' = capacity w
  /\ lstat (nodes w')
       (filepath.Join runStoragePath
          [Sandbox_id sandbox; Container_id container]) = Some IsDir
  /\ lstat (nodes w')
       (filepath.Join configStoragePath
          [Sandbox_id sandbox; Container_id container]) = Some IsDir.
Proof.
  intros HS. cbn [createContainerDirs].
  destruct (decide (Container_id container = "")) as [->|HC].
  { pose proof (containerURI_no_container (Sandbox_id sandbox) stateFileType).
    destruct (containerURI _ "" stateFileType) as [[file path] err].
    simplify_eq/=. by destruct (deleteSandboxResources _ _ _). }
  rewrite containerURI_state, containerURI_config by done.
  destruct (os.MkdirAll _ w) as [[e1|] w1] eqn:H1;
    [by destruct (deleteSandboxResources _ _ _) |].
  destruct (os.MkdirAll _ w1) as [[e2|] w2] eqn:H2;
    [by destruct (deleteSandboxResources _ _ _) |].
  intros [= <-].
  pose proof (MkdirAll_grows _ _ _ _ H1) as [Hs1 Hc1].
  pose proof (MkdirAll_grows _ _ _ _ H2) as [Hs2 Hc2].
  apply MkdirAll_success in H1 as (p1 & [= <-] & Hd1).
  apply MkdirAll_success in H2 as (p2 & [= <-] & Hd2).
  repeat split; [done | by etrans | congruence | | done].
  by eapply lstat_weaken.
Qed.

Lemma createAllContainerDirs_success (sandbox : Sandbox) (cs : list Container)
    (w w' : world) :
  Sandbox_id sandbox <> "" ->
  createAllContainerDirs sandbox cs w = (None, w') ->
  nodes w ⊆ nodes w' /\ capacity w' = capacity w
  /\ Forall (fun c =>
       Container_id c <> ""
       /\ lstat (nodes w')
            (filepath.Join runStoragePath [Sandbox_id sandbox; Container_id c])
          = Some IsDir
       /\ lstat (nodes w')
            (filepath.Join configStoragePath
               [Sandbox_id sandbox; Container_id c]) = Some IsDir) cs.
Proof.
  intros HS. revert w. induction cs as [|c cs IH]; intros w.
  - by intros [= <-].
  - cbn [createAllContainerDirs].
    destruct (createContainerDirs _ _ _ w) as [[e1|] w1] eqn:H1; [done |].
    intros (Hs2 & Hc2 & Hall)%IH.
    apply createContainerDirs_success in H1 as (HC & Hs1 & Hc1 & Hr & Hf);
      [| done].
    split; [by etrans |]. split; [congruence |]. constructor; [| done].
    split; [done |]. split; by eapply lstat_weaken.
Qed.

(** What the last step, the lock file, leaves. *)
Lemma Stat_exists (p : pathname) (w : world) :
  os.Stat (Some p) w = None <-> lstat (nodes w) p <> None.
Proof. unfold os.Stat. by destruct (lstat (nodes w) p). Qed.

Lemma Create_missing (p f : pathname) (w w' : world) :
  lstat (nodes w) p = None ->
  os.Create (Some p) w = (Ok f, w') ->
  nodes w ⊆ nodes w' /\ capacity w' = capacity w
  /\ lstat (nodes w') p = Some (IsFile []).
Proof.
  intros Hp ([= <-] & Hf & ->)%Create_success.
  destruct p as [|c p]; [done |]. simpl in *.
  split; [by apply insert_subseteq |]. split; [done |].
  apply lookup_insert_eq.
Qed.

(** What a successful [createAllResources] leaves. *)
Lemma createAllResources_success (sandbox : Sandbox) (w w' : world) :
  createAllResources sandbox w = (None, w') ->
  Sandbox_id sandbox <> ""
  /\ lstat (nodes w') (filepath.Join runStoragePath [Sandbox_id sandbox])
     = Some IsDir
  /\ lstat (nodes w') (filepath.Join configStoragePath [Sandbox_id sandbox])
     = Some IsDir
  /\ Forall (fun c =>
       Container_id c <> ""
       /\ lstat (nodes w')
            (filepath.Join runStoragePath [Sandbox_id sandbox; Container_id c])
          = Some IsDir
       /\ lstat (nodes w')
            (filepath.Join configStoragePath
               [Sandbox_id sandbox; Container_id c]) = Some IsDir)
       (containers sandbox)
  /\ os.Stat (sandboxURI (Sandbox_id sandbox) lockFileType).1.1 w' = None
  /\ nodes w ⊆ nodes w'
  /\ capacity w' = capacity w.
Proof.
  unfold createAllResources.
  destruct (createSandboxDirs _ _ w) as [[e1|] w1] eqn:H1; [done |].
  apply createSandboxDirs_success in H1 as (HS & Hs1 & Hc1 & Hr & Hf).
  destruct (createAllContainerDirs _ _ w1) as [[e2|] w2] eqn:H2; [done |].
  apply createAllContainerDirs_success in H2 as (Hs2 & Hc2 & Hall); [| done].
  rewrite sandboxURI_lock by done.
  set (lock := filepath.Join _ [lockFileName]).
  rewrite Join_empty in Hr, Hf.
  assert (forall w3, nodes w2 ⊆ nodes w3 -> capacity w3 = capacity w2 ->
            lstat (nodes w3) lock <> None ->
            (None : option error, w3) = (None, w') ->
            Sandbox_id sandbox <> ""
            /\ lstat (nodes w')
                 (filepath.Join runStoragePath [Sandbox_id sandbox]) = Some IsDir
            /\ lstat (nodes w')
                 (filepath.Join configStoragePath [Sandbox_id sandbox])
               = Some IsDir
            /\ Forall (fun c =>
                 Container_id c <> ""
                 /\ lstat (nodes w')
                      (filepath.Join runStoragePath
                         [Sandbox_id sandbox; Container_id c]) = Some IsDir
                 /\ lstat (nodes w')
                      (filepath.Join configStoragePath
                         [Sandbox_id sandbox; Container_id c]) = Some IsDir)
                 (containers sandbox)
            /\ os.Stat (Some lock) w' = None
            /\ nodes w ⊆ nodes w'
            /\ capacity w' = capacity w) as Hend.
  { intros w3 Hs3 Hc3 Hlock [= <-]. split; [done |].
    split; [eapply lstat_weaken; [| done]; by etrans |].
    split; [eapply lstat_weaken; [| done]; by etrans |].
    split.
    { eapply Forall_impl; [done |]. intros c (HC & Hcr & Hcf).
      split; [done |]. split; by eapply lstat_weaken. }
    split; [by apply Stat_exists |]. split; [| congruence].
    etrans; [done |]. by etrans. }
  destruct (os.Stat (Some lock) w2) as [e3|] eqn:HStat.
  - destruct (os.Create (Some lock) w2) as [[f|e5] w5] eqn:HC;
      [| by destruct (deleteSandboxResources _ _ _)].
    assert (lstat (nodes w2) lock = None) as Hnone.
    { unfold os.Stat in HStat. by destruct (lstat (nodes w2) lock). }
    apply (Create_missing _ _ _ _ Hnone) in HC as (Hs5 & Hc5 & Hl5).
    apply Hend; [done | done |]. by rewrite Hl5.
  - apply Hend; [done | done |]. by apply Stat_exists.
Qed.

(** [os.MkdirAll] changes no node but those on its path. *)
Lemma mkdirAll_frame (rp : list string) (m m' : gmap (list string) node)
    (e : option error) (p : pathname) :
  os.mkdirAll rp m = (e, m') -> ~ p `prefix_of` rev rp -> m' !! p = m !! p.
Proof.
  revert m m' e. induction rp as [|c rp IH]; intros m m' e.
  - simpl. by intros [= _ <-].
  - cbn [os.mkdirAll]. intros H Hp.
    assert (~ p `prefix_of` rev rp) as Hp'.
    { intros Hpre. apply Hp. simpl. by apply prefix_app_r. }
    destruct (lstat m (rev (c :: rp))) as [[|b]|]; try by simplify_eq.
    destruct (os.mkdirAll rp m) as [[e1|] m1] eqn:Hrec.
    + simplify_eq. by eapply IH.
    + rewrite <- (IH _ _ _ Hrec Hp'). unfold os.Mkdir in H.
      repeat case_match; simplify_eq; try done.
      apply lookup_insert_ne. by intros <-.
Qed.

Lemma MkdirAll_frame (dir : pathname) (w w' : world) (e : option error)
    (p : pathname) :
  os.MkdirAll (Some dir) w = (e, w') -> ~ p `prefix_of` dir ->
  nodes w' !! p = nodes w !! p.
Proof.
  unfold os.MkdirAll.
  destruct (os.mkdirAll (rev dir) (nodes w)) as [e1 m1] eqn:HM.
  intros [= _ <-] Hp. simpl. eapply mkdirAll_frame; [done |].
  by rewrite rev_involutive.
Qed.

(** The path of the lock file does not lie on the way to a directory that
    [createAllResources] makes, unless a container is named like it. *)
Lemma lock_off_the_way (root : pathname) (sandboxID : string)
    (rest : pathname) :
  root = configStoragePath \/ root = runStoragePath ->
  rest = [] \/ (exists c, rest = [c] /\ c <> lockFileName) ->
  ~ runStoragePath ++ [sandboxID; lockFileName]
    `prefix_of` root ++ sandboxID :: rest.
Proof.
  rewrite configStoragePath_eq, runStoragePath_eq.
  intros [->| ->] [->|(c & -> & Hc)] [k Hk]; by simplify_eq/=.
Qed.

Lemma createAllContainerDirs_lock (sandbox : Sandbox) (cs : list Container)
    (w w' : world) :
  plain (Sandbox_id sandbox) ->
  Forall (fun c => plain (Container_id c) /\ Container_id c <> lockFileName)
    cs ->
  createAllContainerDirs sandbox cs w = (None, w') ->
  nodes w' !! (runStoragePath ++ [Sandbox_id sandbox; lockFileName])
  = nodes w !! (runStoragePath ++ [Sandbox_id sandbox; lockFileName]).
Proof.
  intros HS Hall. revert w.
  induction Hall as [|c cs [Hc Hname] _ IH]; intros w; [by intros [= <-] |].
  cbn [createAllContainerDirs createContainerDirs].
  rewrite containerURI_state, containerURI_config by apply HS || apply Hc.
  rewrite (Join_sandbox_container runStoragePath),
    (Join_sandbox_container configStoragePath), !Join_empty,
    (Join_plain runStoragePath), (Join_plain configStoragePath) by done.
  rewrite <- !app_assoc. cbn [app].
  destruct (os.MkdirAll _ w) as [[e1|] w1] eqn:H1;
    [by destruct (deleteSandboxResources _ _ _) |].
  destruct (os.MkdirAll _ w1) as [[e2|] w2] eqn:H2;
    [by destruct (deleteSandboxResources _ _ _) |].
  intros ->%IH.
  rewrite (MkdirAll_frame _ _ _ _ _ H2), (MkdirAll_frame _ _ _ _ _ H1);
    [done | |]; apply lock_off_the_way; eauto.
Qed.

(** When the identifiers are plain, no container is named like the lock
    file and nothing is at its path, a successful run makes the lock file,
    empty. *)
Lemma createAllResources_makes_lock (sandbox : Sandbox) (w w' : world) :
  createAllResources sandbox w = (None, w') ->
  plain (Sandbox_id sandbox) ->
  Forall (fun c => plain (Container_id c) /\ Container_id c <> lockFileName)
    (containers sandbox) ->
  sandboxURI (Sandbox_id sandbox) lockFileType
  = (Some (runStoragePath ++ [Sandbox_id sandbox; lockFileName]),
     Some (runStoragePath ++ [Sandbox_id sandbox]), None)
  /\ (lstat (nodes w) (runStoragePath ++ [Sandbox_id sandbox; lockFileName])
      = None ->
      lstat (nodes w') (runStoragePath ++ [Sandbox_id sandbox; lockFileName])
      = Some (IsFile [])).
Proof.
  intros Hcreate HS Hall.
  assert (Sandbox_id sandbox <> "") as HS0 by apply HS.
  assert (sandboxURI (Sandbox_id sandbox) lockFileType
          = (Some (runStoragePath ++ [Sandbox_id sandbox; lockFileName]),
             Some (runStoragePath ++ [Sandbox_id sandbox]), None)) as HU.
  { rewrite sandboxURI_lock by done.
    rewrite Join_empty, (Join_plain runStoragePath) by done.
    rewrite Join_plain by by repeat split.
    by rewrite <- app_assoc. }
  split; [done |]. intros Hfree.
  unfold createAllResources in Hcreate. rewrite HU in Hcreate.
  destruct (createSandboxDirs _ _ w) as [[e1|] w1] eqn:H1; [done |].
  destruct (createAllContainerDirs _ _ w1) as [[e2|] w2] eqn:H2; [done |].
  assert (lstat (nodes w2) (runStoragePath ++ [Sandbox_id sandbox; lockFileName])
          = None) as Hfree2.
  { assert (runStoragePath ++ [Sandbox_id sandbox; lockFileName] <> [])
      as Hne by by intros [? ?]%app_eq_nil.
    destruct (runStoragePath ++ [Sandbox_id sandbox; lockFileName]) as [|x l]
      eqn:Hlock; [done |]. rewrite <- Hlock in *. cbn [lstat] in *.
    rewrite Hlock in Hfree |- *. cbn [lstat] in *. rewrite <- Hlock in *.
    rewrite (createAllContainerDirs_lock _ _ _ _ HS Hall H2).
    cbn [createSandboxDirs] in H1.
    rewrite sandboxURI_state, sandboxURI_config in H1 by done.
    rewrite !Join_empty, (Join_plain runStoragePath),
      (Join_plain configStoragePath) in H1 by done.
    destruct (os.MkdirAll _ w) as [[e3|] w3] eqn:H3; [done |].
    destruct (os.MkdirAll _ w3) as [[e4|] w4] eqn:H4; [done |].
    simplify_eq.
    rewrite (MkdirAll_frame _ _ _ _ _ H4), (MkdirAll_frame _ _ _ _ _ H3);
      [done | |].
    - apply (lock_off_the_way runStoragePath _ []); eauto.
    - apply (lock_off_the_way configStoragePath _ []); eauto. }
  unfold os.Stat in Hcreate. rewrite Hfree2 in Hcreate.
  destruct (os.Create _ w2) as [[f|e5] w5] eqn:HC;
    [| by destruct (deleteSandboxResources _ _ _)].
  apply (Create_missing _ _ _ _ Hfree2) in HC as (_ & _ & Hmade).
  by simplify_eq.
Qed.

(** X1.  When [createAllResources] succeeds, the sandbox and each of its
    containers have an identifier; the runtime and the configuration
    directories of the sandbox, and those of each of its containers, are
    directories; there is a node at the path of the lock file of the
    sandbox ([os.Stat] succeeds), which is the empty regular file that the
    run made when nothing was there before, the identifiers are plain path
    components and no container is named like the lock file; and every
    node that was in the tree before is still there, unchanged. *)
Theorem createAllResources_creates (sandbox : Sandbox) (w w' : world) :
  createAllResources sandbox w = (None, w') ->
  Sandbox_id sandbox <> ""
  /\ lstat (nodes w') (filepath.Join runStoragePath [Sandbox_id sandbox])
     = Some IsDir
  /\ lstat (nodes w') (filepath.Join configStoragePath [Sandbox_id sandbox])
     = Some IsDir
  /\ Forall (fun c =>
       Container_id c <> ""
       /\ lstat (nodes w')
            (filepath.Join runStoragePath [Sandbox_id sandbox; Container_id c])
          = Some IsDir
       /\ lstat (nodes w')
            (filepath.Join configStoragePath
               [Sandbox_id sandbox; Container_id c]) = Some IsDir)
       (containers sandbox)
  /\ os.Stat (sandboxURI (Sandbox_id sandbox) lockFileType).1.1 w' = None
  /\ (plain (Sandbox_id sandbox) ->
      Forall (fun c => plain (Container_id c)
                       /\ Container_id c <> lockFileName)
        (containers sandbox) ->
      (sandboxURI (Sandbox_id sandbox) lockFileType).1.1
      = Some (runStoragePath ++ [Sandbox_id sandbox; lockFileName])
      /\ (lstat (nodes w)
            (runStoragePath ++ [Sandbox_id sandbox; lockFileName]) = None ->
          lstat (nodes w')
            (runStoragePath ++ [Sandbox_id sandbox; lockFileName])
          = Some (IsFile [])))
  /\ (forall (p : pathname) (n : node),
        nodes w !! p = Some n -> nodes w' !! p = Some n)
  /\ capacity w' = capacity w.
Proof.
  intros Hcreate.
  pose proof Hcreate
    as (HS & Hr & Hf & Hall & Hlock & Hsub & Hcap)%createAllResources_success.
  do 5 (split; [done |]). split.
  { intros Hplain Hnames.
    destruct (createAllResources_makes_lock _ _ _ Hcreate Hplain Hnames)
      as [-> Hmade].
    by split. }
  split; [| done]. intros p n Hp. by eapply lookup_weaken.
Qed.

Lemma createAllResources_creates_witness :
  lstat (nodes Demo.w1) (filepath.Join runStoragePath ["s1"; "c1"])
  = Some IsDir
  /\ os.Stat (sandboxURI "s1" lockFileType).1.1 Demo.w1 = None
  /\ lstat (nodes Demo.w1) (runStoragePath ++ ["s1"; lockFileName])
     = Some (IsFile []).
Proof.
  destruct (createAllResources_creates Demo.s1 (Demo.empty_world 4096) Demo.w1)
    as (_ & _ & _ & Hall & Hlock & Hfile & _).
  - vm_compute. reflexivity.
  - split; [| split; [exact Hlock |]].
    + apply Forall_inv in Hall. apply Hall.
    + apply Hfile.
      * repeat split; discriminate.
      * repeat constructor; discriminate.
      * reflexivity.
Defined.

Lemma createSandboxDirs_existing (sandbox : Sandbox) (w : world) :
  Sandbox_id sandbox <> "" ->
  lstat (nodes w) (filepath.Join runStoragePath [Sandbox_id sandbox])
  = Some IsDir ->
  lstat (nodes w) (filepath.Join configStoragePath [Sandbox_id sandbox])
  = Some IsDir ->
  createSandboxDirs sandbox [stateFileType; configFileType] w = (None, w).
Proof.
  intros HS Hr Hf. cbn [createSandboxDirs]. rewrite <- Join_empty in Hr, Hf.
  rewrite sandboxURI_state, sandboxURI_config by done.
  by rewrite !MkdirAll_existing.
Qed.

Lemma createAllContainerDirs_existing (sandbox : Sandbox) (cs : list Container)
    (w : world) :
  Sandbox_id sandbox <> "" ->
  Forall (fun c =>
    Container_id c <> ""
    /\ lstat (nodes w)
         (filepath.Join runStoragePath [Sandbox_id sandbox; Container_id c])
       = Some IsDir
    /\ lstat (nodes w)
         (filepath.Join configStoragePath [Sandbox_id sandbox; Container_id c])
       = Some IsDir) cs ->
  createAllContainerDirs sandbox cs w = (None, w).
Proof.
  intros HS. induction 1 as [|c cs (HC & Hr & Hf) _ IH]; [done |].
  cbn [createAllContainerDirs createContainerDirs].
  rewrite containerURI_state, containerURI_config by done.
  by rewrite !MkdirAll_existing.
Qed.

(** X2.  [createAllResources] is idempotent: run again on the tree that a
    successful run left, it succeeds and changes nothing. *)
Theorem createAllResources_idempotent (sandbox : Sandbox) (w w' : world) :
  createAllResources sandbox w = (None, w') ->
  createAllResources sandbox w' = (None, w').
Proof.
  intros (HS & Hr & Hf & Hall & Hlock & _)%createAllResources_success.
  unfold createAllResources.
  rewrite createSandboxDirs_existing by done.
  rewrite createAllContainerDirs_existing by done.
  rewrite sandboxURI_lock in Hlock |- * by done. cbn [fst] in Hlock.
  by rewrite Hlock.
Qed.

Lemma createAllResources_idempotent_witness :
  createAllResources Demo.s1 Demo.w1 = (None, Demo.w1).
Proof.
  apply (createAllResources_idempotent Demo.s1 (Demo.empty_world 4096)).
  vm_compute. reflexivity.
Defined.

(** ** What removing and creating leave alone *)

Lemma RemoveAll_frame (dir p : pathname) (w : world) :
  ~ dir `prefix_of` p -> nodes (os.RemoveAll (Some dir) w).2 !! p = nodes w !! p.
Proof.
  intros Hpre. simpl. destruct (nodes w !! p) as [n|] eqn:Hp.
  - by apply map_lookup_filter_Some.
  - apply map_lookup_filter_None. by left.
Qed.

Lemma RemoveAll_capacity (path : gopath) (w : world) :
  capacity (os.RemoveAll path w).2 = capacity w.
Proof. by destruct path. Qed.

(** The directory that [resourceURI] returns. *)
Lemma resourceURI_dir (sandboxSpecific : bool) (sandboxID containerID : string)
    (resource : sandboxResource) (file : gopath) (dir : pathname)
    (e : option error) :
  resourceURI sandboxSpecific sandboxID containerID resource
  = (file, Some dir, e) ->
  dir = filepath.Join
          (if resource =? configFileType then configStoragePath
           else runStoragePath) [sandboxID; containerID].
Proof.
  unfold resourceURI. destruct (decide _); [done |].
  destruct (resourceDir _ _ _ _) as [d [err|]] eqn:Hd; [done |].
  destruct (resourceFilename resource); [| done].
  intros [= _ -> _]. by eapply resourceDir_root.
Qed.

(** Whatever the kinds and the outcome, [deleteSandboxResources] changes
    nothing outside the two directories of the sandbox. *)
Lemma removeSandboxDirs_frame (sandboxID : string)
    (resources : list sandboxResource) (w w' : world) (e : option error)
    (p : pathname) :
  removeSandboxDirs sandboxID resources w = (e, w') ->
  ~ filepath.Join configStoragePath [sandboxID] `prefix_of` p ->
  ~ filepath.Join runStoragePath [sandboxID] `prefix_of` p ->
  nodes w' !! p = nodes w !! p /\ capacity w' = capacity w.
Proof.
  intros Hrm Hcfg Hrun. revert w Hrm.
  induction resources as [|r rs IH]; intros w; simpl.
  - by intros [= _ <-].
  - destruct (sandboxURI sandboxID r) as [[file dir] [err|]] eqn:HU;
      [by intros [= _ <-] |].
    assert (nodes (os.RemoveAll dir w).2 !! p = nodes w !! p) as Hsame.
    { destruct dir as [d|]; [| done]. apply RemoveAll_frame.
      apply resourceURI_dir in HU. rewrite Join_empty in HU. subst d.
      by destruct (r =? configFileType). }
    pose proof (RemoveAll_capacity dir w) as Hcap.
    destruct (os.RemoveAll dir w) as [[e1|] w1]; [by intros [= _ <-] |].
    intros [-> ->]%IH. by split.
Qed.

Lemma deleteSandboxResources_frame (sandboxID : string)
    (resources : option (list sandboxResource)) (w w' : world)
    (e : option error) (p : pathname) :
  deleteSandboxResources sandboxID resources w = (e, w') ->
  ~ filepath.Join configStoragePath [sandboxID] `prefix_of` p ->
  ~ filepath.Join runStoragePath [sandboxID] `prefix_of` p ->
  nodes w' !! p = nodes w !! p /\ capacity w' = capacity w.
Proof. apply removeSandboxDirs_frame. Qed.

Lemma createSandboxDirs_grows (sandbox : Sandbox)
    (resources : list sandboxResource) (w w' : world) (e : option error) :
  createSandboxDirs sandbox resources w = (e, w') ->
  nodes w ⊆ nodes w' /\ capacity w' = capacity w.
Proof.
  revert w. induction resources as [|r rs IH]; intros w; simpl.
  - by intros [= _ <-].
  - destruct (sandboxURI _ r) as [[file path] err].
    destruct (os.MkdirAll path w) as [[e1|] w1] eqn:HM;
      apply MkdirAll_grows in HM as [Hs Hc]; [by intros [= _ <-] |].
    intros [Hs' Hc']%IH. split; [by etrans | congruence].
Qed.

Section CreateFrame.

Variables (sandbox : Sandbox) (p : pathname) (n : node).
Hypothesis Hcfg :
  ~ filepath.Join configStoragePath [Sandbox_id sandbox] `prefix_of` p.
Hypothesis Hrun :
  ~ filepath.Join runStoragePath [Sandbox_id sandbox] `prefix_of` p.

Lemma createContainerDirs_frame (container : Container)
    (resources : list sandboxResource) (w w' : world) (e : option error) :
  createContainerDirs sandbox container resources w = (e, w') ->
  nodes w !! p = Some n ->
  nodes w' !! p = Some n /\ capacity w' = capacity w.
Proof.
  revert w. induction resources as [|r rs IH]; intros w; simpl.
  - by intros [= _ <-].
  - destruct (containerURI _ _ r) as [[file path] err].
    destruct (os.MkdirAll path w) as [[e1|] w1] eqn:HM;
      apply MkdirAll_grows in HM as [Hs Hc].
    + destruct (deleteSandboxResources _ _ w1) as [e2 w2] eqn:HD.
      intros [= _ <-] Hp.
      apply (deleteSandboxResources_frame _ _ _ _ _ p) in HD as [-> ->];
        [| done | done].
      split; [by eapply lookup_weaken | done].
    + intros HC Hp. apply IH in HC as [-> ->]; [done |].
      by eapply lookup_weaken.
Qed.

Lemma createAllContainerDirs_frame (cs : list Container) (w w' : world)
    (e : option error) :
  createAllContainerDirs sandbox cs w = (e, w') ->
  nodes w !! p = Some n ->
  nodes w' !! p = Some n /\ capacity w' = capacity w.
Proof.
  revert w. induction cs as [|c cs IH]; intros w.
  - by intros [= _ <-].
  - cbn [createAllContainerDirs].
    destruct (createContainerDirs _ _ _ w) as [[e1|] w1] eqn:HC; intros H Hp;
      apply createContainerDirs_frame in HC as [Hp1 Hc1]; try done.
    + by simplify_eq.
    + apply IH in H as [-> ->]; done.
Qed.

Lemma createAllResources_keeps (w w' : world) (e : option error) :
  createAllResources sandbox w = (e, w') ->
  nodes w !! p = Some n ->
  nodes w' !! p = Some n /\ capacity w' = capacity w.
Proof.
  unfold createAllResources. intros H Hp.
  destruct (createSandboxDirs _ _ w) as [e1 w1] eqn:H1.
  apply createSandboxDirs_grows in H1 as [Hs1 Hc1].
  assert (nodes w1 !! p = Some n) as Hp1 by by eapply lookup_weaken.
  destruct e1 as [e1|]; [by simplify_eq |].
  destruct (createAllContainerDirs _ _ w1) as [e2 w2] eqn:H2.
  apply createAllContainerDirs_frame in H2 as [Hp2 Hc2]; [| done].
  destruct e2 as [e2|]; [simplify_eq; split; [done | congruence] |].
  assert (forall w3 e4 w4,
            deleteSandboxResources (Sandbox_id sandbox) None w3 = (e4, w4) ->
            nodes w3 !! p = Some n -> capacity w3 = capacity w ->
            nodes w4 !! p = Some n /\ capacity w4 = capacity w) as Hdel.
  { intros w3 e4 w4 HD Hp3 Hc3.
    apply (deleteSandboxResources_frame _ _ _ _ _ p) in HD as [-> ->]; done. }
  destruct (sandboxURI _ _) as [[lock dir] [e3|]].
  { destruct (deleteSandboxResources _ _ w2) as [e4 w4] eqn:HD.
    simplify_eq. eapply Hdel; [done | done | congruence]. }
  destruct (os.Stat lock w2) eqn:HStat;
    [| simplify_eq; split; [done | congruence]].
  destruct (os.Create lock w2) as [[f|e5] w5] eqn:HC.
  - pose proof HC as (-> & _)%Create_success.
    assert (lstat (nodes w2) f = None) as Hnone.
    { unfold os.Stat in HStat. by destruct (lstat (nodes w2) f). }
    apply (Create_missing _ _ _ _ Hnone) in HC as (Hs5 & Hc5 & _).
    simplify_eq. split; [by apply (lookup_weaken (nodes w2)) | congruence].
  - apply Create_error in HC as [_ ->].
    destruct (deleteSandboxResources _ _ w2) as [e6 w6] eqn:HD.
    simplify_eq. eapply Hdel; [done | done | congruence].
Qed.

End CreateFrame.

(** X3.  Whether it succeeds or fails, [createAllResources] leaves every
    node that lies outside the two directories of the sandbox as it was:
    what it removes on a failure is confined to them. *)
Theorem createAllResources_frame (sandbox : Sandbox) (w w' : world)
    (e : option error) (p : pathname) (n : node) :
  createAllResources sandbox w = (e, w') ->
  nodes w !! p = Some n ->
  ~ filepath.Join configStoragePath [Sandbox_id sandbox] `prefix_of` p ->
  ~ filepath.Join runStoragePath [Sandbox_id sandbox] `prefix_of` p ->
  nodes w' !! p = Some n.
Proof.
  intros H Hp Hcfg Hrun.
  by destruct (createAllResources_keeps sandbox p n Hcfg Hrun w w' e H Hp).
Qed.

Lemma createAllResources_frame_witness :
  nodes (createAllResources Demo.s1 Demo.w_blocked).2
    !! ["var"; "lib"; "vc"; "sbs"] = Some IsDir.
Proof.
  apply (createAllResources_frame Demo.s1 Demo.w_blocked _
           (createAllResources Demo.s1 Demo.w_blocked).1).
  - by destruct (createAllResources Demo.s1 Demo.w_blocked).
  - vm_compute. reflexivity.
  - intros [k Hk]. vm_compute in Hk. discriminate.
  - intros [k Hk]. vm_compute in Hk. discriminate.
Defined.

(** X4.  A failing [createAllResources] either failed while making the
    directories of the sandbox itself, and returns the tree as that first
    loop left it, or leaves nothing at or below the two directories of the
    sandbox. *)
Theorem createAllResources_failure (sandbox : Sandbox) (w w' : world)
    (err : error) :
  createAllResources sandbox w = (Some err, w') ->
  createSandboxDirs sandbox [stateFileType; configFileType] w = (Some err, w')
  \/ (forall p : pathname,
        filepath.Join configStoragePath [Sandbox_id sandbox] `prefix_of` p
        \/ filepath.Join runStoragePath [Sandbox_id sandbox] `prefix_of` p ->
        nodes w' !! p = None).
Proof.
  intros H.
  destruct (createSandboxDirs sandbox [stateFileType; configFileType] w)
    as [[e1|] w1] eqn:H1.
  - left. unfold createAllResources in H. by rewrite H1 in H.
  - right. intros p Hp. by eapply createAllResources_rollback.
Qed.

Lemma createAllResources_failure_witness :
  nodes (createAllResources Cases.s_nameless (Demo.empty_world 4096)).2
    !! ["run"; "vc"; "sbs"; "s2"] = None.
Proof.
  destruct (createAllResources_failure Cases.s_nameless (Demo.empty_world 4096)
              (createAllResources Cases.s_nameless (Demo.empty_world 4096)).2
              (PathError "mkdir" ENOENT)) as [H|H].
  - vm_compute. reflexivity.
  - vm_compute in H. discriminate.
  - apply H. right. by exists [].
Defined.

(** ** Deleting: what goes and what stays *)

(** A fetch reads nothing but the file of the resource and the nodes on
    the way to it. *)
Lemma fetchResource_same (P : Package) (sandboxSpecific : bool)
    (sandboxID containerID : string) (resource : sandboxResource)
    (t : target) (w w' : world) :
  (forall f q,
     (resourceURI sandboxSpecific sandboxID containerID resource).1.1 = Some f ->
     q `prefix_of` f -> nodes w' !! q = nodes w !! q) ->
  fetchResource (P:=P) sandboxSpecific sandboxID containerID resource t w'
  = fetchResource sandboxSpecific sandboxID containerID resource t w.
Proof.
  intros Hsame. unfold fetchResource.
  destruct (commonResourceChecks _ _ _ _); [done |].
  destruct (resourceURI _ _ _ _) as [[file dir] [err|]]; [done |].
  unfold fetchFile. destruct file as [f|]; [| done].
  specialize (Hsame f).
  assert (ioutil.ReadFile (Some f) w' = ioutil.ReadFile (Some f) w) as ->;
    [| done].
  assert (nodes w' !! f = nodes w !! f) as Hf by by apply Hsame.
  assert (missing (nodes w') [] f = missing (nodes w) [] f) as Hwalk.
  { apply missing_same. intros k Hk. by apply Hsame. }
  unfold ioutil.ReadFile, lstat. destruct f as [|c f]; [done |].
  by rewrite Hf, Hwalk.
Qed.

(** The paths of a resource when the identifiers are plain components. *)
Lemma resourceURI_plain (sandboxSpecific : bool) (sandboxID containerID : string)
    (resource : sandboxResource) (file : pathname) (dir : gopath)
    (e : option error) :
  plain sandboxID -> containerID = "" \/ plain containerID ->
  resourceURI sandboxSpecific sandboxID containerID resource
  = (Some file, dir, e) ->
  exists filename,
    resourceFilename resource = Some filename
    /\ file = (if resource =? configFileType then configStoragePath
               else runStoragePath)
              ++ sandboxID
                 :: (if decide (containerID = "") then [] else [containerID])
              ++ [filename].
Proof.
  intros HS HC. unfold resourceURI. destruct (decide _); [done |].
  destruct (resourceDir _ _ _ _) as [d [err|]] eqn:Hd; [done |].
  destruct (resourceFilename resource) as [filename|] eqn:Hfn; [| done].
  destruct d as [d|]; [| done]. simpl. intros [= <- _ _].
  exists filename. split; [done |].
  apply resourceDir_root in Hd as ->.
  rewrite Join_plain by by eapply resourceFilename_plain.
  set (root := if resource =? configFileType then _ else _).
  destruct HC as [->|HC].
  - rewrite Join_empty, Join_plain by done.
    rewrite decide_True by done. by rewrite <- app_assoc.
  - rewrite Join_sandbox_container, Join_empty, Join_plain by done.
    rewrite decide_False by apply HC. by rewrite <- !app_assoc.
Qed.

(** The directories of two sandboxes do not overlap. *)
Lemma sandbox_dirs_apart (resource resource' : sandboxResource)
    (sandboxID sandboxID' : string) (rest : pathname) :
  sandboxID' <> sandboxID ->
  ~ (if resource =? configFileType then configStoragePath else runStoragePath)
    ++ [sandboxID]
    `prefix_of`
    (if resource' =? configFileType then configStoragePath else runStoragePath)
    ++ sandboxID' :: rest.
Proof.
  intros Hne [k Hk]. rewrite configStoragePath_eq, runStoragePath_eq in Hk.
  destruct (resource =? _), (resource' =? _); by simplify_eq/=.
Qed.

(** X5.  Deleting resources of one sandbox, whatever the kinds and the
    outcome, does not change what a fetch returns for another sandbox,
    the identifiers being plain path components. *)
Theorem delete_sandbox_keeps_others (P : Package)
    (sandboxID sandboxID' containerID : string)
    (resources : option (list sandboxResource)) (w w' : world)
    (e : option error) (sandboxSpecific : bool) (resource : sandboxResource)
    (t : target) :
  deleteSandboxResources sandboxID resources w = (e, w') ->
  plain sandboxID -> plain sandboxID' -> sandboxID' <> sandboxID ->
  containerID = "" \/ plain containerID ->
  fetchResource (P:=P) sandboxSpecific sandboxID' containerID resource t w'
  = fetchResource sandboxSpecific sandboxID' containerID resource t w.
Proof.
  intros Hdel HS HS' Hne HC. apply fetchResource_same. intros f q Hf Hq.
  destruct (resourceURI _ _ _ _) as [[file dir] err] eqn:HU.
  simpl in Hf. subst file.
  apply resourceURI_plain in HU as (filename & _ & ->); [| done | done].
  eapply deleteSandboxResources_frame; [done | |]; rewrite Join_plain by done;
    intros Hpre.
  - apply (sandbox_dirs_apart configFileType resource sandboxID sandboxID'
             ((if decide (containerID = "") then [] else [containerID])
              ++ [filename])); [done |]. by etrans.
  - apply (sandbox_dirs_apart stateFileType resource sandboxID sandboxID'
             ((if decide (containerID = "") then [] else [containerID])
              ++ [filename])); [done |]. by etrans.
Qed.

Lemma delete_sandbox_keeps_others_witness :
  fetchResource (P:=Demo.package) false "s1" "c1" devicesFileType toDevices
    (deleteSandboxResources "s2" None Demo.w_three).2
  = fetchResource false "s1" "c1" devicesFileType toDevices Demo.w_three.
Proof.
  apply (delete_sandbox_keeps_others Demo.package "s2" "s1" "c1" None
           Demo.w_three _ (deleteSandboxResources "s2" None Demo.w_three).1).
  - by destruct (deleteSandboxResources "s2" None Demo.w_three).
  - repeat split; discriminate.
  - repeat split; discriminate.
  - discriminate.
  - right. repeat split; discriminate.
Defined.

Lemma removeSandboxDirs_only_removes (sandboxID : string)
    (resources : list sandboxResource) (w : world) (p : pathname) :
  nodes w !! p = None ->
  nodes (removeSandboxDirs sandboxID resources w).2 !! p = None.
Proof.
  revert w. induction resources as [|r rs IH]; intros w Hp; simpl; [done |].
  destruct (sandboxURI sandboxID r) as [[file dir] [err|]]; [done |].
  pose proof (RemoveAll_only_removes dir p w Hp) as Hp1.
  destruct (os.RemoveAll dir w) as [[e1|] w1]; [done |]. by apply IH.
Qed.

(** X6.  [deleteSandboxResources] removes directories, not files: when it
    succeeds, for each kind in the list nothing is left at or below the
    directory of the sandbox that holds that kind, the configuration
    directory for the configuration kind and the runtime directory for
    every other kind. *)
Theorem delete_kind_removes_directory (sandboxID : string)
    (resources : list sandboxResource) (resource : sandboxResource)
    (w w' : world) (p : pathname) :
  deleteSandboxResources sandboxID (Some resources) w = (None, w') ->
  In resource resources ->
  filepath.Join
    (if resource =? configFileType then configStoragePath else runStoragePath)
    [sandboxID] `prefix_of` p ->
  nodes w' !! p = None.
Proof.
  unfold deleteSandboxResources. intros Hdel Hin Hp. revert w Hdel.
  induction resources as [|r rs IH]; intros w; [done |]. simpl.
  destruct (sandboxURI sandboxID r) as [[file dir] [err|]] eqn:HU; [done |].
  destruct (os.RemoveAll dir w) as [[e1|] w1] eqn:HR; [done |].
  destruct Hin as [->|Hin]; [| by apply IH].
  intros Hrest.
  replace w' with (removeSandboxDirs sandboxID rs w1).2 by by rewrite Hrest.
  apply removeSandboxDirs_only_removes.
  replace w1 with (os.RemoveAll dir w).2 by by rewrite HR.
  destruct dir as [d|].
  - apply resourceURI_dir in HU as ->. rewrite Join_empty.
    by apply RemoveAll_below.
  - unfold sandboxURI, resourceURI in HU. destruct (decide _); [done |].
    destruct (resourceDir _ _ _ _) as [[d|] [err|]] eqn:Hd; try done.
    + by destruct (resourceFilename resource).
    + unfold resourceDir in Hd. repeat case_match; simplify_eq.
Qed.

Lemma delete_kind_removes_directory_witness :
  nodes (deleteSandboxResources "s1" (Some [lockFileType]) Demo.w_three).2
    !! ["run"; "vc"; "sbs"; "s1"; "c1"; "devices.json"] = None.
Proof.
  apply (delete_kind_removes_directory "s1" [lockFileType] lockFileType
           Demo.w_three).
  - vm_compute. reflexivity.
  - by left.
  - by exists ["c1"; "devices.json"].
Defined.

Lemma Join_container_dir (base : pathname) (sandboxID containerID : string) :
  filepath.Join (filepath.Join base [sandboxID; ""]) [containerID; "/"]
  = filepath.Join base [sandboxID; containerID].
Proof.
  unfold filepath.Join. simpl. by rewrite !app_nil_r, !fold_left_app.
Qed.

(** The directory [deleteContainerResources] removes for a kind is the
    directory [resourceDir] gives for the sandbox and the container. *)
Lemma containerDir_eq (sandboxID containerID : string)
    (resource : sandboxResource) (file dir : gopath) :
  sandboxURI sandboxID resource = (file, dir, None) ->
  filepath.JoinTo dir [containerID; "/"]
  = Some (filepath.Join
            (if resource =? configFileType then configStoragePath
             else runStoragePath) [sandboxID; containerID]).
Proof.
  intros HU. destruct dir as [d|].
  - apply resourceURI_dir in HU as ->. simpl. by rewrite Join_container_dir.
  - unfold sandboxURI, resourceURI in HU. destruct (decide _); [done |].
    destruct (resourceDir _ _ _ _) as [[d|] [err|]] eqn:Hd; try done.
    + by destruct (resourceFilename resource).
    + unfold resourceDir in Hd. repeat case_match; simplify_eq.
Qed.

(** X7.  [deleteContainerResources] does not test the container
    identifier: with the empty identifier the directory it removes for a
    kind is the directory of the sandbox, and the call does what
    [deleteSandboxResources] does. *)
Theorem deleteContainerResources_no_container (sandboxID : string)
    (resources : option (list sandboxResource)) (w : world) :
  deleteContainerResources sandboxID "" resources w
  = deleteSandboxResources sandboxID resources w.
Proof.
  unfold deleteContainerResources, deleteSandboxResources.
  generalize (match resources with
              | Some l => l
              | None => [configFileType; stateFileType]
              end).
  intros rs. revert w. induction rs as [|r rs IH]; intros w; [done |]. simpl.
  destruct (sandboxURI sandboxID r) as [[file dir] [err|]] eqn:HU; [done |].
  assert (filepath.JoinTo dir [""; "/"] = dir) as ->.
  { by destruct dir. }
  destruct (os.RemoveAll dir w) as [[e1|] w1]; [done |]. apply IH.
Qed.

(** X8.  When [deleteContainerResources] succeeds with the [nil] slice,
    nothing is left at or below the configuration and the runtime
    directory of the container, and every other node is as it was. *)
Theorem deleteContainerResources_exact (sandboxID containerID : string)
    (w w' : world) :
  deleteContainerResources sandboxID containerID None w = (None, w') ->
  (forall p : pathname,
     filepath.Join configStoragePath [sandboxID; containerID] `prefix_of` p
     \/ filepath.Join runStoragePath [sandboxID; containerID] `prefix_of` p ->
     nodes w' !! p = None)
  /\ (forall p : pathname,
        ~ filepath.Join configStoragePath [sandboxID; containerID] `prefix_of` p ->
        ~ filepath.Join runStoragePath [sandboxID; containerID] `prefix_of` p ->
        nodes w' !! p = nodes w !! p).
Proof.
  unfold deleteContainerResources. cbn [removeContainerDirs].
  destruct (decide (sandboxID = "")) as [->|HS]; [done |].
  rewrite sandboxURI_config, sandboxURI_state by done.
  cbn [filepath.JoinTo option_map]. rewrite !Join_container_dir.
  set (cfg := filepath.Join configStoragePath [sandboxID; containerID]).
  set (run := filepath.Join runStoragePath [sandboxID; containerID]).
  destruct (os.RemoveAll (Some cfg) w) as [[e1|] w1] eqn:H1; [done |].
  destruct (os.RemoveAll (Some run) w1) as [[e2|] w2] eqn:H2; [done |].
  intros [= <-].
  replace w2 with (os.RemoveAll (Some run) w1).2 by by rewrite H2.
  replace w1 with (os.RemoveAll (Some cfg) w).2 by by rewrite H1.
  split.
  - intros p [Hp|Hp]; [| by apply RemoveAll_below].
    apply RemoveAll_only_removes. by apply RemoveAll_below.
  - intros p Hcfg Hrun. by rewrite !RemoveAll_frame.
Qed.

Lemma deleteContainerResources_exact_witness :
  nodes (deleteContainerResources "s1" "c1" None Demo.w_three).2
    !! ["run"; "vc"; "sbs"; "s1"; "c1"; "devices.json"] = None
  /\ nodes (deleteContainerResources "s1" "c1" None Demo.w_three).2
       !! ["run"; "vc"; "sbs"; "s1"; "lock"] = Some (IsFile []).
Proof.
  destruct (deleteContainerResources_exact "s1" "c1" Demo.w_three
              (deleteContainerResources "s1" "c1" None Demo.w_three).2)
    as [Hgone Hkept].
  - vm_compute. reflexivity.
  - split.
    + apply Hgone. right. by exists ["devices.json"].
    + rewrite Hkept.
      * vm_compute. reflexivity.
      * intros [k Hk]. vm_compute in Hk. discriminate.
      * intros [k Hk]. vm_compute in Hk. discriminate.
Defined.

(** ** Storing: which file, and nothing else *)

Lemma Create_frame (name : gopath) (w w' : world) (r : result pathname)
    (p : pathname) :
  os.Create name w = (r, w') -> name <> Some p ->
  nodes w' !! p = nodes w !! p /\ capacity w' = capacity w.
Proof.
  unfold os.Create. destruct name as [f|]; [| by intros [= _ <-]].
  intros H Hne. assert (f <> p) as Hfp by congruence.
  repeat case_match; simplify_eq/=; by rewrite ?lookup_insert_ne.
Qed.

Lemma Write_frame (f : pathname) (b : bytes) (w w' : world)
    (r : nat * option error) (p : pathname) :
  os.Write f b w = (r, w') -> f <> p ->
  nodes w' !! p = nodes w !! p /\ capacity w' = capacity w.
Proof.
  unfold os.Write. intros H Hne.
  repeat case_match; simplify_eq/=; by rewrite ?lookup_insert_ne.
Qed.

Section Store.

Variable P : Package.

Lemma storeFile_frame (file : gopath) (v : data P) (w w' : world)
    (e : option error) (p : pathname) :
  storeFile file v w = (e, w') -> file <> Some p ->
  nodes w' !! p = nodes w !! p /\ capacity w' = capacity w.
Proof.
  unfold storeFile. destruct file as [f|]; [| by intros [= _ <-]].
  intros H Hne.
  destruct (os.Create (Some f) w) as [[f'|err] w1] eqn:HC.
  - pose proof HC as ([= <-] & _)%Create_success.
    apply (Create_frame _ _ _ _ p) in HC as [Hn1 Hc1]; [| done].
    destruct (json_Marshal v); [| simplify_eq; done].
    destruct (os.Write f a w1) as [r w2] eqn:HW.
    apply (Write_frame _ _ _ _ _ p) in HW as [Hn2 Hc2]; [| congruence].
    simplify_eq. split; congruence.
  - apply Create_error in HC as [_ ->]. by simplify_eq.
Qed.

Lemma storeDeviceFile_frame (file : gopath) (v : data P) (w w' : world)
    (e : option error) (p : pathname) :
  storeDeviceFile file v w = (e, w') -> file <> Some p ->
  nodes w' !! p = nodes w !! p /\ capacity w' = capacity w.
Proof.
  unfold storeDeviceFile. destruct file as [f|]; [| by intros [= _ <-]].
  intros H Hne.
  destruct (os.Create (Some f) w) as [[f'|err] w1] eqn:HC.
  - pose proof HC as ([= <-] & _)%Create_success.
    apply (Create_frame _ _ _ _ p) in HC as [Hn1 Hc1]; [| done].
    destruct v; try (simplify_eq; done).
    destruct (Marshal _ _); [| simplify_eq; done].
    destruct (os.Write f a w1) as [[n err] w2] eqn:HW.
    apply (Write_frame _ _ _ _ _ p) in HW as [Hn2 Hc2]; [| congruence].
    destruct err; simplify_eq; split; congruence.
  - apply Create_error in HC as [_ ->]. by simplify_eq.
Qed.

(** The network file has one place whatever the scope of the call. *)
Lemma resourceURI_network (sandboxSpecific : bool)
    (sandboxID containerID : string) :
  resourceURI true sandboxID containerID networkFileType
  = resourceURI sandboxSpecific sandboxID containerID networkFileType.
Proof. by destruct sandboxSpecific. Qed.

(** Once the common checks pass, a value stored under the kind of its
    type goes, with the writer of that type, to the file of the kind. *)
Lemma storeResource_dispatch (sandboxSpecific : bool)
    (sandboxID containerID : string) (resource : sandboxResource)
    (v : data P) (w : world) :
  commonResourceChecks sandboxSpecific sandboxID containerID resource = None ->
  kind_of v = Some resource ->
  storeResource sandboxSpecific sandboxID containerID resource v w
  = (match v with
     | aDevices _ => storeDeviceFile
     | _ => storeFile
     end) (resourceURI sandboxSpecific sandboxID containerID resource).1.1 v w.
Proof.
  intros Hchk Hk. unfold storeResource. rewrite Hchk.
  pose proof Hchk as (filename & _ & HU)%commonResourceChecks_URI.
  destruct v; simplify_eq/=;
    unfold storeSandboxAndContainerConfigResource, storeStateResource,
      storeNetworkResource, storeProcessResource, storeMountResource,
      storeDeviceResource; simpl;
    rewrite ?(resourceURI_network sandboxSpecific); by rewrite HU.
Qed.

(** A value stored under a kind that is not the kind of its type is
    refused before any file is touched. *)
Lemma storeResource_refuses (sandboxSpecific : bool)
    (sandboxID containerID : string) (resource : sandboxResource)
    (v : data P) (w : world) :
  commonResourceChecks sandboxSpecific sandboxID containerID resource = None ->
  kind_of v <> Some resource ->
  storeResource sandboxSpecific sandboxID containerID resource v w
  = (Some match v with
          | anOpaque _ => errorString "Invalid resource data type"
          | _ => errInvalidResource
          end, w).
Proof.
  intros Hchk Hk. unfold storeResource. rewrite Hchk.
  destruct v; simpl in Hk; try done;
    unfold storeSandboxAndContainerConfigResource, storeStateResource,
      storeNetworkResource, storeProcessResource, storeMountResource,
      storeDeviceResource;
    match goal with
    | |- context [negb (?r =? ?k)] =>
        destruct (Z.eqb_spec r k) as [->|]; [done | done]
    end.
Qed.

Lemma storeResource_changes (sandboxSpecific : bool)
    (sandboxID containerID : string) (resource : sandboxResource)
    (v : data P) (w w' : world) (e : option error) (p : pathname) :
  storeResource sandboxSpecific sandboxID containerID resource v w = (e, w') ->
  (resourceURI sandboxSpecific sandboxID containerID resource).1.1 <> Some p ->
  nodes w' !! p = nodes w !! p /\ capacity w' = capacity w.
Proof.
  intros H Hne.
  destruct (commonResourceChecks sandboxSpecific sandboxID containerID resource)
    as [err|] eqn:Hchk.
  { unfold storeResource in H. rewrite Hchk in H. by simplify_eq. }
  destruct (decide (kind_of v = Some resource)) as [Hk|Hk].
  - rewrite storeResource_dispatch in H by done.
    destruct v; first [by eapply storeFile_frame | by eapply storeDeviceFile_frame].
  - rewrite storeResource_refuses in H by done. by simplify_eq.
Qed.

End Store.

(** X9.  Whatever its outcome, a store changes no node of the tree other
    than the file of the resource it was asked to store. *)
Theorem storeResource_frame (P : Package) (sandboxSpecific : bool)
    (sandboxID containerID : string) (resource : sandboxResource)
    (v : data P) (w w' : world) (e : option error) (p : pathname) :
  storeResource sandboxSpecific sandboxID containerID resource v w = (e, w') ->
  (resourceURI sandboxSpecific sandboxID containerID resource).1.1 <> Some p ->
  nodes w' !! p = nodes w !! p.
Proof. intros H Hne. by eapply storeResource_changes. Qed.

Lemma storeResource_frame_witness :
  nodes Demo.w_three !! ["run"; "vc"; "sbs"; "s1"; "lock"]
  = nodes Demo.w1 !! ["run"; "vc"; "sbs"; "s1"; "lock"].
Proof.
  apply (storeResource_frame Demo.package false "s1" "c1" devicesFileType
           Demo.devices3 Demo.w1 Demo.w_three None).
  - vm_compute. reflexivity.
  - vm_compute. discriminate.
Defined.

(** X10.  A value stored under a kind that is not the kind of its type is
    refused and the tree is left as it was: with [errInvalidResource], or
    with the error of the type switch for a value of a type the store does
    not know, once the common checks have passed. *)
Theorem storeResource_kind_mismatch (P : Package) (sandboxSpecific : bool)
    (sandboxID containerID : string) (resource : sandboxResource)
    (v : data P) (w : world) :
  kind_of v <> Some resource ->
  exists err,
    storeResource sandboxSpecific sandboxID containerID resource v w
    = (Some err, w)
    /\ (commonResourceChecks sandboxSpecific sandboxID containerID resource
        = None ->
        err = match v with
              | anOpaque _ => errorString "Invalid resource data type"
              | _ => errInvalidResource
              end).
Proof.
  intros Hk.
  destruct (commonResourceChecks sandboxSpecific sandboxID containerID resource)
    as [err|] eqn:Hchk.
  - exists err. unfold storeResource. by rewrite Hchk.
  - eexists. split; [by apply storeResource_refuses | done].
Qed.

Lemma storeResource_kind_mismatch_witness :
  exists err,
    storeResource true "s1" "" hypervisorFileType Demo.running Demo.w1
    = (Some err, Demo.w1)
    /\ (commonResourceChecks true "s1" "" hypervisorFileType = None ->
        err = errInvalidResource).
Proof.
  apply (storeResource_kind_mismatch Demo.package true "s1" ""
           hypervisorFileType Demo.running Demo.w1).
  simpl. discriminate.
Defined.

(** ** Storing: the directory is not made, the file is emptied first *)

Lemma Dir_app (dir : pathname) (c : string) : filepath.Dir (dir ++ [c]) = dir.
Proof. unfold filepath.Dir. apply removelast_last. Qed.





(** What [os.Create] leaves of a file that existed. *)
Lemma storeFile_marshal_error (P : Package) (file : gopath) (v : data P)
    (w w' : world) (msg : string) (err : error) :
  storeFile file v w = (Some (wrapError msg err), w') ->
  exists f, file = Some f /\ nodes w' !! f = Some (IsFile []).
Proof.
  unfold storeFile. destruct file as [f|]; [| done].
  destruct (os.Create (Some f) w) as [[f'|e] w1] eqn:HC.
  - apply Create_success in HC as ([= <-] & Hf & ->).
    destruct (json_Marshal v); [by destruct (os.Write _ _ _) |].
    intros [= _ _ <-]. exists f. split; [done |]. apply lookup_insert_eq.
  - intros [= -> _]. unfold os.Create in HC. repeat case_match; simplify_eq.
Qed.

Lemma storeDeviceFile_marshal_error (P : Package) (file : gopath) (v : data P)
    (w w' : world) (msg : string) (err : error) :
  storeDeviceFile file v w = (Some (wrapError msg err), w') ->
  exists f, file = Some f /\ nodes w' !! f = Some (IsFile []).
Proof.
  unfold storeDeviceFile. destruct file as [f|]; [| done].
  destruct (os.Create (Some f) w) as [[f'|e] w1] eqn:HC.
  - apply Create_success in HC as ([= <-] & Hf & ->).
    destruct v; try done.
    destruct (Marshal _ _).
    + destruct (os.Write _ _ _) as [[n [e|]] w2] eqn:HW; [| done].
      intros [= -> _]. unfold os.Write in HW. repeat case_match; simplify_eq.
    + intros [= _ _ <-]. exists f. split; [done |]. apply lookup_insert_eq.
  - intros [= -> _]. unfold os.Create in HC. repeat case_match; simplify_eq.
Qed.

(** X12.  A store that fails because the value cannot be encoded has
    already created or emptied the file of the resource: the file is left
    empty, and what was stored in it before is lost. *)
Theorem failed_encoding_empties_file (P : Package) (sandboxSpecific : bool)
    (sandboxID containerID : string) (resource : sandboxResource)
    (v : data P) (w w' : world) (msg : string) (err : error) :
  storeResource sandboxSpecific sandboxID containerID resource v w
  = (Some (wrapError msg err), w') ->
  exists f,
    (resourceURI sandboxSpecific sandboxID containerID resource).1.1 = Some f
    /\ nodes w' !! f = Some (IsFile []).
Proof.
  intros H.
  destruct (commonResourceChecks sandboxSpecific sandboxID containerID resource)
    as [e|] eqn:Hchk.
  { unfold storeResource in H. rewrite Hchk in H. simplify_eq.
    unfold commonResourceChecks in Hchk. repeat case_match; simplify_eq. }
  destruct (decide (kind_of v = Some resource)) as [Hk|Hk].
  - rewrite storeResource_dispatch in H by done.
    destruct v; first [by eapply storeFile_marshal_error
                      | by eapply storeDeviceFile_marshal_error].
  - rewrite storeResource_refuses in H by done. by destruct v.
Qed.

Lemma failed_encoding_empties_file_witness :
  exists f,
    (resourceURI false "s1" "c1" stateFileType).1.1 = Some f
    /\ nodes (storeResource false "s1" "c1" stateFileType Strict.stopped
                Strict.w_running).2 !! f = Some (IsFile []).
Proof.
  apply (failed_encoding_empties_file Strict.package false "s1" "c1"
           stateFileType Strict.stopped Strict.w_running _
           "Could not marshall data: " (foreignError "json" 2)).
  vm_compute. reflexivity.
Defined.

(** ** Round trips of the typed entry points *)

Section Roundtrip.

Variable P : Package.

(** What a fetch returns after a successful store under the same
    identifiers and kind. *)
Lemma fetch_after_store (sandboxSpecific : bool)
    (sandboxID containerID : string) (resource : sandboxResource)
    (v : data P) (w w' : world) :
  storeResource sandboxSpecific sandboxID containerID resource v w = (None, w') ->
  lossless v ->
  restorable v ->
  (forall b, serialized v = Ok b -> (length b <= avail w)%nat) ->
  fetchResource sandboxSpecific sandboxID containerID resource (target_of v) w'
  = Ok v.
Proof.
  intros (Hchk & Hcase & Hstore)%storeResource_success Hloss Hrest Hroom.
  unfold fetchResource. rewrite Hchk.
  pose proof Hchk as (filename & _ & HURI)%commonResourceChecks_URI.
  rewrite HURI in Hstore |- *. simpl in Hstore.
  unfold fetchFile. rewrite Hcase.
  destruct v as [c|c|s|n|p|l|devices|o];
    try (apply storeFile_success in Hstore as (b & HM & ->); [| done];
         by apply Hloss).
  apply storeDeviceFile_success in Hstore as (devices' & b & [= <-] & HM & ->).
  unfold fetchDeviceFile. rewrite (Hloss b HM).
  by rewrite (decodeDevices_all P _ devices []) by by apply restorable_decoded.
Qed.

Lemma storeContainerResource_store (sandboxID containerID : string)
    (resource : sandboxResource) (v : data P) (w w' : world) :
  storeContainerResource sandboxID containerID resource v w = (None, w') ->
  storeResource false sandboxID containerID resource v w = (None, w').
Proof. unfold storeContainerResource. by repeat destruct (decide _). Qed.

End Roundtrip.

(** X13.  Each typed store of the interface and the typed fetch that goes
    with it agree on the kind, the scope and the type: after a successful
    store of the network of a sandbox, or of the process, the mounts or
    the devices of a container, the fetch of the same name returns the
    value stored, provided the codec reads back what it wrote, the devices
    carry tags that [fetchDeviceFile] decodes, and the device had room. *)
Theorem typed_store_fetch_roundtrip (P : Package)
    (sandboxID containerID : string) (v : data P) (w w' : world) :
  lossless v ->
  restorable v ->
  (forall b, serialized v = Ok b -> (length b <= avail w)%nat) ->
  match v with
  | aNetworkNamespace networkNS =>
      storeSandboxNetwork P sandboxID networkNS w = (None, w') ->
      fetchSandboxNetwork P sandboxID w' = Ok v
  | aProcess process =>
      storeContainerProcess P sandboxID containerID process w = (None, w') ->
      fetchContainerProcess P sandboxID containerID w' = Ok v
  | aMounts mounts =>
      storeContainerMounts P sandboxID containerID mounts w = (None, w') ->
      fetchContainerMounts P sandboxID containerID w' = Ok v
  | aDevices devices =>
      storeContainerDevices P sandboxID containerID devices w = (None, w') ->
      fetchContainerDevices P sandboxID containerID w' = Ok v
  | _ => True
  end.
Proof.
  intros Hloss Hrest Hroom.
  destruct v as [c|c|s|n|p|l|devices|o]; try done.
  - intros H. by apply (fetch_after_store P true sandboxID "" networkFileType
                          (aNetworkNamespace n) w w').
  - intros H%storeContainerResource_store.
    by apply (fetch_after_store P false sandboxID containerID processFileType
                (aProcess p) w w').
  - intros H%storeContainerResource_store.
    by apply (fetch_after_store P false sandboxID containerID mountsFileType
                (aMounts l) w w').
  - intros H%storeContainerResource_store.
    by apply (fetch_after_store P false sandboxID containerID devicesFileType
                (aDevices devices) w w').
Qed.

Lemma typed_store_fetch_roundtrip_witness :
  fetchContainerDevices Demo.package "s1" "c1" Demo.w_three
  = Ok (@aDevices Demo.package Demo.three_devices).
Proof.
  pose proof (typed_store_fetch_roundtrip Demo.package "s1" "c1" Demo.devices3
                Demo.w1 Demo.w_three) as H.
  cbv beta iota delta [Demo.devices3] in H. apply H.
  - intros b Hb. vm_compute in Hb. injection Hb as <-. vm_compute. reflexivity.
  - repeat constructor; vm_compute; eexists; split; reflexivity.
  - intros b Hb. vm_compute in Hb. injection Hb as <-. vm_compute. lia.
  - vm_compute. reflexivity.
Defined.

(** X14.  The state of the hypervisor and the state of the agent, which
    are written straight to their files without the checks and the type
    switch of [storeResource], are read back by their fetch: after a
    successful store the fetch into a value of the same type returns the
    value stored, provided the codec reads back what it wrote and the
    device had room. *)
Theorem hypervisor_agent_state_roundtrip (P : Package) (sandboxID : string)
    (state : data P) (w w' : world) :
  (forall b, json_Marshal state = Ok b ->
             json_Unmarshal b (target_of state) = Ok state) ->
  (forall b, json_Marshal state = Ok b -> (length b <= avail w)%nat) ->
  (storeHypervisorState P sandboxID state w = (None, w') ->
   fetchHypervisorState P sandboxID (target_of state) w' = Ok state)
  /\ (storeAgentState P sandboxID state w = (None, w') ->
      fetchAgentState P sandboxID (target_of state) w' = Ok state).
Proof.
  intros Hloss Hroom.
  unfold storeHypervisorState, storeAgentState, fetchHypervisorState,
    fetchAgentState, fetchResource.
  destruct (decide (sandboxID = "")) as [->|HS]; [done |].
  rewrite !fetchable_checks by (done || by left).
  pose proof (commonResourceChecks_URI true sandboxID "" hypervisorFileType)
    as (fh & _ & ->); [by apply fetchable_checks; [| left |] |].
  pose proof (commonResourceChecks_URI true sandboxID "" agentFileType)
    as (fa & _ & ->); [by apply fetchable_checks; [| left |] |].
  unfold fetchFile.
  split; intros (b & HM & ->)%storeFile_success; try done; by apply Hloss.
Qed.

Lemma hypervisor_agent_state_roundtrip_witness :
  fetchHypervisorState Demo.package "s1" (target_of Cases.vm_state)
    Cases.w_hypervisor
  = Ok Cases.vm_state.
Proof.
  destruct (hypervisor_agent_state_roundtrip Demo.package "s1" Cases.vm_state
              Demo.w1 Cases.w_hypervisor) as [H _].
  - intros b Hb. vm_compute in Hb. injection Hb as <-.
    unfold Cases.vm_state. cbn [target_of json_Unmarshal].
    match goal with
    | |- result_map _ ?u = _ =>
        assert (u = Ok 42) as -> by (vm_compute; reflexivity)
    end.
    reflexivity.
  - intros b Hb. vm_compute in Hb. injection Hb as <-. vm_compute. lia.
  - apply H. vm_compute. reflexivity.
Defined.

(** ** One file for each resource *)

Lemma resourceFilename_injective (resource resource' : sandboxResource)
    (filename : string) :
  resourceFilename resource = Some filename ->
  resourceFilename resource' = Some filename ->
  resource = resource'.
Proof.
  unfold resourceFilename, is_case.
  case_resource resource; simpl; try (other_resource; done);
    intros [= <-];
    case_resource resource'; simpl; try (other_resource; done);
    intros [=]; done.
Qed.

Lemma resourceURI_injective_plain (sandboxSpecific sandboxSpecific' : bool)
    (sandboxID sandboxID' containerID containerID' : string)
    (resource resource' : sandboxResource) (file : pathname)
    (dir dir' : gopath) (e e' : option error) :
  plain sandboxID -> plain sandboxID' ->
  containerID = "" \/ plain containerID ->
  containerID' = "" \/ plain containerID' ->
  resourceURI sandboxSpecific sandboxID containerID resource
  = (Some file, dir, e) ->
  resourceURI sandboxSpecific' sandboxID' containerID' resource'
  = (Some file, dir', e') ->
  sandboxID = sandboxID' /\ containerID = containerID' /\ resource = resource'.
Proof.
  intros HS HS' HC HC'.
  intros (fn & Hfn & ->)%resourceURI_plain; [| done | done].
  intros (fn' & Hfn' & Heq)%resourceURI_plain; [| done | done].
  rewrite !app_comm_cons, !app_assoc in Heq.
  apply app_inj_tail in Heq as [Heq <-].
  assert (resource = resource') as <- by by eapply resourceFilename_injective.
  apply app_inv_head in Heq. injection Heq as -> Heq.
  repeat split.
  destruct HC as [->|HC], HC' as [->|HC']; try done.
  - rewrite decide_True, decide_False in Heq by (done || apply HC'). done.
  - rewrite decide_False, decide_True in Heq by (done || apply HC). done.
  - rewrite !decide_False in Heq by (apply HC || apply HC'). by simplify_eq.
Qed.

(** X15.  No two resources share a file: when the identifiers are plain
    path components, the file path that [resourceURI] returns determines
    the sandbox, the container and the kind. *)
Theorem resourceURI_injective (sandboxSpecific sandboxSpecific' : bool)
    (sandboxID sandboxID' containerID containerID' : string)
    (resource resource' : sandboxResource) (file : pathname)
    (dir dir' : gopath) :
  plain sandboxID -> plain sandboxID' ->
  containerID = "" \/ plain containerID ->
  containerID' = "" \/ plain containerID' ->
  resourceURI sandboxSpecific sandboxID containerID resource
  = (Some file, dir, None) ->
  resourceURI sandboxSpecific' sandboxID' containerID' resource'
  = (Some file, dir', None) ->
  sandboxID = sandboxID' /\ containerID = containerID' /\ resource = resource'.
Proof. apply resourceURI_injective_plain. Qed.

Lemma resourceURI_injective_witness :
  "s1" = "s1" /\ "c1" = "c1" /\ stateFileType = stateFileType.
Proof.
  apply (resourceURI_injective false false "s1" "s1" "c1" "c1"
           stateFileType stateFileType
           ["run"; "vc"; "sbs"; "s1"; "c1"; "state.json"]
           (Some ["run"; "vc"; "sbs"; "s1"; "c1"])
           (Some ["run"; "vc"; "sbs"; "s1"; "c1"])).
  - repeat split; discriminate.
  - repeat split; discriminate.
  - right. repeat split; discriminate.
  - right. repeat split; discriminate.
  - reflexivity.
  - reflexivity.
Defined.

(** X16.  A store, whatever its outcome, does not change what a fetch
    returns for any other resource: another sandbox, another container or
    another kind, the identifiers being plain path components and the
    container of the fetch not being named like the file of the kind
    stored (a file stored for the sandbox would then lie on the way to the
    files of that container). *)
Theorem store_keeps_other_resources (P : Package)
    (sandboxSpecific sandboxSpecific' : bool)
    (sandboxID sandboxID' containerID containerID' : string)
    (resource resource' : sandboxResource) (v : data P) (t : target)
    (w w' : world) (e : option error) :
  storeResource sandboxSpecific sandboxID containerID resource v w = (e, w') ->
  plain sandboxID -> plain sandboxID' ->
  containerID = "" \/ plain containerID ->
  containerID' = "" \/ plain containerID' ->
  (sandboxID', containerID', resource') <> (sandboxID, containerID, resource) ->
  resourceFilename resource <> Some containerID' ->
  fetchResource (P:=P) sandboxSpecific' sandboxID' containerID' resource' t w'
  = fetchResource sandboxSpecific' sandboxID' containerID' resource' t w.
Proof.
  intros Hstore HS HS' HC HC' Hne Hname. apply fetchResource_same.
  intros f' q Hf' Hq.
  eapply storeResource_changes; [done |]. intros Hf.
  destruct (resourceURI sandboxSpecific sandboxID containerID resource)
    as [[file dir] err] eqn:HU.
  destruct (resourceURI sandboxSpecific' sandboxID' containerID' resource')
    as [[file' dir'] err'] eqn:HU'.
  simplify_eq/=. destruct Hq as [k Hk]. destruct k as [|x k].
  - rewrite app_nil_r in Hk. subst f'.
    destruct (resourceURI_injective_plain _ _ _ _ _ _ _ _ _ _ _ _ _
                HS HS' HC HC' HU HU') as (-> & -> & ->).
    done.
  - apply resourceURI_plain in HU as (fn & Hfn & ->); [| done | done].
    apply resourceURI_plain in HU' as (fn' & Hfn' & Heq); [| done | done].
    rewrite Heq in Hk. clear Heq.
    rewrite configStoragePath_eq, runStoragePath_eq in Hk.
    destruct (resource =? configFileType), (resource' =? configFileType),
      (decide (containerID = "")), (decide (containerID' = ""));
      simplify_eq/=; by destruct Hname.
Qed.

Lemma store_keeps_other_resources_witness :
  fetchResource (P:=Demo.package) false "s1" "c1" devicesFileType toDevices
    (storeResource false "s1" "c1" stateFileType Demo.running Demo.w_three).2
  = fetchResource false "s1" "c1" devicesFileType toDevices Demo.w_three.
Proof.
  apply (store_keeps_other_resources Demo.package false false "s1" "s1"
           "c1" "c1" stateFileType devicesFileType Demo.running toDevices
           Demo.w_three _
           (storeResource false "s1" "c1" stateFileType Demo.running
              Demo.w_three).1).
  - by destruct (storeResource false "s1" "c1" stateFileType Demo.running
                   Demo.w_three).
  - repeat split; discriminate.
  - repeat split; discriminate.
  - right. repeat split; discriminate.
  - right. repeat split; discriminate.
  - discriminate.
  - discriminate.
Defined.

(** X17.  [resourceURI] returns a path exactly when the common checks of
    a store or a fetch pass, or when the kind is the lock with a sandbox
    identifier: the test of the error of [resourceURI] in [fetchResource],
    made after the checks, never fails, and the lock is the one kind that
    has a path and can be neither stored nor fetched. *)
Theorem resourceURI_defined (sandboxSpecific : bool)
    (sandboxID containerID : string) (resource : sandboxResource) :
  (resourceURI sandboxSpecific sandboxID containerID resource).2 = None
  <-> commonResourceChecks sandboxSpecific sandboxID containerID resource = None
      \/ (resource = lockFileType /\ sandboxID <> "").
Proof.
  unfold resourceURI, commonResourceChecks, resourceDir,
    resourceNeedsContainerID, resourceFilename, is_case.
  destruct (decide (sandboxID = "")) as [->|HS];
    [simpl; intuition congruence |].
  case_resource resource; simpl; other_resource; simpl;
    destruct sandboxSpecific, (bool_decide (containerID = "")); simpl;
    intuition (congruence || discriminate).
Qed.

(** ** Decoding the devices: what a success means *)

Lemma decodeDevices_sound (P : Package) (typedDevices : list TypedDevice)
    (tempDevices devices : list (Device P)) :
  decodeDevices typedDevices tempDevices = Ok devices ->
  exists decoded,
    devices = tempDevices ++ decoded
    /\ Forall2 (decoded_by P) typedDevices decoded.
Proof.
  revert tempDevices.
  induction typedDevices as [|d rest IH]; intros tempDevices; simpl.
  - intros [= <-]. exists []. by rewrite app_nil_r.
  - assert (forall device,
              decoded_by P d device ->
              decodeDevices rest (tempDevices ++ [device]) = Ok devices ->
              exists decoded,
                devices = tempDevices ++ decoded
                /\ Forall2 (decoded_by P) (d :: rest) decoded) as Hstep.
    { intros device Hd (decoded & -> & Hall)%IH.
      exists (device :: decoded). rewrite <- app_assoc. split; [done |].
      by constructor. }
    unfold decoded_by in Hstep.
    destruct (String.eqb (Type_ d) (DeviceVFIO P)).
    { destruct (Unmarshal (json_VFIODevice P) (Data d)) as [x|] eqn:Hx; [| done].
      apply Hstep. by exists x. }
    destruct (String.eqb (Type_ d) (DeviceBlock P)).
    { destruct (Unmarshal (json_BlockDevice P) (Data d)) as [x|] eqn:Hx;
        [| done].
      apply Hstep. by exists x. }
    destruct (String.eqb (Type_ d) (DeviceGeneric P)); [| done].
    destruct (Unmarshal (json_GenericDevice P) (Data d)) as [x|] eqn:Hx;
      [| done].
    apply Hstep. by exists x.
Qed.

(** X18.  [fetchDeviceFile] succeeds only on a file of envelopes that all
    carry a tag with a decoder: the devices it returns are, one for one
    and in the order of the file, what the decoder selected by the tag of
    each envelope made of its data. *)
Theorem fetchDeviceFile_sound (P : Package) (fileData : bytes)
    (devices : list (Device P)) :
  fetchDeviceFile fileData = Ok devices ->
  exists typedDevices,
    Unmarshal (json_TypedDevices P) fileData = Ok typedDevices
    /\ Forall2 (decoded_by P) typedDevices devices
    /\ Forall (fun d => recognised P (Type_ d) = true) typedDevices
    /\ length devices = length typedDevices.
Proof.
  unfold fetchDeviceFile.
  destruct (Unmarshal (json_TypedDevices P) fileData) as [typedDevices|];
    [| done].
  intros (decoded & -> & Hall)%decodeDevices_sound. simpl.
  exists typedDevices. split; [done |]. split; [done |]. split.
  - clear -Hall. induction Hall; constructor; [| done].
    by eapply decoded_by_recognised.
  - symmetry. by eapply Forall2_length.
Qed.

Lemma fetchDeviceFile_sound_witness :
  exists typedDevices,
    Unmarshal (json_TypedDevices Demo.package) Demo.three_fileData
    = Ok typedDevices
    /\ Forall2 (decoded_by Demo.package) typedDevices Demo.three_devices
    /\ Forall (fun d => recognised Demo.package (Type_ d) = true) typedDevices
    /\ length Demo.three_devices = length typedDevices.
Proof.
  apply (fetchDeviceFile_sound Demo.package Demo.three_fileData
           Demo.three_devices).
  vm_compute. reflexivity.
Defined.

(** ** Agent types *)

(** X19.  [Set] and [String] of [AgentType] are inverse to each other on
    the types that [Set] accepts: a successful [Set] was given one of the
    three names, leaves a type whose [String] is the name it was given,
    and setting that string again, on any receiver, gives the same
    type. *)
Theorem AgentType_Set_String (receiver agentType : AgentType)
    (value : string) :
  AgentType_Set receiver value = (agentType, None) ->
  In value [NoopAgentType; HyperstartAgent; KataContainersAgent]
  /\ agentType = value
  /\ AgentType_String agentType = value
  /\ (forall receiver' : AgentType,
        AgentType_Set receiver' (AgentType_String agentType)
        = (agentType, None)).
Proof.
  unfold AgentType_Set.
  destruct (String.eqb_spec value "noop") as [->|];
    [intros [= <-]; repeat split; simpl; tauto |].
  destruct (String.eqb_spec value "hyperstart") as [->|];
    [intros [= <-]; repeat split; simpl; tauto |].
  destruct (String.eqb_spec value "kata") as [->|];
    [intros [= <-]; repeat split; simpl; tauto |].
  done.
Qed.

Lemma AgentType_Set_String_witness :
  In "kata" [NoopAgentType; HyperstartAgent; KataContainersAgent]
  /\ KataContainersAgent = "kata"
  /\ AgentType_String KataContainersAgent = "kata"
  /\ (forall receiver' : AgentType,
        AgentType_Set receiver' (AgentType_String KataContainersAgent)
        = (KataContainersAgent, None)).
Proof.
  apply (AgentType_Set_String NoopAgentType KataContainersAgent "kata").
  reflexivity.
Defined.

(** X20.  [newAgentConfig] returns [nil] exactly for the agent types other
    than the hyperstart and the kata agent; for these two it returns the
    decoded configuration or, when the decoding fails, the error itself as
    the configuration value. *)
Theorem newAgentConfig_nil (AgentConfig HyperConfig KataAgentConfig : Type)
    (decodeHyper : AgentConfig -> result HyperConfig)
    (decodeKata : AgentConfig -> result KataAgentConfig)
    (agentType : AgentType) (config : AgentConfig) :
  (newAgentConfig AgentConfig HyperConfig KataAgentConfig decodeHyper
     decodeKata agentType config = nilConfig HyperConfig KataAgentConfig
   <-> agentType <> HyperstartAgent /\ agentType <> KataContainersAgent)
  /\ newAgentConfig AgentConfig HyperConfig KataAgentConfig decodeHyper
       decodeKata HyperstartAgent config
     = match decodeHyper config with
       | Ok hyperConfig => aHyperConfig HyperConfig KataAgentConfig hyperConfig
       | Err err => errorAsConfig HyperConfig KataAgentConfig err
       end
  /\ newAgentConfig AgentConfig HyperConfig KataAgentConfig decodeHyper
       decodeKata KataContainersAgent config
     = match decodeKata config with
       | Ok kataAgentConfig =>
           aKataAgentConfig HyperConfig KataAgentConfig kataAgentConfig
       | Err err => errorAsConfig HyperConfig KataAgentConfig err
       end.
Proof.
  split; [| split; unfold newAgentConfig; simpl;
            by destruct (decodeHyper config), (decodeKata config)].
  unfold newAgentConfig.
  destruct (String.eqb_spec agentType NoopAgentType) as [->|];
    [by split |].
  destruct (String.eqb_spec agentType HyperstartAgent) as [->|].
  { destruct (decodeHyper config); split; [done | tauto | done | tauto]. }
  destruct (String.eqb_spec agentType KataContainersAgent) as [->|].
  { destruct (decodeKata config); split; [done | tauto | done | tauto]. }
  by split.
Qed.

(** ** I/O streams: identity and closing *)

Section IOStreamMore.

Context {G : Type}.
Variable agent_of : Sandbox -> agent G.

Lemma fresh_not_allocated (l : positive) (io : iostream) (st : streams G) :
  heap st !! l = Some io -> fresh (dom (heap st)) <> l.
Proof.
  intros Hio Heq. pose proof (is_fresh (dom (heap st))) as Hfresh.
  rewrite Heq in Hfresh. apply Hfresh, elem_of_dom. eauto.
Qed.

(** A call changes a stream object at most in its [closed] field. *)
Lemma call_keeps_identity (l : positive) (io : iostream) (c : streamCall)
    (st st' : streams G) :
  heap st !! l = Some io ->
  call_state agent_of c st = Some st' ->
  exists io',
    heap st' !! l = Some io'
    /\ sandbox io' = sandbox io /\ container io' = container io
    /\ process io' = process io.
Proof.
  intros Hio. destruct c as [s c proc|s data|s|s data|s data]; simpl.
  - intros ?; simplify_eq/=. exists io. split; [| done].
    rewrite lookup_insert_ne; [done |]. by eapply fresh_not_allocated.
  - unfold stdinStream_Write.
    destruct (heap st !! stdin_iostream s) as [io'|]; [| done].
    destruct (closed io'); [intros ?; simplify_eq/=; by exists io |].
    destruct (writeProcessStdin _ _ _ _ _). intros ?; simplify_eq/=.
    by exists io.
  - unfold stdinStream_Close.
    destruct (heap st !! stdin_iostream s) as [io'|] eqn:Hio'; [| done].
    destruct (closed io') eqn:Hc'; [intros ?; simplify_eq/=; by exists io |].
    destruct (closeProcessStdin _ _ _ _) as [[e|] g];
      intros ?; simplify_eq/=; [by exists io |].
    destruct (decide (stdin_iostream s = l)) as [Heq|Hne].
    + rewrite Heq in Hio' |- *. simplify_eq. eexists.
      split; [apply lookup_insert_eq | done].
    + exists io. split; [| done]. by rewrite lookup_insert_ne.
  - unfold stdoutStream_Read.
    destruct (heap st !! stdout_iostream s) as [io'|]; [| done].
    destruct (closed io'); [intros ?; simplify_eq/=; by exists io |].
    destruct (readProcessStdout _ _ _ _ _). intros ?; simplify_eq/=.
    by exists io.
  - unfold stderrStream_Read.
    destruct (heap st !! stderr_iostream s) as [io'|]; [| done].
    destruct (closed io'); [intros ?; simplify_eq/=; by exists io |].
    destruct (readProcessStderr _ _ _ _ _). intros ?; simplify_eq/=.
    by exists io.
Qed.

(** X21.  A stream object, once made, stays where it is and stays the
    stream of the sandbox, the container and the process it was made for,
    whatever calls are made on any handle: only its [closed] field can
    change. *)
Theorem stream_identity_kept (l : positive) (io : iostream)
    (cs : list streamCall) (st st' : streams G) :
  heap st !! l = Some io ->
  calls_state agent_of cs st = Some st' ->
  exists io',
    heap st' !! l = Some io'
    /\ sandbox io' = sandbox io /\ container io' = container io
    /\ process io' = process io.
Proof.
  revert st io. induction cs as [|c cs IH]; intros st io Hio; simpl.
  - intros [= <-]. by exists io.
  - destruct (call_state agent_of c st) as [st1|] eqn:Hc; [| done].
    intros Hcs.
    destruct (call_keeps_identity _ _ _ _ _ Hio Hc)
      as (io1 & Hio1 & Hs1 & Hc1 & Hp1).
    destruct (IH _ _ Hio1 Hcs) as (io' & Hio' & Hs' & Hc' & Hp').
    exists io'. repeat split; [done | | |]; congruence.
Qed.

(** X22.  [newIOStream] makes a stream object of its own, open, and
    leaves every other stream object and the guest as they were: a stream
    made for a process is open, and a write on its stdin handle reaches
    the agent, even when a stream of the same process was closed before. *)
Theorem new_stream_is_open (s : Sandbox) (c : Container) (proc : string)
    (st : streams G) :
  let l := (newIOStream s c proc st).1 in
  let st1 := (newIOStream s c proc st).2 in
  heap st !! l = None
  /\ heap st1 !! l
     = Some {| sandbox := s; container := c; process := proc; closed := false |}
  /\ (forall l' : positive, l' <> l -> heap st1 !! l' = heap st !! l')
  /\ guest st1 = guest st
  /\ (forall data : bytes,
        stdinStream_Write agent_of (stdin l) data st1
        = Some (let '(r, g) :=
                  writeProcessStdin (agent_of s) c proc data (guest st) in
                (r, Streams (heap st1) g))).
Proof.
  simpl. split.
  { apply not_elem_of_dom. apply is_fresh. }
  split; [apply lookup_insert_eq |].
  split; [intros l' Hne; by rewrite lookup_insert_ne |].
  split; [done |].
  intros data. unfold stdinStream_Write. simpl. rewrite lookup_insert_eq.
  simpl. by destruct (writeProcessStdin _ _ _ _ _).
Qed.

(** X23.  Nothing but a [Close] of its own stdin handle that the agent
    accepts closes a stream: if a stream object is open before a call and
    closed after it, the call was that [Close] and the agent answered it
    without an error. *)
Theorem only_close_closes (l : positive) (io : iostream) (c : streamCall)
    (st st' : streams G) :
  heap st !! l = Some io ->
  closed io = false ->
  call_state agent_of c st = Some st' ->
  closed_at l st' ->
  c = callClose (stdin l)
  /\ closeProcessStdin (agent_of (sandbox io)) (container io) (process io)
       (guest st) = (None, guest st').
Proof.
  intros Hio Hopen Hcall (io' & Hio' & Hclosed).
  assert (heap st' = heap st -> False) as Hsame.
  { intros Heq. rewrite Heq in Hio'. congruence. }
  destruct c as [s c proc|s data|s|s data|s data]; simpl in Hcall.
  - simplify_eq/=. rewrite lookup_insert_ne in Hio'; [congruence |].
    by eapply fresh_not_allocated.
  - unfold stdinStream_Write in Hcall.
    destruct (heap st !! stdin_iostream s) as [io1|]; [| done].
    destruct (closed io1); [simplify_eq/=; by destruct Hsame |].
    destruct (writeProcessStdin _ _ _ _ _). simplify_eq/=; by destruct Hsame.
  - unfold stdinStream_Close in Hcall.
    destruct (heap st !! stdin_iostream s) as [io1|] eqn:Hio1; [| done].
    destruct (closed io1) eqn:Hc1; [simplify_eq/=; by destruct Hsame |].
    destruct (closeProcessStdin _ _ _ _) as [[e|] g] eqn:Hag;
      simplify_eq/=; try by destruct Hsame.
    destruct (decide (stdin_iostream s = l)) as [Heq|Hne].
    + destruct s as [l0]. simpl in *. subst l0. by simplify_eq.
    + rewrite lookup_insert_ne in Hio' by done. congruence.
  - unfold stdoutStream_Read in Hcall.
    destruct (heap st !! stdout_iostream s) as [io1|]; [| done].
    destruct (closed io1); [simplify_eq/=; by destruct Hsame |].
    destruct (readProcessStdout _ _ _ _ _). simplify_eq/=; by destruct Hsame.
  - unfold stderrStream_Read in Hcall.
    destruct (heap st !! stderr_iostream s) as [io1|]; [| done].
    destruct (closed io1); [simplify_eq/=; by destruct Hsame |].
    destruct (readProcessStderr _ _ _ _ _). simplify_eq/=; by destruct Hsame.
Qed.

End IOStreamMore.

Lemma stream_identity_kept_witness :
  exists io',
    heap Cases.streams_later !! Demo.init_stream = Some io'
    /\ sandbox io' = Demo.s1 /\ container io' = Demo.c1
    /\ process io' = "init".
Proof.
  apply (stream_identity_kept Demo.agent_of Demo.init_stream
           {| sandbox := Demo.s1; container := Demo.c1; process := "init";
              closed := false |}
           [callClose (stdin Demo.init_stream); callNew Demo.s1 Demo.c1 "sh"]
           Demo.streams_open Cases.streams_later).
  - vm_compute. reflexivity.
  - vm_compute. reflexivity.
Defined.

Lemma only_close_closes_witness :
  callClose (stdin Demo.init_stream) = callClose (stdin Demo.init_stream)
  /\ closeProcessStdin (Demo.agent_of Demo.s1) Demo.c1 "init"
       (guest Demo.streams_open) = (None, guest Demo.streams_closed).
Proof.
  apply (only_close_closes Demo.agent_of Demo.init_stream
           {| sandbox := Demo.s1; container := Demo.c1; process := "init";
              closed := false |}
           (callClose (stdin Demo.init_stream))
           Demo.streams_open Demo.streams_closed).
  - vm_compute. reflexivity.
  - reflexivity.
  - vm_compute. reflexivity.
  - eexists. split; [vm_compute; reflexivity | reflexivity].
Defined.

(** ** The sandbox identifier comes first *)

(** X24.  Without a sandbox identifier every URI function, the common
    checks, every store and every fetch answer [errNeedSandboxID],
    whatever the other arguments, and change nothing; so does a delete
    that has a kind to act on.  [createAllResources] drops the error of
    the URI functions: for a sandbox without identifier it fails with the
    error of making the directory of the empty path, and changes
    nothing. *)
Theorem sandbox_id_required (P : Package) (sandboxSpecific : bool)
    (containerID : string) (resource : sandboxResource) (v : data P)
    (t : target) (w : world) :
  resourceDir sandboxSpecific "" containerID resource
  = (None, Some errNeedSandboxID)
  /\ resourceURI sandboxSpecific "" containerID resource
     = (None, None, Some errNeedSandboxID)
  /\ containerURI "" containerID resource = (None, None, Some errNeedSandboxID)
  /\ sandboxURI "" resource = (None, None, Some errNeedSandboxID)
  /\ commonResourceChecks sandboxSpecific "" containerID resource
     = Some errNeedSandboxID
  /\ storeResource sandboxSpecific "" containerID resource v w
     = (Some errNeedSandboxID, w)
  /\ storeSandboxResource "" resource v w = (Some errNeedSandboxID, w)
  /\ storeContainerResource "" containerID resource v w
     = (Some errNeedSandboxID, w)
  /\ storeHypervisorState P "" v w = (Some errNeedSandboxID, w)
  /\ storeAgentState P "" v w = (Some errNeedSandboxID, w)
  /\ fetchResource (P:=P) sandboxSpecific "" containerID resource t w
     = Err errNeedSandboxID
  /\ (forall resources : list sandboxResource,
        deleteSandboxResources "" (Some (resource :: resources)) w
        = (Some errNeedSandboxID, w)
        /\ deleteContainerResources "" containerID
             (Some (resource :: resources)) w
           = (Some errNeedSandboxID, w))
  /\ deleteSandboxResources "" None w = (Some errNeedSandboxID, w)
  /\ deleteContainerResources "" containerID None w
     = (Some errNeedSandboxID, w)
  /\ (forall containers : list Container,
        createAllResources
          {| Sandbox_id := ""; containers := containers |} w
        = (Some (PathError "mkdir" ENOENT), w)).
Proof. repeat split. Qed.

(** ** The [ps] command *)

Section PSFacts.

Variables V ContainerStatus : Type.
Variable status_ID : ContainerStatus -> string.
Variable status_State : ContainerStatus -> string.
Variable StateRunning : string.
Variable getExistingContainerInfo :
  string -> V -> result (ContainerStatus * string) * V.
Variable ProcessListContainer :
  string -> string -> ProcessListOptions -> V -> result bytes * V.

Local Abbreviation ps_ :=
  (ps V ContainerStatus status_ID status_State StateRunning
     getExistingContainerInfo ProcessListContainer).
Local Abbreviation Action_ :=
  (psCLICommand_Action V ContainerStatus status_ID status_State StateRunning
     getExistingContainerInfo ProcessListContainer).

(** X25.  [ps] asks for the process list of a running container only,
    under the identifier and the sandbox that the lookup of the container
    returned, with the options it was given or with [-ef] when it was
    given none, and prints what it is answered: these are the only ways
    it succeeds.  On the command line, the container identifier alone
    stands for the container identifier followed by [-ef]. *)
Theorem ps_lists_running_container (containerID format : string)
    (args : list string) (st st' : console V) :
  ps_ containerID format args st = (None, st') ->
  containerID <> ""
  /\ (exists (status : ContainerStatus) (sandboxID : string) (v1 : V)
        (msg : bytes),
        getExistingContainerInfo containerID (api V st)
        = (Ok (status, sandboxID), v1)
        /\ status_State status = StateRunning
        /\ ProcessListContainer (status_ID status) sandboxID
             {| Format := format;
                Args := match args with [] => ["-ef"] | _ => args end |} v1
           = (Ok msg, api V st')
        /\ printed V st' = printed V st ++ [msg])
  /\ ps_ containerID format
       (match args with [] => ["-ef"] | _ => args end) st = (None, st')
  /\ Action_ (containerID :: args) format st
     = Action_ (containerID :: match args with [] => ["-ef"] | _ => args end)
         format st.
Proof.
  unfold psCLICommand_Action, ps.
  destruct (decide (containerID = "")); [done |].
  destruct (getExistingContainerInfo containerID (api V st))
    as [[[status sandboxID]|err] v1] eqn:Hinfo; [| done].
  destruct (String.eqb_spec (status_State status) StateRunning) as [Hrun|];
    [| done].
  simpl.
  assert ((if decide (length args = 0%nat) then ["-ef"] else args)
          = match args with [] => ["-ef"] | _ => args end) as Hargs
    by by destruct args.
  assert ((if decide (length match args with [] => ["-ef"] | _ => args end
                      = 0%nat)
           then ["-ef"] else match args with [] => ["-ef"] | _ => args end)
          = match args with [] => ["-ef"] | _ => args end) as Hargs'
    by by destruct args.
  rewrite Hargs, Hargs'.
  destruct (ProcessListContainer _ _ _ v1) as [[msg|err] v2] eqn:Hlist;
    [| done].
  intros [= <-]. split; [done |]. split; [| done].
  exists status, sandboxID, v1, msg. by rewrite Hlist.
Qed.

End PSFacts.

Lemma ps_lists_running_container_witness :
  "c1" <> ""
  /\ PsDemo.ps "c1" "table" ["-ef"] (Console unit tt [])
     = (None, Console unit tt [list_byte_of_string "ps -ef"]).
Proof.
  destruct (ps_lists_running_container unit (string * string) fst snd
              "running" PsDemo.lookup PsDemo.list_processes "c1" "table" []
              (Console unit tt [])
              (Console unit tt [list_byte_of_string "ps -ef"]))
    as (H1 & _ & H3 & _).
  - vm_compute. reflexivity.
  - split; [exact H1 | exact H3].
Defined.

(** ** Creating, then storing, then fetching *)

Lemma Create_in_directory (dir : pathname) (c : string) (w : world) :
  lstat (nodes w) dir = Some IsDir ->
  lstat (nodes w) (dir ++ [c]) <> Some IsDir ->
  os.Create (Some (dir ++ [c])) w
  = (Ok (dir ++ [c]),
     World (<[dir ++ [c] := IsFile []]> (nodes w)) (capacity w)).
Proof.
  intros Hdir Hfile. unfold os.Create. rewrite Dir_app, Hdir.
  by destruct (lstat (nodes w) (dir ++ [c])) as [[|old]|].
Qed.

(** The directory of a resource of a sandbox, or of one of its
    containers, after [createAllResources]. *)
Lemma created_directory (sandbox : Sandbox) (containerID : string)
    (resource : sandboxResource) (w w' : world) :
  createAllResources sandbox w = (None, w') ->
  containerID = ""
  \/ (exists c, In c (containers sandbox) /\ containerID = Container_id c) ->
  lstat (nodes w')
    (filepath.Join
       (if resource =? configFileType then configStoragePath
        else runStoragePath) [Sandbox_id sandbox; containerID]) = Some IsDir.
Proof.
  intros (_ & Hr & Hf & Hall & _)%createAllResources_success HC.
  destruct HC as [->|(c & Hin & ->)].
  - rewrite Join_empty. by destruct (resource =? configFileType).
  - rewrite List.Forall_forall in Hall.
    destruct (Hall c Hin) as (_ & Hcr & Hcf).
    by destruct (resource =? configFileType).
Qed.

(** X26.  [createAllResources] makes what a store needs: after it
    succeeded, a store for the sandbox itself or for one of its containers,
    of a value under the kind of its type, finds the directory of the
    resource and succeeds, provided the checks pass, no directory sits
    where the file belongs, the value can be encoded and the device has
    room for the bytes; and the fetch that follows returns the value when
    the codec reads back what it wrote. *)
Theorem create_then_store (P : Package) (sandbox : Sandbox)
    (sandboxSpecific : bool) (containerID : string)
    (resource : sandboxResource) (v : data P) (w w1 : world)
    (file : pathname) (b : bytes) :
  createAllResources sandbox w = (None, w1) ->
  containerID = ""
  \/ (exists c, In c (containers sandbox) /\ containerID = Container_id c) ->
  commonResourceChecks sandboxSpecific (Sandbox_id sandbox) containerID resource
  = None ->
  kind_of v = Some resource ->
  (resourceURI sandboxSpecific (Sandbox_id sandbox) containerID resource).1.1
  = Some file ->
  lstat (nodes w1) file <> Some IsDir ->
  serialized v = Ok b ->
  (length b <= avail w1)%nat ->
  exists w2,
    storeResource sandboxSpecific (Sandbox_id sandbox) containerID resource v w1
    = (None, w2)
    /\ ioutil.ReadFile (Some file) w2 = Ok b
    /\ (lossless v -> restorable v ->
        fetchResource sandboxSpecific (Sandbox_id sandbox) containerID resource
          (target_of v) w2 = Ok v).
Proof.
  intros Hcreate HC Hchk Hk Hfile Hnodir Hser Hroom.
  pose proof (created_directory sandbox containerID resource w w1 Hcreate HC)
    as Hdir.
  pose proof Hchk as (filename & Hfn & HU)%commonResourceChecks_URI.
  rewrite HU in Hfile. simpl in Hfile. injection Hfile as <-.
  rewrite Join_plain in Hnodir |- * by by eapply resourceFilename_plain.
  set (dir := filepath.Join _ [Sandbox_id sandbox; containerID]) in *.
  pose proof (Create_in_directory dir filename w1 Hdir Hnodir) as HCr.
  pose proof (Create_avail _ _ _ _ HCr) as Havail.
  set (w1' := World (<[dir ++ [filename] := IsFile []]> (nodes w1))
                (capacity w1)) in *.
  assert (os.Write (dir ++ [filename]) b w1'
          = ((length b, None),
             World (<[dir ++ [filename] := IsFile b]> (nodes w1'))
               (capacity w1'))) as HW.
  { rewrite (Write_spec _ b []) by apply lookup_insert_eq.
    rewrite decide_True by lia. by rewrite firstn_all2 by lia. }
  assert (exists w2,
            storeResource sandboxSpecific (Sandbox_id sandbox) containerID
              resource v w1 = (None, w2)
            /\ ioutil.ReadFile (Some (dir ++ [filename])) w2 = Ok b)
    as (w2 & Hstore & Hread).
  { eexists. rewrite storeResource_dispatch by done.
    rewrite HU. cbn [fst].
    rewrite Join_plain by by eapply resourceFilename_plain. fold dir.
    split.
    - destruct v; unfold storeFile, storeDeviceFile, serialized in *;
        cbv zeta; by rewrite HCr, Hser, HW.
    - apply ReadFile_insert. by intros [_ ?]%app_eq_nil. }
  exists w2. split; [done |]. split; [done |].
  intros Hloss Hrest.
  apply (fetch_after_store P _ _ _ _ v w1 w2); [done | done | done |].
  intros b' Hb'. rewrite Hser in Hb'. injection Hb' as <-. exact Hroom.
Qed.

Lemma create_then_store_witness :
  exists w2,
    storeResource false (Sandbox_id Demo.s1) "c1" devicesFileType Demo.devices3
      Demo.w1 = (None, w2)
    /\ ioutil.ReadFile
         (Some ["run"; "vc"; "sbs"; "s1"; "c1"; "devices.json"]) w2
       = Ok Demo.three_fileData
    /\ (lossless Demo.devices3 -> restorable Demo.devices3 ->
        fetchResource false (Sandbox_id Demo.s1) "c1" devicesFileType
          (target_of Demo.devices3) w2 = Ok Demo.devices3).
Proof.
  apply (create_then_store Demo.package Demo.s1 false "c1" devicesFileType
           Demo.devices3 (Demo.empty_world 4096) Demo.w1).
  - vm_compute. reflexivity.
  - right. exists Demo.c1. split; [by left | reflexivity].
  - reflexivity.
  - reflexivity.
  - reflexivity.
  - vm_compute. discriminate.
  - vm_compute. reflexivity.
  - vm_compute. lia.
Defined.
